(** * Multi-flow device file: a shallow embedding of multi-flow-service.c

    The driver keeps, for each of the 128 minors, one page used as a ring
    of bytes, two cursors, a spinlock and the session configuration
    (priority, blocking, timeout), plus two module parameters per minor
    (numBytes, numReaders).  High-priority writes copy into the page on the
    calling thread; low-priority writes reserve the bytes in numBytes and
    leave the copy to a work item run by delayed_work.

    Model.  One thread runs one driver call at a time; the work items run
    between calls and while a reader sleeps, oldest first.  The C integers
    are Z with the conversions of the C expressions written out (int,
    unsigned int, size_t, long long).  The page is addressed relative to its base: cell
    i of stream_content is the byte at stream_content + i, also for i
    outside 0..4095, where the C code reaches kernel memory next to the
    page.  The clock (jiffies) moves on by the timeout when a thread
    sleeps in wait_event_timeout, and by one jiffy for every further turn
    of the loop of a blocking read or of a blocking low-priority write,
    so that these loops reach their deadline.  The loop of the blocking
    high-priority write, whose test of the deadline cannot hold, has no
    exit while the spinlock is taken and is cut by the fuel of the loop.
    printk and wake_up have no effect on the modelled state. *)

From Stdlib Require Import ZArith Lia List Strings.Byte.
From stdpp Require Import base option list relations.

Local Open Scope Z_scope.

(** ** C integer conversions *)

(** Conversion to unsigned int. *)
Definition u32 (z : Z) : Z := z mod 2 ^ 32.
(** Conversion to size_t, unsigned long and u64. *)
Definition u64 (z : Z) : Z := z mod 2 ^ 64.
(** Conversion to int (the kernel is built with wrapping signed arithmetic). *)
Definition s32 (z : Z) : Z := (z + 2 ^ 31) mod 2 ^ 32 - 2 ^ 31.
(** Conversion to long long and ssize_t. *)
Definition s64 (z : Z) : Z := (z + 2 ^ 63) mod 2 ^ 64 - 2 ^ 63.

(** ** Constants of the driver *)

Definition MINORS : nat := 128.
Definition OBJECT_MAX_SIZE : Z := 4096.

(** Largest length the VFS layer passes to a read or write handler
    (MAX_RW_COUNT, INT_MAX rounded down to a page). *)
Definition MAX_RW_COUNT : Z := 2 ^ 31 - 4096.

(** ** Memory *)

Abbreviation byte := Byte.byte.

(** Bytes addressed relative to the base of a page. *)
Definition memory : Type := Z -> byte.

(** Byte-wise copy of [data] to the cells from [dst] on. *)
Fixpoint store (mem : memory) (dst : Z) (data : list byte) : memory :=
  match data with
  | [] => mem
  | b :: rest =>
      store (fun a => if Z.eqb a dst then b else mem a) (dst + 1) rest
  end.

(** The [n] bytes of the cells from [src] on. *)
Fixpoint load (mem : memory) (src : Z) (n : nat) : list byte :=
  match n with
  | O => []
  | S k => mem src :: load mem (src + 1) k
  end.

Definition is_nul (b : byte) : bool := Byte.eqb b x00.

(** The bytes of a C string: those before the first zero byte. *)
Fixpoint cstring (src : list byte) : list byte :=
  match src with
  | [] => []
  | b :: rest => if is_nul b then [] else b :: cstring rest
  end.

(** strcpy(mem + dst, src): the bytes before the first zero byte of [src],
    then the terminator.  Every source buffer the driver passes ends with
    a zero byte. *)
Definition strcpy (mem : memory) (dst : Z) (src : list byte) : memory :=
  store mem dst (cstring src ++ [x00]).

(** ** User memory *)

(** copy_from_user(to, from, n).  [from] lists the bytes readable at the
    user address; the copy stops at the first unreadable byte and the
    kernel pads the destination with zero bytes up to [n].  Result: the
    [n] bytes that reach the destination and the number of bytes not
    copied. *)
Definition copy_from_user (from : list byte) (n : Z) : list byte * Z :=
  let k := Z.min n (Z.of_nat (length from)) in
  (take (Z.to_nat k) from ++ replicate (Z.to_nat (n - k)) x00, n - k).

(** copy_to_user(to + at, data, n), [data] being the [n] bytes read from
    the page.  [to] lists the bytes writable at the user address.  Result:
    the user memory afterwards and the number of bytes not copied. *)
Definition copy_to_user (to : list byte) (at_ : Z) (data : list byte)
  : list byte * Z :=
  let n := Z.of_nat (length data) in
  let k := Z.min n (Z.max 0 (Z.of_nat (length to) - at_)) in
  (list_inserts (Z.to_nat at_) (take (Z.to_nat k) data) to, n - k).

(** ** Data of the driver *)

(** struct _object_state.  [operation_synchronizer] is true while the
    spinlock is held. *)
Record object_state : Type := mk_object {
  operation_synchronizer : bool;
  off_read : Z;
  off_write : Z;
  stream_content : memory;
  priority : bool;
  blocking : bool;
  timeout : Z
}.

(** struct _packed_work (the work_struct itself carries no data). *)
Record packed_work : Type := mk_work {
  major : Z;
  minor : nat;
  copiedBytes : Z;
  buffer : list byte
}.

(** The session: the device numbers of the inode behind a struct file. *)
Record file : Type := mk_file {
  f_major : Z;
  f_minor : nat
}.

Definition get_major (filp : file) : Z := f_major filp.
Definition get_minor (filp : file) : nat := f_minor filp.

(** The globals of the module, the pending items of the system work queue
    (oldest first) and the clock. *)
Record driver : Type := mk_driver {
  objects : list object_state;
  enableDriver : list bool;
  numReaders : list Z;
  numBytes : list Z;
  workqueue : list packed_work;
  jiffies : Z
}.

#[global] Instance object_state_inhabited : Inhabited object_state :=
  populate (mk_object false 0 0 (fun _ => x00) false false 0).

(** Field updates. *)
Definition set_lock (v : bool) (o : object_state) : object_state :=
  mk_object v (off_read o) (off_write o) (stream_content o)
            (priority o) (blocking o) (timeout o).
Definition set_off_read (v : Z) (o : object_state) : object_state :=
  mk_object (operation_synchronizer o) v (off_write o) (stream_content o)
            (priority o) (blocking o) (timeout o).
Definition set_off_write (v : Z) (o : object_state) : object_state :=
  mk_object (operation_synchronizer o) (off_read o) v (stream_content o)
            (priority o) (blocking o) (timeout o).
Definition set_stream_content (v : memory) (o : object_state) : object_state :=
  mk_object (operation_synchronizer o) (off_read o) (off_write o) v
            (priority o) (blocking o) (timeout o).
Definition set_priority (v : bool) (o : object_state) : object_state :=
  mk_object (operation_synchronizer o) (off_read o) (off_write o)
            (stream_content o) v (blocking o) (timeout o).
Definition set_blocking (v : bool) (o : object_state) : object_state :=
  mk_object (operation_synchronizer o) (off_read o) (off_write o)
            (stream_content o) (priority o) v (timeout o).
Definition set_timeout (v : Z) (o : object_state) : object_state :=
  mk_object (operation_synchronizer o) (off_read o) (off_write o)
            (stream_content o) (priority o) (blocking o) v.

(** objects[mn], and its update. *)
Definition get_object (w : driver) (mn : nat) : object_state :=
  objects w !!! mn.
Definition set_object (mn : nat) (o : object_state) (w : driver) : driver :=
  mk_driver (<[mn := o]> (objects w)) (enableDriver w) (numReaders w)
            (numBytes w) (workqueue w) (jiffies w).
(** numBytes[mn] and numReaders[mn], and their updates. *)
Definition get_numBytes (w : driver) (mn : nat) : Z := numBytes w !!! mn.
Definition set_numBytes (mn : nat) (v : Z) (w : driver) : driver :=
  mk_driver (objects w) (enableDriver w) (numReaders w)
            (<[mn := v]> (numBytes w)) (workqueue w) (jiffies w).
Definition get_numReaders (w : driver) (mn : nat) : Z := numReaders w !!! mn.
Definition set_numReaders (mn : nat) (v : Z) (w : driver) : driver :=
  mk_driver (objects w) (enableDriver w) (<[mn := v]> (numReaders w))
            (numBytes w) (workqueue w) (jiffies w).
Definition set_workqueue (q : list packed_work) (w : driver) : driver :=
  mk_driver (objects w) (enableDriver w) (numReaders w) (numBytes w)
            q (jiffies w).
Definition set_jiffies (t : Z) (w : driver) : driver :=
  mk_driver (objects w) (enableDriver w) (numReaders w) (numBytes w)
            (workqueue w) t.

(** ** Kernel primitives *)

(** spin_trylock: nonzero and the lock taken when it was free. *)
Definition spin_trylock (o : object_state) : bool * object_state :=
  if operation_synchronizer o then (false, o) else (true, set_lock true o).
Definition spin_unlock (o : object_state) : object_state := set_lock false o.

(** atomic_add, atomic_sub, atomic_inc and atomic_dec on the module
    parameters, which are unsigned int. *)
Definition atomic_add_numBytes (i : Z) (mn : nat) (w : driver) : driver :=
  set_numBytes mn (u32 (get_numBytes w mn + i)) w.
Definition atomic_sub_numBytes (i : Z) (mn : nat) (w : driver) : driver :=
  set_numBytes mn (u32 (get_numBytes w mn - i)) w.
Definition atomic_inc_numReaders (mn : nat) (w : driver) : driver :=
  set_numReaders mn (u32 (get_numReaders w mn + 1)) w.
Definition atomic_dec_numReaders (mn : nat) (w : driver) : driver :=
  set_numReaders mn (u32 (get_numReaders w mn - 1)) w.

(** schedule_work: the item joins the queue at its end. *)
Definition schedule_work (t : packed_work) (w : driver) : driver :=
  set_workqueue (workqueue w ++ [t]) w.

(** ** dev_open and dev_release *)

Definition dev_open (w : driver) (filp : file) : Z :=
  let mn := get_minor filp in
  if (MINORS <=? mn)%nat then -1
  else if negb (enableDriver w !!! mn) then -1
  else 0.

Definition dev_release (w : driver) (filp : file) : Z := 0.

(** ** delayed_work

    The two kzalloc calls of the wrapping case are taken to succeed (the
    code does not test them). *)
Definition delayed_work (the_work : packed_work) (w : driver) : driver :=
  let mn := minor the_work in
  let len := copiedBytes the_work in
  let o := set_lock true (get_object w mn) in
  let '(buff1, len1, buff2, len2) :=
    if s32 (OBJECT_MAX_SIZE - off_write o) >=? len
    then (buffer the_work, len, [], 0)
    else
      let len2 := s32 (len + off_write o - OBJECT_MAX_SIZE) in
      let len1 := s32 (OBJECT_MAX_SIZE - off_write o) in
      (take (Z.to_nat len1) (buffer the_work) ++ [x00], len1,
       take (Z.to_nat len2) (drop (Z.to_nat len1) (buffer the_work)) ++ [x00],
       len2) in
  let o := set_stream_content
             (strcpy (stream_content o) (off_write o) buff1) o in
  let o := set_off_write (s32 (off_write o + len1)) o in
  let o :=
    if 0 <? len2 then
      let o := set_off_write 0 o in
      let o := set_stream_content
                 (strcpy (stream_content o) (off_write o) buff2) o in
      set_off_write (s32 (off_write o + len2)) o
    else o in
  set_object mn (spin_unlock o) w.

(** The kernel worker: it takes the oldest pending item and runs it. *)
Definition run_work (w : driver) : driver :=
  match workqueue w with
  | [] => w
  | the_work :: rest => delayed_work the_work (set_workqueue rest w)
  end.

(** The kernel worker runs every pending item, oldest first. *)
Definition run_pending (w : driver) : driver :=
  Nat.iter (length (workqueue w)) run_work w.

(** ** Time

    wait_event_timeout(queue, condition, timeout), seen by the only
    thread that runs a call.  When the condition holds the call returns
    at once with the time left (at least 1), and with no time left it
    returns 0 at once.  Otherwise the thread sleeps.  No other call is
    there to wake it, so it sleeps for the whole timeout, and the kernel
    worker has the processor and runs the pending work items; at expiry
    the condition is looked at again, and the call returns 1 when it
    holds then and 0 when it does not. *)
Definition wait_event_timeout (condition : driver -> bool) (tmo : Z)
    (w : driver) : Z * driver :=
  if condition w then (Z.max 1 tmo, w)
  else if tmo =? 0 then (0, w)
  else
    let w := run_pending (set_jiffies (jiffies w + tmo) w) in
    (if condition w then 1 else 0, w).

(** The clock between two turns of a loop.  A thread that goes round a
    loop reads the clock at every turn, and time passes while it does:
    the model lets one jiffy pass before each further turn, so that a
    loop that makes no progress leaves at its deadline. *)
Definition next_turn (w : driver) : driver :=
  set_jiffies (jiffies w + 1) w.

(** ** dev_write *)

(** The copy into the page, written twice in the source (blocking and
    non-blocking high-priority write), with the lock held.  [len] is the
    length left after the test on the room; the result is the object and
    [result]. *)
Definition write_chunk (o : object_state) (buff : list byte) (len : Z)
  : object_state * Z :=
  let '(len, len_2nd) :=
    if u64 (OBJECT_MAX_SIZE - off_write o) <? len
    then (u64 (OBJECT_MAX_SIZE - off_write o),
          s32 (len + off_write o - OBJECT_MAX_SIZE))
    else (len, 0) in
  let '(data, uncopied) := copy_from_user buff len in
  let ret := s32 uncopied in
  let o := set_stream_content
             (store (stream_content o) (off_write o) data) o in
  let o := set_off_write (s32 (off_write o + (len - ret))) o in
  let result := s32 (0 + (len - ret)) in
  if (0 <? len_2nd) && (u64 result =? len) then
    let o := set_off_write 0 o in
    let '(data, uncopied) :=
      copy_from_user (drop (Z.to_nat result) buff) (u64 len_2nd) in
    let ret := s32 uncopied in
    let o := set_stream_content
               (store (stream_content o) (off_write o) data) o in
    let o := set_off_write (s32 (off_write o + (len_2nd - ret))) o in
    (o, s32 (result + (len_2nd - ret)))
  else (o, result).

(** The label exit_write: account the bytes, release the lock (held or
    not), wake the readers, return. *)
Definition exit_write (mn : nat) (result : Z) (w : driver) : Z * driver :=
  let w := if 0 <? result then atomic_add_numBytes result mn w else w in
  (result, set_object mn (spin_unlock (get_object w mn)) w).

(** The test "the file is full" of all four write paths. *)
Definition file_is_full (w : driver) (mn : nat) (len : Z) : bool :=
  u64 (get_numBytes w mn + len) >=? OBJECT_MAX_SIZE.

(** The loop of the blocking high-priority write.  [diff] is a u64 there,
    so its test against 0 never holds. *)
Fixpoint high_blocking_loop (fuel : nat) (mn : nat) (jiffies_timer : Z)
    (buff : list byte) (len : Z) (w : driver) : option (Z * driver) :=
  match fuel with
  | O => None
  | S fuel' =>
      let diff := u64 (jiffies_timer - s64 (jiffies w)) in
      if diff <? 0 then Some (exit_write mn 0 w)
      else
        match spin_trylock (get_object w mn) with
        | (true, o) =>
            if file_is_full w mn len
            then Some (exit_write mn 0 (set_object mn o w))
            else
              let '(o, result) := write_chunk o buff len in
              Some (exit_write mn result (set_object mn o w))
        | (false, _) => high_blocking_loop fuel' mn jiffies_timer buff len w
        end
  end.

(** The reservation of a low-priority write, written twice in the source
    (blocking and non-blocking), with the lock held by [o].  [result]
    holds the number of bytes copy_from_user left out.  The answer is the
    value to return, the driver, and whether the work item is to be
    scheduled (false: the file is full, the item is freed). *)
Definition low_reserve (mn : nat) (len result : Z) (o : object_state)
    (w : driver) : Z * driver * bool :=
  if file_is_full w mn len
  then (result, set_object mn (spin_unlock o) w, false)
  else
    let result := s32 (len - result) in
    let w := atomic_add_numBytes result mn (set_object mn o w) in
    (result, set_object mn (spin_unlock (get_object w mn)) w, true).

(** The loop of the blocking low-priority write.  While the lock is
    taken the thread goes round; once the deadline has passed it leaves
    for dealloc_task with [result] as copy_from_user left it. *)
Fixpoint low_blocking_loop (fuel : nat) (mn : nat) (jiffies_timer : Z)
    (len result : Z) (w : driver) : option (Z * driver * bool) :=
  match fuel with
  | O => None
  | S fuel' =>
      let diff := s64 (jiffies_timer - s64 (jiffies w)) in
      if diff <? 0 then Some (result, w, false)
      else
        match spin_trylock (get_object w mn) with
        | (true, o) => Some (low_reserve mn len result o w)
        | (false, _) =>
            low_blocking_loop fuel' mn jiffies_timer len result (next_turn w)
        end
  end.

Section Driver.

(** msecs_to_jiffies of the kernel, which depends on its HZ. *)
Variable msecs_to_jiffies : Z -> Z.

(** The deadline of a blocking call:
    (long long) (get_jiffies_64() + msecs_to_jiffies(timeout)). *)
Definition deadline (w : driver) (o : object_state) : Z :=
  s64 (u64 (jiffies w + msecs_to_jiffies (u32 (timeout o)))).

(** dev_write(filp, buff, len, off).  [buff] lists the bytes readable at
    the user address, [kzalloc_ok] tells whether the allocation of the
    work item succeeds.  None: the fuel of a loop ran out. *)
Definition dev_write (w : driver) (filp : file) (buff : list byte) (len : Z)
    (kzalloc_ok : bool) (fuel : nat) : option (Z * driver) :=
  let mn := get_minor filp in
  let the_object := get_object w mn in
  if priority the_object then
    (* HIGH PRIORITY *)
    if blocking the_object then
      high_blocking_loop fuel mn (deadline w the_object) buff len w
    else
      match spin_trylock the_object with
      | (true, o) =>
          if file_is_full w mn len
          then Some (0, set_object mn (spin_unlock o) w)
          else
            let '(o, result) := write_chunk o buff len in
            Some (exit_write mn result (set_object mn o w))
      | (false, _) => Some (exit_write mn 0 w)
      end
  else
    (* LOW PRIORITY *)
    if negb kzalloc_ok then Some (-1, w)
    else
      let '(data, uncopied) := copy_from_user buff len in
      let result := s32 uncopied in
      let the_task :=
        mk_work (get_major filp) mn (s32 (len - result)) (data ++ [x00]) in
      let outcome :=
        if blocking the_object then
          low_blocking_loop fuel mn (deadline w the_object) len result w
        else
          match spin_trylock the_object with
          | (true, o) => Some (low_reserve mn len result o w)
          | (false, _) => Some (result, w, false)
          end in
      match outcome with
      | None => None
      | Some (result, w, true) => Some (result, schedule_work the_task w)
      | Some (result, w, false) => Some (result, w)
      end.

(** ** dev_read *)

(** The copy out of the page, written twice in the source (blocking and
    non-blocking read), with the lock held.  In the blocking read the
    locals [len], [len_2nd] and [result] live across the turns of the
    loop, so they are passed in and handed back. *)
Definition read_chunk (o : object_state) (buff : list byte)
    (len len_2nd result : Z)
  : object_state * list byte * Z * Z * Z :=
  let '(len, len_2nd) :=
    if u64 (OBJECT_MAX_SIZE - off_read o) <? len
    then (u64 (OBJECT_MAX_SIZE - off_read o),
          s32 (len + off_read o - OBJECT_MAX_SIZE))
    else (len, len_2nd) in
  let '(buff, uncopied) :=
    copy_to_user buff 0
      (load (stream_content o) (off_read o) (Z.to_nat len)) in
  let ret := s32 uncopied in
  let o := set_off_read (s32 (off_read o + (len - ret))) o in
  let result := s32 (result + (len - ret)) in
  if (0 <? len_2nd) && (u64 result =? len) then
    let o := set_off_read 0 o in
    let '(buff, uncopied) :=
      copy_to_user buff result
        (load (stream_content o) (off_read o) (Z.to_nat (u64 len_2nd))) in
    let ret := s32 uncopied in
    let o := set_off_read (s32 (off_read o + (len_2nd - ret))) o in
    (o, buff, len, len_2nd, s32 (result + (len_2nd - ret)))
  else (o, buff, len, len_2nd, result).

(** The condition on which a blocking read of minor [mn] sleeps:
    off_write - off_read > 0 && numBytes[minor] > 0. *)
Definition read_condition (mn : nat) (w : driver) : bool :=
  let o := get_object w mn in
  (0 <? s32 (off_write o - off_read o)) && (0 <? get_numBytes w mn).

(** The loop of the blocking read.  The answer is the driver, the user
    memory and [result] when the loop is left: at the deadline, after a
    sleep that ended without data, or with the read completed. *)
Fixpoint read_blocking_loop (fuel : nat) (mn : nat) (jiffies_timer : Z)
    (w : driver) (buff : list byte) (len len_2nd result : Z)
  : option (driver * list byte * Z) :=
  match fuel with
  | O => None
  | S fuel' =>
      let diff := s64 (jiffies_timer - s64 (jiffies w)) in
      if diff <? 0 then Some (w, buff, result)
      else
        let o := get_object w mn in
        let '(ret, w) :=
          if s32 (off_write o - off_read o) <=? 0 then
            wait_event_timeout (read_condition mn) (u64 diff) w
          else (1, w) in
        if s32 ret =? 0 then Some (w, buff, result)
        else
          match spin_trylock (get_object w mn) with
          | (true, o) =>
              if s32 (off_write o - off_read o) =? 0 then
                read_blocking_loop fuel' mn jiffies_timer
                  (next_turn (set_object mn (spin_unlock o) w))
                  buff len len_2nd result
              else
                let '(o, buff, len, len_2nd, result) :=
                  read_chunk o buff len len_2nd result in
                let w := set_object mn (spin_unlock o) w in
                if u64 result =? len then Some (w, buff, result)
                else
                  read_blocking_loop fuel' mn jiffies_timer
                    (next_turn w) buff len len_2nd result
          | (false, _) =>
              read_blocking_loop fuel' mn jiffies_timer
                (next_turn w) buff len len_2nd result
          end
  end.

(** The end of both branches of dev_read: one reader less, the bytes read
    leave numBytes, return. *)
Definition exit_read (mn : nat) (result : Z) (buff : list byte) (w : driver)
  : Z * list byte * driver :=
  let w := atomic_dec_numReaders mn w in
  let w := if 0 <? result then atomic_sub_numBytes result mn w else w in
  (result, buff, w).

(** dev_read(filp, buff, len, off).  [buff] lists the bytes writable at
    the user address; the answer carries the user memory afterwards.
    None: the fuel of the loop ran out. *)
Definition dev_read (w : driver) (filp : file) (buff : list byte) (len : Z)
    (fuel : nat) : option (Z * list byte * driver) :=
  let mn := get_minor filp in
  let w := atomic_inc_numReaders mn w in
  let the_object := get_object w mn in
  if blocking the_object then
    match read_blocking_loop fuel mn (deadline w the_object)
                             w buff len 0 0 with
    | None => None
    | Some (w, buff, result) => Some (exit_read mn result buff w)
    end
  else
    match spin_trylock the_object with
    | (true, o) =>
        if s32 (off_write o - off_read o) =? 0
        then Some (exit_read mn 0 buff (set_object mn (spin_unlock o) w))
        else
          let '(o, buff, _, _, result) := read_chunk o buff len 0 0 in
          Some (exit_read mn result buff (set_object mn (spin_unlock o) w))
    | (false, _) => Some (exit_read mn 0 buff w)
    end.

(** dev_read between atomic_inc on numReaders and atomic_dec: the loop
    of the blocking read, or the one attempt of the non-blocking read.
    The answer is the driver, the user memory and [result] where the
    code goes on to atomic_dec. *)
Definition dev_read_body (w : driver) (filp : file) (buff : list byte)
    (len : Z) (fuel : nat) : option (driver * list byte * Z) :=
  let mn := get_minor filp in
  let the_object := get_object w mn in
  if blocking the_object then
    read_blocking_loop fuel mn (deadline w the_object) w buff len 0 0
  else
    match spin_trylock the_object with
    | (true, o) =>
        if s32 (off_write o - off_read o) =? 0
        then Some (set_object mn (spin_unlock o) w, buff, 0)
        else
          let '(o, buff, _, _, result) := read_chunk o buff len 0 0 in
          Some (set_object mn (spin_unlock o) w, buff, result)
    | (false, _) => Some (w, buff, 0)
    end.

End Driver.

(** ** dev_ioctl *)

(** The three commands of the driver; any other command number is
    [IO_OTHER]. *)
Inductive ioctl_command : Type :=
  | IOWR_PRIORITYSTATE
  | IOWR_BLOCKINGSTATE
  | IOWR_TIMEOUT
  | IO_OTHER (code : Z).

(** dev_ioctl(filp, command, param).  [param] is the int readable at the
    user address, or None when copy_from_user cannot read it. *)
Definition dev_ioctl (w : driver) (filp : file) (command : ioctl_command)
    (param : option Z) : Z * driver :=
  let mn := get_minor filp in
  let the_object := get_object w mn in
  match param with
  | None => (-1, w)
  | Some value =>
      match command with
      | IOWR_PRIORITYSTATE =>
          if value =? 0 then (0, set_object mn (set_priority false the_object) w)
          else if value =? 1
               then (0, set_object mn (set_priority true the_object) w)
               else (-1, w)
      | IOWR_BLOCKINGSTATE =>
          if value =? 0 then (0, set_object mn (set_blocking false the_object) w)
          else if value =? 1
               then (0, set_object mn (set_blocking true the_object) w)
               else (-1, w)
      | IOWR_TIMEOUT =>
          if 0 <? value
          then (0, set_object mn (set_timeout value the_object) w)
          else (-1, w)
      | IO_OTHER _ => (-1, w)
      end
  end.

(** ** init_module

    The state after a successful init_module: every page allocated (its
    bytes are whatever the page held, [pages i] for minor [i]), high
    priority, blocking, 200 ms, every minor enabled, counters at zero. *)
Definition init_object (page : memory) : object_state :=
  mk_object false 0 0 page true true 200.

Definition init_module (pages : nat -> memory) (now : Z) : driver :=
  mk_driver (map (fun i => init_object (pages i)) (seq 0 MINORS))
            (replicate MINORS true)
            (replicate MINORS 0)
            (replicate MINORS 0)
            []
            now.

(** ** Data of the examples *)

(** msecs_to_jiffies of a kernel with HZ = 250. *)
Definition msecs_to_jiffies_250 (m : Z) : Z := (m + 3) / 4.

(** A freshly loaded module whose pages hold zero bytes. *)
Definition boot : driver := init_module (fun _ _ => x00) 1000.

(** A session on minor 0. *)
Definition session0 : file := mk_file 240 0.

(** The payload of the user programs. *)
Definition ciao : list byte := [x63; x69; x61; x6f].

(** The driver after ioctl(IOWR_BLOCKINGSTATE, 0) on the fresh module. *)
Definition boot_nonblocking : driver :=
  snd (dev_ioctl boot session0 IOWR_BLOCKINGSTATE (Some 0)).

(** The driver after ioctl(IOWR_PRIORITYSTATE, 0) on the fresh module. *)
Definition boot_low : driver :=
  snd (dev_ioctl boot session0 IOWR_PRIORITYSTATE (Some 0)).

(** ** Notions used by the properties *)

(** What a reservation of [r] bytes on minor [mn] leaves behind: the byte
    counter raised by [r], the queue, the page and both cursors as they
    were. *)
Definition reserved (mn : nat) (w : driver) (r : Z) (w1 : driver) : Prop :=
  workqueue w1 = workqueue w /\
  get_numBytes w1 mn = u32 (get_numBytes w mn + r) /\
  stream_content (get_object w1 mn) = stream_content (get_object w mn) /\
  off_write (get_object w1 mn) = off_write (get_object w mn) /\
  off_read (get_object w1 mn) = off_read (get_object w mn).

(** The lock and the configuration of [o'] are those of [o]. *)
Definition same_settings (o o' : object_state) : Prop :=
  operation_synchronizer o' = operation_synchronizer o /\
  priority o' = priority o /\ blocking o' = blocking o /\
  timeout o' = timeout o.

(** The driver after a write of the whole of [buff], and after a read of
    [len] bytes into zeroed user memory of that size, on minor 0 (the
    driver as it was when the call has no answer). *)
Definition after_write (w : driver) (buff : list byte) : driver :=
  match dev_write msecs_to_jiffies_250 w session0 buff
                  (Z.of_nat (length buff)) true 1 with
  | Some (_, w') => w'
  | None => w
  end.

Definition after_read (w : driver) (len : Z) : driver :=
  match dev_read msecs_to_jiffies_250 w session0
                 (replicate (Z.to_nat len) x00) len 1 with
  | Some (_, _, w') => w'
  | None => w
  end.

(** numBytes, numReaders, off_read and off_write of minor 0. *)
Definition counters (w : driver) : Z * Z * Z * Z :=
  (get_numBytes w 0, get_numReaders w 0,
   off_read (get_object w 0), off_write (get_object w 0)).

(** The answer of a call, with the counters of the driver it leaves. *)
Definition write_outcome (r : option (Z * driver))
  : option (Z * (Z * Z * Z * Z)) :=
  match r with
  | Some (n, w) => Some (n, counters w)
  | None => None
  end.

Definition read_outcome (r : option (Z * list byte * driver))
  : option (Z * list byte * (Z * Z * Z * Z)) :=
  match r with
  | Some (n, b, w) => Some (n, b, counters w)
  | None => None
  end.

(** The fresh module (high priority, blocking) after "ciao" was written. *)
Definition boot_ciao : driver := after_write boot ciao.

(** The same on the module set to non-blocking. *)
Definition boot_nonblocking_ciao : driver := after_write boot_nonblocking ciao.

(** The fresh module after 4094 bytes were written and read back: the
    flow is empty and both cursors stand at 4094. *)
Definition boot_at_4094 : driver :=
  after_read (after_write boot (replicate 4094 x41)) 4094.

(** The non-blocking module holding "ciao", written with high priority,
    after ioctl(IOWR_PRIORITYSTATE, 0). *)
Definition ciao_then_low : driver :=
  snd (dev_ioctl boot_nonblocking_ciao session0 IOWR_PRIORITYSTATE (Some 0)).

(** The module with its cursors at 4094 after ioctl(IOWR_PRIORITYSTATE, 0). *)
Definition low_at_4094 : driver :=
  snd (dev_ioctl boot_at_4094 session0 IOWR_PRIORITYSTATE (Some 0)).

(** A payload of four bytes that starts with a zero byte. *)
Definition nul_abc : list byte := [x00; x61; x62; x63].

(** The work item of a low-priority write of "ciao" on minor 0. *)
Definition ciao_work : packed_work := mk_work 240 0 4 (ciao ++ [x00]).

(** ** The byte counter and the cursors *)

(** The bytes of the page between the read and the write cursor. *)
Definition bytes_in_page (o : object_state) : Z :=
  (off_write o - off_read o) mod OBJECT_MAX_SIZE.

(** The bytes that the items of the queue have reserved for minor [mn]. *)
Fixpoint pending (q : list packed_work) (mn : nat) : Z :=
  match q with
  | [] => 0
  | the_work :: rest =>
      (if Nat.eqb (minor the_work) mn then copiedBytes the_work else 0)
      + pending rest mn
  end.

(** What holds of a minor between two calls: the lock is free, the
    cursors are within the page, and numBytes, below the capacity, counts
    the bytes in the page and the bytes reserved in the queue. *)
Definition flow_invariant (w : driver) (mn : nat) : Prop :=
  let o := get_object w mn in
  operation_synchronizer o = false /\
  0 <= off_read o <= OBJECT_MAX_SIZE /\
  0 <= off_write o <= OBJECT_MAX_SIZE /\
  0 <= get_numBytes w mn < OBJECT_MAX_SIZE /\
  get_numBytes w mn = bytes_in_page o + pending (workqueue w) mn.

(** A work item names a minor of the driver and holds a length. *)
Definition work_ok (the_work : packed_work) : Prop :=
  (minor the_work < MINORS)%nat /\ 0 <= copiedBytes the_work.

(** What holds of the driver between two calls. *)
Definition driver_invariant (w : driver) : Prop :=
  length (objects w) = MINORS /\
  length (numBytes w) = MINORS /\
  Forall work_ok (workqueue w) /\
  forall mn, (mn < MINORS)%nat -> flow_invariant w mn.

(** One move of the driver, run from its start to its return before the
    next move starts: a write of at most MAX_RW_COUNT bytes, a run of
    the oldest work item, an ioctl, or a read that asks for no more than
    the bytes in the page and hands in memory of the caller that is
    writable for the requested length; the calls are on minors below
    128. *)
Inductive step (msecs_to_jiffies : Z -> Z) : driver -> driver -> Prop :=
  | step_write w filp buff len kzalloc_ok fuel r w' :
      (get_minor filp < MINORS)%nat ->
      0 <= len <= MAX_RW_COUNT ->
      dev_write msecs_to_jiffies w filp buff len kzalloc_ok fuel
      = Some (r, w') ->
      step msecs_to_jiffies w w'
  | step_work w :
      step msecs_to_jiffies w (run_work w)
  | step_ioctl w filp command param :
      (get_minor filp < MINORS)%nat ->
      step msecs_to_jiffies w (snd (dev_ioctl w filp command param))
  | step_read w filp buff len fuel r buff' w' :
      (get_minor filp < MINORS)%nat ->
      0 <= len <= bytes_in_page (get_object w (get_minor filp)) ->
      len <= Z.of_nat (length buff) ->
      dev_read msecs_to_jiffies w filp buff len fuel = Some (r, buff', w') ->
      step msecs_to_jiffies w w'.

(** The states the driver reaches from a freshly loaded module by such
    moves, one after the other.  These are states between two calls: no
    call is under way in them and no lock is held. *)
Definition reachable (msecs_to_jiffies : Z -> Z) (w : driver) : Prop :=
  exists pages now,
    rtc (step msecs_to_jiffies) (init_module pages now) w.

(** The low-priority module after a write of "ciao": the bytes are
    reserved, their work item has not run. *)
Definition low_ciao_reserved : driver := after_write boot_low ciao.

(** ** The bytes of a flow *)

(** The [n] bytes of the ring from position [off] on, going round the end
    of the page. *)
Definition ring_load (mem : memory) (off : Z) (n : nat) : list byte :=
  map (fun i => mem ((off + Z.of_nat i) mod OBJECT_MAX_SIZE)) (seq 0 n).

(** The bytes that wait in the page of [o], oldest first. *)
Definition flow_bytes (o : object_state) : list byte :=
  ring_load (stream_content o) (off_read o) (Z.to_nat (bytes_in_page o)).

(** ** What a call leaves alone *)

(** Between [w] and [w'] nothing but minor [mn] has changed: the enabling
    of the minors is the same, and so are the object and the counters of
    every other minor. *)
Definition other_minors_kept (mn : nat) (w w' : driver) : Prop :=
  enableDriver w' = enableDriver w /\
  length (objects w') = length (objects w) /\
  forall mn', mn' <> mn ->
    get_object w' mn' = get_object w mn' /\
    get_numBytes w' mn' = get_numBytes w mn' /\
    get_numReaders w' mn' = get_numReaders w mn'.

(** What a read leaves alone in the object it reads from: the page, the
    write cursor and the settings. *)
Definition page_kept (o o' : object_state) : Prop :=
  stream_content o' = stream_content o /\
  off_write o' = off_write o /\
  priority o' = priority o /\ blocking o' = blocking o /\
  timeout o' = timeout o.

(** What a write leaves alone on its own minor and in the rest of the
    module: the read cursor, the settings and the count of readers. *)
Definition reader_side_kept (mn : nat) (w w' : driver) : Prop :=
  off_read (get_object w' mn) = off_read (get_object w mn) /\
  priority (get_object w' mn) = priority (get_object w mn) /\
  blocking (get_object w' mn) = blocking (get_object w mn) /\
  timeout (get_object w' mn) = timeout (get_object w mn) /\
  numReaders w' = numReaders w /\
  length (objects w') = length (objects w).

(** ** init_module and cleanup_module: the pages

    What the two functions do with the pages of the module.  A page is
    known by its address, 0 for NULL; [stream] holds stream_content of
    the 128 objects, and [allocated] lists the pages that
    __get_free_page has handed out and free_page has not taken back. *)

Definition ENOMEM : Z := 12.

(** free_page(addr), which does nothing for the address 0. *)
Definition free_page (addr : Z) (allocated : list Z) : list Z :=
  if addr =? 0 then allocated else filter (fun a => a <> addr) allocated.

(** The first loop of init_module from minor [i] on, [n] minors being
    left.  [get_free_page i] is the answer of __get_free_page for minor
    [i].  The result names the minor at which the loop was left for
    revert_allocationPage, if any. *)
Fixpoint allocate_pages (n i : nat) (get_free_page : nat -> Z)
    (stream allocated : list Z) : option nat * list Z * list Z :=
  match n with
  | O => (None, stream, allocated)
  | S n' =>
      let addr := get_free_page i in
      let stream := <[i := addr]> stream in
      if addr =? 0 then (Some i, stream, allocated)
      else allocate_pages n' (S i) get_free_page stream (addr :: allocated)
  end.

(** The loop at the label revert_allocationPage: free_page for the minors
    from [i] down to 0. *)
Fixpoint revert_allocationPage (i : nat) (stream allocated : list Z)
  : list Z :=
  let allocated := free_page (stream !!! i) allocated in
  match i with
  | O => allocated
  | S j => revert_allocationPage j stream allocated
  end.

(** init_module, as far as the pages go.  [register_chrdev] is the answer
    of __register_chrdev.  The result is the value returned,
    stream_content of the objects and the pages left allocated. *)
Definition init_module_pages (get_free_page : nat -> Z) (register_chrdev : Z)
    (allocated : list Z) : Z * list Z * list Z :=
  match allocate_pages MINORS 0 get_free_page (replicate MINORS 0) allocated
  with
  | (Some i, stream, allocated) =>
      (- ENOMEM, stream, revert_allocationPage i stream allocated)
  | (None, stream, allocated) =>
      if register_chrdev <? 0 then (register_chrdev, stream, allocated)
      else (0, stream, allocated)
  end.

(** cleanup_module: free_page for every minor, from 0 upwards. *)
Definition cleanup_module (stream allocated : list Z) : list Z :=
  foldl (fun allocated i => free_page (stream !!! i) allocated)
        allocated (seq 0 MINORS).

(** ** More data of the examples *)

(** The module set to non-blocking while another thread holds the lock
    of minor 0. *)
Definition boot_nonblocking_busy : driver :=
  set_object 0 (set_lock true (get_object boot_nonblocking 0))
             boot_nonblocking.

(** The module set to low priority, with the lock of minor 0 taken by
    another thread. *)
Definition boot_low_busy : driver :=
  set_object 0 (set_lock true (get_object boot_low 0)) boot_low.

(** The module holding "ciao" on minor 0, with the lock of minor 0 taken
    by another thread. *)
Definition boot_ciao_busy : driver :=
  set_object 0 (set_lock true (get_object boot_ciao 0)) boot_ciao.

(** A payload of two bytes. *)
Definition ab : list byte := [x61; x62].

(** The work item of a low-priority write of "ab" on minor 0. *)
Definition ab_work : packed_work := mk_work 240 0 2 (ab ++ [x00]).

(** An allocator that hands out one page after the other. *)
Definition page_at (i : nat) : Z := 4096 * (Z.of_nat i + 1).

(** An allocator that has three pages to give. *)
Definition three_pages (i : nat) : Z :=
  if (i <? 3)%nat then page_at i else 0.

(** * Properties *)

(** Reduction of the projections of an updated object. *)
Tactic Notation "proj_simpl" :=
  cbn [fst snd andb off_write off_read stream_content operation_synchronizer
       priority blocking timeout set_off_write set_off_read
       set_stream_content set_lock].
Tactic Notation "proj_simpl" "in" hyp(H) :=
  cbn [fst snd andb off_write off_read stream_content operation_synchronizer
       priority blocking timeout set_off_write set_off_read
       set_stream_content set_lock] in H.

(** ** Integer conversions on values in range *)

Lemma u32_small z : 0 <= z < 4294967296 -> u32 z = z.
Proof. intros H. unfold u32. apply Z.mod_small. lia. Qed.

Lemma u64_small z : 0 <= z < 18446744073709551616 -> u64 z = z.
Proof. intros H. unfold u64. apply Z.mod_small. lia. Qed.

Lemma s32_small z : -2147483648 <= z < 2147483648 -> s32 z = z.
Proof.
  intros H. unfold s32.
  change (2 ^ 31) with 2147483648. change (2 ^ 32) with 4294967296.
  rewrite Z.mod_small; lia.
Qed.

Lemma s64_small z :
  -9223372036854775808 <= z < 9223372036854775808 -> s64 z = z.
Proof.
  intros H. unfold s64.
  change (2 ^ 63) with 9223372036854775808.
  change (2 ^ 64) with 18446744073709551616.
  rewrite Z.mod_small; lia.
Qed.

Lemma u32_range z : 0 <= u32 z < 4294967296.
Proof. unfold u32. change (2 ^ 32) with 4294967296. apply Z.mod_pos_bound. lia. Qed.

Lemma u64_range z : 0 <= u64 z < 18446744073709551616.
Proof.
  unfold u64. change (2 ^ 64) with 18446744073709551616.
  apply Z.mod_pos_bound. lia.
Qed.

Lemma u32_inc_dec n : 0 <= n < 4294967296 -> u32 (u32 (n + 1) - 1) = n.
Proof.
  intros H. unfold u32. change (2 ^ 32) with 4294967296.
  destruct (Z.eq_dec n 4294967295) as [-> | Hn]; [reflexivity |].
  rewrite (Z.mod_small (n + 1)) by lia.
  replace (n + 1 - 1) with n by lia. apply Z.mod_small. lia.
Qed.

(** ** The arrays of the module *)

Lemma get_set_object w mn o :
  (mn < length (objects w))%nat -> get_object (set_object mn o w) mn = o.
Proof.
  intros H. unfold get_object, set_object. simpl.
  apply list_lookup_total_insert_eq. exact H.
Qed.

Lemma get_set_object_ne w mn mn' o :
  mn <> mn' -> get_object (set_object mn o w) mn' = get_object w mn'.
Proof.
  intros H. unfold get_object, set_object. simpl.
  apply list_lookup_total_insert_ne. exact H.
Qed.

Lemma get_set_numBytes w mn v :
  (mn < length (numBytes w))%nat -> get_numBytes (set_numBytes mn v w) mn = v.
Proof.
  intros H. unfold get_numBytes, set_numBytes. simpl.
  apply list_lookup_total_insert_eq. exact H.
Qed.

Lemma get_set_numBytes_ne w mn mn' v :
  mn <> mn' -> get_numBytes (set_numBytes mn v w) mn' = get_numBytes w mn'.
Proof.
  intros H. unfold get_numBytes, set_numBytes. simpl.
  apply list_lookup_total_insert_ne. exact H.
Qed.

Lemma set_object_same w mn :
  set_object mn (get_object w mn) w = w.
Proof.
  unfold set_object, get_object. destruct w as [os en nr nb q t]. simpl.
  f_equal. destruct (decide (mn < length os)%nat) as [Hlt | Hge].
  - apply list_insert_id. apply list_lookup_lookup_total_lt. exact Hlt.
  - apply list_insert_ge. lia.
Qed.

(** ** dev_ioctl: the timeout *)

(** C9.  A timeout command with a positive value succeeds (returns 0) and
    stores the value as the timeout of the instance, leaving priority and
    blocking mode as they were; with a value that is not positive the
    command fails (returns -1) and the whole driver state, so the timeout,
    the priority and the blocking mode too, is unchanged. *)
Theorem dev_ioctl_timeout (w : driver) (filp : file) (value : Z) :
  (get_minor filp < length (objects w))%nat ->
  (0 < value ->
   let r := dev_ioctl w filp IOWR_TIMEOUT (Some value) in
   let o := get_object w (get_minor filp) in
   let o' := get_object (snd r) (get_minor filp) in
   fst r = 0 /\ timeout o' = value /\
   priority o' = priority o /\ blocking o' = blocking o) /\
  (value <= 0 ->
   dev_ioctl w filp IOWR_TIMEOUT (Some value) = (-1, w)).
Proof.
  intros Hmn. split.
  - intros Hpos. unfold dev_ioctl.
    destruct (Z.ltb_spec 0 value) as [_ | Hle]; [| lia].
    cbn [fst snd]. rewrite get_set_object by exact Hmn.
    repeat split; reflexivity.
  - intros Hneg. unfold dev_ioctl.
    destruct (Z.ltb_spec 0 value) as [Hlt | _]; [lia | reflexivity].
Qed.

Lemma dev_ioctl_timeout_witness :
  (get_minor session0 < length (objects boot))%nat /\
  ((0 < 250 ->
    let r := dev_ioctl boot session0 IOWR_TIMEOUT (Some 250) in
    let o := get_object boot (get_minor session0) in
    let o' := get_object (snd r) (get_minor session0) in
    fst r = 0 /\ timeout o' = 250 /\
    priority o' = priority o /\ blocking o' = blocking o) /\
   (250 <= 0 ->
    dev_ioctl boot session0 IOWR_TIMEOUT (Some 250) = (-1, boot))).
Proof.
  assert (H : (get_minor session0 < length (objects boot))%nat)
    by (vm_compute; lia).
  split; [exact H | exact (dev_ioctl_timeout boot session0 250 H)].
Defined.

(** ** dev_write: the allocation of the work item fails *)

(** C8, as the code has it.  When the allocation of the work item of a
    low-priority write fails, the write returns -1, the failure value of
    the driver, and leaves the driver state as it was (nothing reserved,
    nothing queued, the lock not touched), so the session stays usable. *)
Theorem low_write_alloc_failure (msecs_to_jiffies : Z -> Z) (w : driver)
    (filp : file) (buff : list byte) (len : Z) (fuel : nat) :
  priority (get_object w (get_minor filp)) = false ->
  dev_write msecs_to_jiffies w filp buff len false fuel = Some (-1, w).
Proof.
  intros Hlow. unfold dev_write. rewrite Hlow. reflexivity.
Qed.

Lemma low_write_alloc_failure_witness :
  priority (get_object boot_low (get_minor session0)) = false /\
  dev_write msecs_to_jiffies_250 boot_low session0 ciao 4 false 1
  = Some (-1, boot_low).
Proof.
  assert (H : priority (get_object boot_low (get_minor session0)) = false)
    by reflexivity.
  split; [exact H |].
  exact (low_write_alloc_failure msecs_to_jiffies_250 boot_low session0
           ciao 4 1 H).
Defined.

(** C8 as the specification words it fails: on a low-priority instance a
    write whose allocation fails does not return zero. *)
Lemma low_write_alloc_failure_not_zero :
  priority (get_object boot_low (get_minor session0)) = false /\
  ~ (exists w',
       dev_write msecs_to_jiffies_250 boot_low session0 ciao 4 false 1
       = Some (0, w')).
Proof.
  split; [reflexivity |].
  intros [w' H]. unfold dev_write in H.
  change (priority (get_object boot_low (get_minor session0))) with false in H.
  cbn [negb] in H. discriminate H.
Qed.

(** ** The kernel worker and the clock *)

Lemma delayed_work_fields the_work w :
  let w' := delayed_work the_work w in
  enableDriver w' = enableDriver w /\ numReaders w' = numReaders w /\
  numBytes w' = numBytes w /\ jiffies w' = jiffies w /\
  workqueue w' = workqueue w /\ length (objects w') = length (objects w).
Proof.
  cbv zeta. unfold delayed_work.
  destruct (_ >=? _); cbn zeta; destruct (0 <? _);
    unfold set_object; cbn [enableDriver numReaders numBytes jiffies
                              workqueue objects];
    rewrite length_insert; auto 10.
Qed.

Lemma run_work_fields w :
  enableDriver (run_work w) = enableDriver w /\
  numReaders (run_work w) = numReaders w /\
  numBytes (run_work w) = numBytes w /\ jiffies (run_work w) = jiffies w /\
  workqueue (run_work w) = tail (workqueue w) /\
  length (objects (run_work w)) = length (objects w).
Proof.
  unfold run_work. destruct (workqueue w) as [| the_work rest] eqn:Hq.
  - rewrite Hq. auto 10.
  - destruct (delayed_work_fields the_work (set_workqueue rest w))
      as (He & Hn & Hb & Hj & Hq' & Hl).
    rewrite He, Hn, Hb, Hj, Hq', Hl. auto 10.
Qed.

Lemma run_work_iter_fields n : forall w,
  length (workqueue w) = n ->
  let w' := Nat.iter n run_work w in
  enableDriver w' = enableDriver w /\ numReaders w' = numReaders w /\
  numBytes w' = numBytes w /\ jiffies w' = jiffies w /\
  workqueue w' = [] /\ length (objects w') = length (objects w).
Proof.
  induction n as [| n IH]; intros w Hlen.
  - cbn. destruct (workqueue w); [auto 10 | discriminate].
  - rewrite Nat.iter_succ_r. cbv zeta.
    destruct (run_work_fields w) as (He & Hn & Hb & Hj & Hq & Hl).
    destruct (IH (run_work w)) as (He' & Hn' & Hb' & Hj' & Hq' & Hl').
    { rewrite Hq. destruct (workqueue w); [discriminate |].
      cbn in *. lia. }
    rewrite He', Hn', Hb', Hj', Hq', Hl'. auto 10.
Qed.

Lemma run_pending_fields w :
  enableDriver (run_pending w) = enableDriver w /\
  numReaders (run_pending w) = numReaders w /\
  numBytes (run_pending w) = numBytes w /\
  jiffies (run_pending w) = jiffies w /\
  workqueue (run_pending w) = [] /\
  length (objects (run_pending w)) = length (objects w).
Proof. apply run_work_iter_fields. reflexivity. Qed.

Lemma run_pending_nil w : workqueue w = [] -> run_pending w = w.
Proof. intros H. unfold run_pending. rewrite H. reflexivity. Qed.

Lemma wait_event_timeout_counters c t w :
  let w' := snd (wait_event_timeout c t w) in
  enableDriver w' = enableDriver w /\ numReaders w' = numReaders w /\
  numBytes w' = numBytes w /\
  (jiffies w' = jiffies w \/ (t <> 0 /\ jiffies w' = jiffies w + t)) /\
  length (objects w') = length (objects w).
Proof.
  cbv zeta. unfold wait_event_timeout.
  destruct (c w); [cbn [snd]; auto 10 |].
  destruct (Z.eqb_spec t 0) as [Hz | Hnz]; [cbn [snd]; auto 10 |].
  cbn [snd].
  destruct (run_pending_fields (set_jiffies (jiffies w + t) w))
    as (He & Hn & Hb & Hj & _ & Hl).
  rewrite He, Hn, Hb, Hj, Hl. cbn [jiffies set_jiffies]. auto 10.
Qed.

(** The clock two turns of a loop apart. *)
Lemma s64_shift jt j k :
  let d := s64 (jt - s64 j) in
  0 <= d -> 0 <= k <= d + 1 -> s64 (jt - s64 (j + k)) = d - k.
Proof.
  cbv zeta. unfold s64.
  change (2 ^ 63) with 9223372036854775808.
  change (2 ^ 64) with 18446744073709551616.
  intros Hd Hk. Z.div_mod_to_equations. lia.
Qed.

(** ** dev_read: the count of readers *)

Lemma read_blocking_loop_counters fuel :
  forall mn jt w buff len len2 res w' buff' r,
  read_blocking_loop fuel mn jt w buff len len2 res = Some (w', buff', r) ->
  numReaders w' = numReaders w /\ numBytes w' = numBytes w /\
  enableDriver w' = enableDriver w.
Proof.
  induction fuel as [| fuel IH]; intros mn jt w buff len len2 res w' buff' r H;
    [discriminate |].
  cbn [read_blocking_loop] in H.
  destruct (s64 (jt - s64 (jiffies w)) <? 0).
  { injection H as <- <- <-. auto. }
  set (o := get_object w mn) in H.
  destruct (if s32 (off_write o - off_read o) <=? 0 then _ else _)
    as [ret w1] eqn:Hwait.
  assert (Hw1 : numReaders w1 = numReaders w /\ numBytes w1 = numBytes w /\
                enableDriver w1 = enableDriver w).
  { destruct (s32 (off_write o - off_read o) <=? 0).
    - pose proof (wait_event_timeout_counters (read_condition mn)
        (u64 (s64 (jt - s64 (jiffies w)))) w) as Hc.
      rewrite Hwait in Hc. cbn [snd] in Hc. tauto.
    - injection Hwait as <- <-. auto. }
  destruct Hw1 as (Hr1 & Hb1 & He1).
  destruct (s32 ret =? 0).
  { injection H as <- <- <-. auto. }
  unfold spin_trylock in H.
  destruct (operation_synchronizer (get_object w1 mn)).
  { apply IH in H. change (numReaders (next_turn w1)) with (numReaders w1) in H.
    change (numBytes (next_turn w1)) with (numBytes w1) in H.
    change (enableDriver (next_turn w1)) with (enableDriver w1) in H.
    rewrite <- Hr1, <- Hb1, <- He1. exact H. }
  destruct (s32 _ =? 0) in H.
  { apply IH in H. cbn in H. rewrite <- Hr1, <- Hb1, <- He1. exact H. }
  destruct (read_chunk _ _ _ _ _) as [[[[o2 b2] l2] l22] r2].
  destruct (u64 r2 =? l2).
  { injection H as <- <- <-. cbn. auto. }
  apply IH in H. cbn in H. rewrite <- Hr1, <- Hb1, <- He1. exact H.
Qed.

(** The loop of the blocking read is left: within the turns that the
    time to the deadline allows. *)
Lemma read_blocking_loop_returns n :
  forall fuel mn jt w buff len len2 res,
  s64 (jt - s64 (jiffies w)) < Z.of_nat n -> (n < fuel)%nat ->
  exists out, read_blocking_loop fuel mn jt w buff len len2 res = Some out.
Proof.
  induction n as [| n IH]; intros fuel mn jt w buff len len2 res Hd Hfuel;
    (destruct fuel as [| fuel]; [lia |]); cbn [read_blocking_loop].
  - destruct (Z.ltb_spec (s64 (jt - s64 (jiffies w))) 0); [eauto | lia].
  - destruct (Z.ltb_spec (s64 (jt - s64 (jiffies w))) 0) as [| Hpos];
      [eauto |].
    set (d := s64 (jt - s64 (jiffies w))) in *.
    set (o := get_object w mn).
    destruct (if s32 (off_write o - off_read o) <=? 0 then _ else _)
      as [ret w1] eqn:Hwait.
    assert (Hclock : jiffies w1 = jiffies w \/ jiffies w1 = jiffies w + d).
    { destruct (s32 (off_write o - off_read o) <=? 0).
      - pose proof (wait_event_timeout_counters (read_condition mn)
                      (u64 d) w) as Hc.
        rewrite Hwait in Hc. cbn [snd] in Hc.
        destruct Hc as (_ & _ & _ & [Hj | [_ Hj]] & _); [left; exact Hj |].
        right. rewrite Hj. f_equal. apply u64_small.
        unfold d, s64. change (2 ^ 63) with 9223372036854775808.
        change (2 ^ 64) with 18446744073709551616.
        unfold d, s64 in Hpos.
        change (2 ^ 63) with 9223372036854775808 in Hpos.
        change (2 ^ 64) with 18446744073709551616 in Hpos.
        Z.div_mod_to_equations. lia.
      - injection Hwait as <- <-. left. reflexivity. }
    assert (Hnext : forall w2, jiffies w2 = jiffies w1 ->
              s64 (jt - s64 (jiffies (next_turn w2))) < Z.of_nat n).
    { intros w2 Hw2. cbn [next_turn jiffies set_jiffies]. rewrite Hw2.
      destruct Hclock as [-> | ->].
      - rewrite s64_shift by (fold d; lia). fold d. lia.
      - rewrite <- Z.add_assoc. rewrite s64_shift by (fold d; lia).
        fold d. lia. }
    destruct (s32 ret =? 0); [eauto |].
    unfold spin_trylock.
    destruct (operation_synchronizer (get_object w1 mn)).
    { apply IH; [apply Hnext; reflexivity | lia]. }
    destruct (s32 _ =? 0).
    { apply IH; [apply Hnext; reflexivity | lia]. }
    destruct (read_chunk _ _ _ _ _) as [[[[o2 b2] l2] l22] r2].
    destruct (u64 r2 =? l2); [eauto |].
    apply IH; [apply Hnext; reflexivity | lia].
Qed.

Lemma numReaders_inc_dec (l : list Z) (mn : nat) :
  0 <= l !!! mn < 4294967296 ->
  <[mn := u32 (<[mn := u32 (l !!! mn + 1)]> l !!! mn - 1)]>
    (<[mn := u32 (l !!! mn + 1)]> l) = l.
Proof.
  intros H. destruct (decide (mn < length l)%nat) as [Hlt | Hge].
  - rewrite list_lookup_total_insert_eq by exact Hlt.
    rewrite list_insert_insert_eq, u32_inc_dec by exact H.
    apply list_insert_id, list_lookup_lookup_total_lt, Hlt.
  - rewrite !list_insert_ge; [reflexivity | lia | rewrite list_insert_ge; lia ].
Qed.

Lemma exit_read_numReaders mn result buff w r buff' w' :
  exit_read mn result buff w = (r, buff', w') ->
  numReaders w'
  = <[mn := u32 (numReaders w !!! mn - 1)]> (numReaders w).
Proof.
  unfold exit_read. intros H. injection H as <- <- <-.
  destruct (0 <? result); reflexivity.
Qed.

(** dev_read is its body between the increment and the decrement. *)
Lemma dev_read_unfold (msecs_to_jiffies : Z -> Z) w filp buff len fuel :
  dev_read msecs_to_jiffies w filp buff len fuel
  = match dev_read_body msecs_to_jiffies
            (atomic_inc_numReaders (get_minor filp) w) filp buff len fuel
    with
    | Some (inside, buff', result) =>
        Some (exit_read (get_minor filp) result buff' inside)
    | None => None
    end.
Proof.
  unfold dev_read, dev_read_body.
  destruct (blocking _).
  - destruct (read_blocking_loop _ _ _ _ _ _ _ _) as [[[w2 b2] r2] |];
      reflexivity.
  - destruct (spin_trylock _) as [[|] o]; [| reflexivity].
    destruct (s32 _ =? 0); [reflexivity |].
    destruct (read_chunk _ _ _ _ _) as [[[[o2 b2] l2] l22] r2]. reflexivity.
Qed.

(** The body of dev_read leaves the count of readers alone, and it is
    left, in the blocking mode within the turns that the time to the
    deadline allows. *)
Lemma dev_read_body_counters (msecs_to_jiffies : Z -> Z) w filp buff len fuel
    inside buff' result :
  dev_read_body msecs_to_jiffies w filp buff len fuel
  = Some (inside, buff', result) ->
  numReaders inside = numReaders w /\ enableDriver inside = enableDriver w.
Proof.
  unfold dev_read_body. destruct (blocking _).
  - intros H. apply read_blocking_loop_counters in H. tauto.
  - unfold spin_trylock. destruct (operation_synchronizer _).
    + intros H. injection H as <- _ _. auto.
    + destruct (s32 _ =? 0).
      * intros H. injection H as <- _ _. auto.
      * destruct (read_chunk _ _ _ _ _) as [[[[o2 b2] l2] l22] r2].
        intros H. injection H as <- _ _. auto.
Qed.

Lemma dev_read_body_returns (msecs_to_jiffies : Z -> Z) w filp buff len :
  exists turns, forall fuel, (turns <= fuel)%nat ->
    exists out, dev_read_body msecs_to_jiffies w filp buff len fuel = Some out.
Proof.
  unfold dev_read_body. set (mn := get_minor filp). set (o := get_object w mn).
  destruct (blocking o).
  - set (d := s64 (deadline msecs_to_jiffies w o - s64 (jiffies w))).
    exists (S (Z.to_nat (Z.max 0 (d + 1)))). intros fuel Hfuel.
    apply (read_blocking_loop_returns (Z.to_nat (Z.max 0 (d + 1))));
      [fold d; lia | lia].
  - exists O. intros fuel _. unfold spin_trylock.
    destruct (operation_synchronizer o); [eauto |].
    destruct (s32 _ =? 0); [eauto |].
    destruct (read_chunk _ _ _ _ _) as [[[[o2 b2] l2] l22] r2]. eauto.
Qed.



(** ** dev_write: the low-priority reservation *)

Lemma delayed_work_numBytes the_work w :
  numBytes (delayed_work the_work w) = numBytes w.
Proof.
  unfold delayed_work.
  destruct (_ >=? _); cbn zeta; destruct (0 <? _); reflexivity.
Qed.


Lemma low_reserve_spec mn len result w r w1 sched :
  (mn < length (objects w))%nat -> (mn < length (numBytes w))%nat ->
  low_reserve mn len result (set_lock true (get_object w mn)) w
  = (r, w1, sched) ->
  if sched then r = s32 (len - result) /\ reserved mn w r w1
  else workqueue w1 = workqueue w.
Proof.
  intros Ho Hb. unfold low_reserve.
  destruct (file_is_full w mn len); intros H; injection H as <- <- <-.
  - reflexivity.
  - split; [reflexivity |]. unfold reserved, atomic_add_numBytes.
    split; [reflexivity |]. split.
    + unfold get_numBytes, set_object, set_numBytes. simpl.
      apply list_lookup_total_insert_eq. exact Hb.
    + rewrite get_set_object by (simpl; rewrite length_insert; exact Ho).
      assert (Hobj : forall v o,
                get_object (set_numBytes mn v (set_object mn o w)) mn = o).
      { intros v o. unfold get_object, set_numBytes, set_object. simpl.
        apply list_lookup_total_insert_eq. exact Ho. }
      rewrite Hobj. auto.
Qed.

Lemma low_blocking_loop_spec fuel mn jt len result w r w1 sched :
  (mn < length (objects w))%nat -> (mn < length (numBytes w))%nat ->
  low_blocking_loop fuel mn jt len result w = Some (r, w1, sched) ->
  if sched then r = s32 (len - result) /\ reserved mn w r w1
  else workqueue w1 = workqueue w.
Proof.
  revert w. induction fuel as [| fuel IH]; intros w Ho Hb; [discriminate |].
  cbn [low_blocking_loop]. destruct (_ <? 0).
  { intros H. injection H as <- <- <-. reflexivity. }
  unfold spin_trylock. destruct (operation_synchronizer _).
  { intros H. exact (IH (next_turn w) Ho Hb H). }
  intros H. apply (inj Some) in H. eapply low_reserve_spec; eassumption.
Qed.

Lemma app_singleton_ne {A} (l : list A) (x : A) : l ++ [x] <> l.
Proof.
  intros H. apply (f_equal length) in H. rewrite length_app in H.
  simpl in H. lia.
Qed.

Lemma low_reserve_queue mn len result o w r w1 sched :
  low_reserve mn len result o w = (r, w1, sched) ->
  workqueue w1 = workqueue w.
Proof.
  unfold low_reserve. destruct (file_is_full w mn len);
    intros H; injection H as _ <- _; reflexivity.
Qed.

Lemma low_blocking_loop_queue fuel mn jt len result w r w1 sched :
  low_blocking_loop fuel mn jt len result w = Some (r, w1, sched) ->
  workqueue w1 = workqueue w.
Proof.
  revert w. induction fuel as [| fuel IH]; intros w; [discriminate |].
  cbn [low_blocking_loop]. destruct (_ <? 0).
  { intros H. injection H as _ <- _. reflexivity. }
  unfold spin_trylock. destruct (operation_synchronizer _).
  { intros H. exact (IH (next_turn w) H). }
  intros H. apply (inj Some) in H. eapply low_reserve_queue. exact H.
Qed.

(** The work item that a low-priority write schedules holds the bytes
    taken from the caller, then zero bytes, and their number. *)
Lemma low_write_task_shape (msecs_to_jiffies : Z -> Z) w filp buff len
    kzalloc_ok fuel r w' the_task :
  priority (get_object w (get_minor filp)) = false ->
  0 <= len <= MAX_RW_COUNT ->
  dev_write msecs_to_jiffies w filp buff len kzalloc_ok fuel = Some (r, w') ->
  workqueue w' = workqueue w ++ [the_task] ->
  let payload := take (Z.to_nat len) buff in
  minor the_task = get_minor filp /\
  copiedBytes the_task = Z.of_nat (length payload) /\
  exists rest, buffer the_task = payload ++ x00 :: rest.
Proof.
  intros Hlow Hlen H Hq payload.
  unfold MAX_RW_COUNT in Hlen. change (2 ^ 31 - 4096) with 2147479552 in Hlen.
  unfold dev_write in H. rewrite Hlow in H.
  destruct kzalloc_ok; cbn [negb] in H.
  2:{ injection H as _ <-. symmetry in Hq. apply app_singleton_ne in Hq.
      contradiction. }
  unfold copy_from_user in H. cbv zeta in H.
  match type of H with
  | match ?out with _ => _ end = _ =>
      destruct out as [[[r1 w1] sched] |] eqn:Hout
  end; [| discriminate].
  assert (Hw1 : workqueue w1 = workqueue w).
  { destruct (blocking _).
    - eapply low_blocking_loop_queue. exact Hout.
    - unfold spin_trylock in Hout. destruct (operation_synchronizer _).
      + injection Hout as _ <- _. reflexivity.
      + apply (inj Some) in Hout. eapply low_reserve_queue. exact Hout. }
  destruct sched; injection H as _ <-.
  2:{ rewrite Hw1 in Hq. symmetry in Hq. apply app_singleton_ne in Hq.
      contradiction. }
  unfold schedule_work in Hq. cbn [workqueue set_workqueue] in Hq.
  rewrite Hw1 in Hq. apply app_inv_head in Hq. injection Hq as <-.
  cbn [minor copiedBytes buffer].
  assert (Htake : take (Z.to_nat (Z.min len (Z.of_nat (length buff)))) buff
                  = payload).
  { unfold payload. destruct (Z.le_gt_cases len (Z.of_nat (length buff))).
    - rewrite Z.min_l by lia. reflexivity.
    - rewrite Z.min_r by lia. rewrite Nat2Z.id.
      rewrite !take_ge by lia. reflexivity. }
  rewrite Htake.
  assert (Hlenp : Z.of_nat (length payload)
                  = Z.min len (Z.of_nat (length buff))).
  { unfold payload. rewrite length_take. lia. }
  split; [reflexivity |]. split.
  - rewrite Hlenp.
    rewrite (s32_small (len - Z.min len (Z.of_nat (length buff)))) by lia.
    rewrite s32_small by lia. lia.
  - exists (replicate (Z.to_nat (len - Z.min len (Z.of_nat (length buff))))
              x00).
    rewrite <- app_assoc. f_equal. symmetry. apply replicate_cons_app.
Qed.

(** C3.  A low-priority write of len bytes (at most MAX_RW_COUNT, as the
    kernel hands them in) that succeeds, that is, one that schedules its
    work item, returns the number of bytes it reserved: the bytes taken
    from the caller, which are the first len bytes of the caller's
    buffer, or all of its readable bytes when there are fewer than len;
    the work item holds exactly these bytes and their count in
    copiedBytes.  The write has already added that number to numBytes of
    its minor, while the page and the write cursor are still as before
    the call: the copy into the ring has not happened yet.  Such a write
    does succeed, with that return value, when the allocation works, the
    lock is free, the file is not full and the deadline has not passed.
    delayed_work, which later copies the bytes, leaves numBytes of every
    minor as it finds it. *)
Theorem low_write_reservation (msecs_to_jiffies : Z -> Z) (w : driver)
    (filp : file) (buff : list byte) (len : Z) (kzalloc_ok : bool)
    (fuel : nat) :
  let mn := get_minor filp in
  let o := get_object w mn in
  let payload := take (Z.to_nat len) buff in
  priority o = false ->
  (mn < length (objects w))%nat -> (mn < length (numBytes w))%nat ->
  0 <= len <= MAX_RW_COUNT ->
  (forall r w',
     dev_write msecs_to_jiffies w filp buff len kzalloc_ok fuel
     = Some (r, w') ->
     workqueue w' <> workqueue w ->
     r = Z.min len (Z.of_nat (length buff)) /\
     r = Z.of_nat (length payload) /\
     exists the_task rest,
       workqueue w' = workqueue w ++ [the_task] /\
       minor the_task = mn /\
       r = copiedBytes the_task /\
       buffer the_task = payload ++ x00 :: rest /\
       get_numBytes w' mn = u32 (get_numBytes w mn + r) /\
       stream_content (get_object w' mn) = stream_content o /\
       off_write (get_object w' mn) = off_write o /\
       off_read (get_object w' mn) = off_read o) /\
  (kzalloc_ok = true -> operation_synchronizer o = false ->
   file_is_full w mn len = false -> fuel <> O ->
   0 <= s64 (deadline msecs_to_jiffies w o - s64 (jiffies w)) ->
   exists w',
     dev_write msecs_to_jiffies w filp buff len kzalloc_ok fuel
     = Some (Z.min len (Z.of_nat (length buff)), w') /\
     workqueue w' <> workqueue w) /\
  (forall the_work w0, numBytes (delayed_work the_work w0) = numBytes w0).
Proof.
  intros mn o payload Hlow Ho Hb Hlen.
  assert (Hpay : Z.of_nat (length payload) = Z.min len (Z.of_nat (length buff))).
  { unfold payload. rewrite length_take. lia. }
  assert (Hfirst : forall r w',
     dev_write msecs_to_jiffies w filp buff len kzalloc_ok fuel
     = Some (r, w') ->
     workqueue w' <> workqueue w ->
     exists the_task,
       workqueue w' = workqueue w ++ [the_task] /\
       r = copiedBytes the_task /\
       get_numBytes w' mn = u32 (get_numBytes w mn + r) /\
       stream_content (get_object w' mn) = stream_content o /\
       off_write (get_object w' mn) = off_write o /\
       off_read (get_object w' mn) = off_read o).
  { intros r w' H Hq. unfold dev_write in H. fold mn in H. fold o in H.
    rewrite Hlow in H. destruct kzalloc_ok; cbn [negb] in H.
    2:{ injection H as <- <-. contradiction. }
    destruct (copy_from_user buff len) as [data uncopied].
    match type of H with
    | match ?out with _ => _ end = _ =>
        destruct out as [[[r1 w1] sched] |] eqn:Hout
    end; [| discriminate].
    assert (Hspec : if sched then r1 = s32 (len - s32 uncopied)
                                  /\ reserved mn w r1 w1
                    else workqueue w1 = workqueue w).
    { destruct (blocking o).
      - eapply low_blocking_loop_spec; eassumption.
      - unfold spin_trylock in Hout.
        destruct (operation_synchronizer o) eqn:Hl.
        + injection Hout as <- <- <-. reflexivity.
        + apply (inj Some) in Hout. eapply low_reserve_spec; eassumption. }
    destruct sched; injection H as <- <-.
    2:{ contradiction. }
    destruct Hspec as (-> & Hq1 & Hn & Hs & Hw & Hr).
    eexists. split; [unfold schedule_work; simpl; rewrite Hq1; reflexivity |].
    simpl. repeat split; assumption. }
  split; [| split].
  - intros r w' H Hq.
    destruct (Hfirst r w' H Hq) as (the_task & Hq1 & Hr & Hrest).
    destruct (low_write_task_shape msecs_to_jiffies w filp buff len
                kzalloc_ok fuel r w' the_task Hlow Hlen H Hq1)
      as (Hm & Hc & rest & Hbuf).
    fold payload in Hc, Hbuf.
    assert (Hrp : r = Z.of_nat (length payload)) by congruence.
    split; [rewrite <- Hpay; exact Hrp |]. split; [exact Hrp |].
    exists the_task, rest. split; [exact Hq1 |]. split; [exact Hm |].
    split; [exact Hr |]. split; [exact Hbuf |]. exact Hrest.
  - intros Hk Hl Hfull Hfuel Ht.
    assert (Hret : exists r w',
              dev_write msecs_to_jiffies w filp buff len kzalloc_ok fuel
              = Some (r, w') /\ workqueue w' <> workqueue w).
    { subst kzalloc_ok. unfold dev_write. fold mn. fold o.
      rewrite Hlow. cbn [negb].
      destruct (copy_from_user buff len) as [data uncopied].
      destruct (blocking o).
      + destruct fuel as [| fuel]; [contradiction |].
        cbn [low_blocking_loop].
        destruct (Z.ltb_spec
                    (s64 (deadline msecs_to_jiffies w o - s64 (jiffies w))) 0);
          [lia |].
        unfold spin_trylock. fold o. rewrite Hl. unfold low_reserve.
        rewrite Hfull.
        eexists _, _. split; [reflexivity |]. apply app_singleton_ne.
      + unfold spin_trylock. rewrite Hl. unfold low_reserve. rewrite Hfull.
        eexists _, _. split; [reflexivity |]. apply app_singleton_ne. }
    destruct Hret as (r & w' & H & Hq). exists w'. split; [| exact Hq].
    destruct (Hfirst r w' H Hq) as (the_task & Hq1 & Hr & _).
    destruct (low_write_task_shape msecs_to_jiffies w filp buff len
                kzalloc_ok fuel r w' the_task Hlow Hlen H Hq1)
      as (_ & Hc & _).
    fold payload in Hc. rewrite H. do 2 f_equal. congruence.
  - apply delayed_work_numBytes.
Qed.

Lemma low_write_reservation_witness :
  priority (get_object boot_low (get_minor session0)) = false /\
  (get_minor session0 < length (objects boot_low))%nat /\
  (get_minor session0 < length (numBytes boot_low))%nat /\
  0 <= 4 <= MAX_RW_COUNT /\
  exists w',
    dev_write msecs_to_jiffies_250 boot_low session0 ciao 4 true 1
    = Some (4, w') /\
    workqueue w' <> workqueue boot_low.
Proof.
  assert (H1 : priority (get_object boot_low (get_minor session0)) = false)
    by reflexivity.
  assert (H2 : (get_minor session0 < length (objects boot_low))%nat)
    by (vm_compute; lia).
  assert (H3 : (get_minor session0 < length (numBytes boot_low))%nat)
    by (vm_compute; lia).
  assert (H4 : 0 <= 4 <= MAX_RW_COUNT) by (vm_compute; split; discriminate).
  split; [exact H1 |]. split; [exact H2 |]. split; [exact H3 |].
  split; [exact H4 |].
  apply (low_write_reservation msecs_to_jiffies_250 boot_low session0
           ciao 4 true 1 H1 H2 H3 H4).
  - reflexivity.
  - reflexivity.
  - reflexivity.
  - discriminate.
  - vm_compute. discriminate.
Defined.

(** ** dev_write: the copy into the page and the full test *)


Lemma write_chunk_spec o buff len o' r :
  0 <= off_write o <= OBJECT_MAX_SIZE -> 0 <= len <= OBJECT_MAX_SIZE ->
  write_chunk o buff len = (o', r) ->
  r = Z.min len (Z.of_nat (length buff)) /\
  0 <= off_write o' <= OBJECT_MAX_SIZE /\
  (off_write o' = off_write o + r \/
   off_write o' = off_write o + r - OBJECT_MAX_SIZE) /\
  off_read o' = off_read o /\ same_settings o o'.
Proof.
  unfold OBJECT_MAX_SIZE, same_settings. intros Hw Hlen H.
  unfold write_chunk, OBJECT_MAX_SIZE in H.
  rewrite (u64_small (4096 - off_write o)) in H by lia.
  destruct (Z.ltb_spec (4096 - off_write o) len) as [Hsplit | Hfit].
  - (* the write wraps *)
    unfold copy_from_user at 1 in H. cbn zeta in H.
    remember (Z.min (4096 - off_write o) (Z.of_nat (length buff))) as k1 eqn:Hk1.
    rewrite (s32_small (4096 - off_write o - k1)) in H by lia.
    rewrite (s32_small (len + off_write o - 4096)) in H by lia.
    replace (0 + (4096 - off_write o - (4096 - off_write o - k1))) with k1
      in H by lia.
    rewrite (s32_small k1) in H by lia.
    rewrite (u64_small k1) in H by lia.
    destruct (Z.ltb_spec 0 (len + off_write o - 4096)) as [_ | Hc]; [| lia].
    destruct (Z.eqb_spec k1 (4096 - off_write o)) as [Hfull | Hpart].
    + cbn [andb] in H. unfold copy_from_user in H. cbn zeta in H.
      rewrite (u64_small (len + off_write o - 4096)) in H by lia.
      rewrite length_drop in H.
      remember (Z.min (len + off_write o - 4096)
                  (Z.of_nat (length buff - Z.to_nat k1))) as k2 eqn:Hk2.
      rewrite (s32_small (len + off_write o - 4096 - k2)) in H by lia.
      proj_simpl in H.
      rewrite (s32_small (0 + _)) in H by lia.
      rewrite (s32_small (k1 + _)) in H by lia.
      injection H as <- <-. proj_simpl.
      repeat split; try reflexivity; lia.
    + cbn [andb] in H. proj_simpl in H.
      rewrite (s32_small (off_write o + _)) in H by lia.
      injection H as <- <-. proj_simpl.
      repeat split; try reflexivity; lia.
  - unfold copy_from_user in H. cbn zeta in H.
    remember (Z.min len (Z.of_nat (length buff))) as k eqn:Hk.
    rewrite (s32_small (len - k)) in H by lia.
    replace (0 + (len - (len - k))) with k in H by lia.
    rewrite (s32_small k) in H by lia.
    cbn [Z.ltb Z.compare andb] in H. proj_simpl in H.
    rewrite (s32_small (off_write o + _)) in H by lia.
    injection H as <- <-. proj_simpl.
    repeat split; try reflexivity; lia.
Qed.

Lemma file_is_full_spec w mn len :
  0 <= get_numBytes w mn < 4294967296 -> 0 <= len <= MAX_RW_COUNT ->
  file_is_full w mn len = true <-> OBJECT_MAX_SIZE <= get_numBytes w mn + len.
Proof.
  unfold file_is_full, MAX_RW_COUNT, OBJECT_MAX_SIZE.
  change (2 ^ 31 - 4096) with 2147479552. intros Hn Hlen.
  rewrite u64_small by lia. rewrite Z.geb_leb. apply Z.leb_le.
Qed.

Lemma copy_from_user_whole buff len :
  0 <= len <= Z.of_nat (length buff) ->
  copy_from_user buff len = (take (Z.to_nat len) buff, 0).
Proof.
  intros H. unfold copy_from_user. rewrite Z.min_l by lia.
  replace (len - len) with 0 by lia. cbn [Z.to_nat replicate].
  rewrite app_nil_r. reflexivity.
Qed.

(** C5, as the code has it.  A non-blocking write of [len] bytes (at least
    one, all readable, the lock free) returns; on a low-priority flow
    whose work item cannot be allocated it returns -1 and changes
    nothing, whether or not the file is full.  Otherwise, that is, on a
    high-priority flow or when the work item could be allocated, it
    returns 0 exactly when numBytes + len >= OBJECT_MAX_SIZE; in
    particular a write that would fill the page exactly
    (numBytes + len = 4096) is refused with 0, so the page never holds
    more than 4095 bytes.  With numBytes + len < 4096 the write goes
    through, returns [len] and raises numBytes by [len]. *)
Theorem nonblocking_write_full (msecs_to_jiffies : Z -> Z) (w : driver)
    (filp : file) (buff : list byte) (len : Z) (kzalloc_ok : bool)
    (fuel : nat) :
  let mn := get_minor filp in
  let o := get_object w mn in
  blocking o = false -> operation_synchronizer o = false ->
  (mn < length (objects w))%nat -> (mn < length (numBytes w))%nat ->
  0 <= get_numBytes w mn < 4294967296 ->
  0 <= off_write o <= OBJECT_MAX_SIZE ->
  0 < len <= MAX_RW_COUNT -> len <= Z.of_nat (length buff) ->
  exists r w',
    dev_write msecs_to_jiffies w filp buff len kzalloc_ok fuel
    = Some (r, w') /\
    (priority o = false -> kzalloc_ok = false -> r = -1 /\ w' = w) /\
    (priority o = true \/ kzalloc_ok = true ->
     (r = 0 <-> OBJECT_MAX_SIZE <= get_numBytes w mn + len) /\
     (get_numBytes w mn + len = OBJECT_MAX_SIZE -> r = 0) /\
     (get_numBytes w mn + len < OBJECT_MAX_SIZE ->
      r = len /\ get_numBytes w' mn = get_numBytes w mn + len)).
Proof.
  intros mn o Hnb Hfree Ho Hb Hn Hoff Hlen Hbuff.
  pose proof (file_is_full_spec w mn len Hn ltac:(lia)) as Hfull.
  assert (Hadd : forall o1,
            get_numBytes w mn + len < OBJECT_MAX_SIZE ->
            get_numBytes (atomic_add_numBytes len mn (set_object mn o1 w)) mn
            = get_numBytes w mn + len).
  { intros o1 Hroom. unfold atomic_add_numBytes.
    rewrite get_set_numBytes by exact Hb.
    change (get_numBytes (set_object mn o1 w) mn) with (get_numBytes w mn).
    apply u32_small. unfold OBJECT_MAX_SIZE in Hroom. lia. }
  unfold dev_write. fold mn. fold o. rewrite Hnb. unfold spin_trylock.
  rewrite Hfree. destruct (priority o).
  - (* HIGH PRIORITY *)
    destruct (file_is_full w mn len) eqn:Hf.
    + pose proof (proj1 Hfull eq_refl) as Hge.
      eexists _, _. split; [reflexivity |].
      split; [intros; congruence |]. intros _.
      repeat split; intros; try reflexivity; try lia.
    + assert (Hroom : get_numBytes w mn + len < OBJECT_MAX_SIZE).
      { destruct (Z.le_gt_cases OBJECT_MAX_SIZE (get_numBytes w mn + len))
          as [Hge | Hlt]; [| exact Hlt].
        apply Hfull in Hge. discriminate Hge. }
      destruct (write_chunk (set_lock true o) buff len) as [o1 r] eqn:Hc.
      apply write_chunk_spec in Hc; [| exact Hoff | lia].
      destruct Hc as (Hr & _). rewrite Z.min_l in Hr by lia. subst r.
      unfold exit_write.
      destruct (Z.ltb_spec 0 len) as [_ | Hc]; [| lia].
      eexists _, _. split; [reflexivity |].
      split; [intros; congruence |]. intros _.
      split; [split; intros; lia |]. split; [intros; lia |].
      intros _. split; [reflexivity |].
      change (get_numBytes (set_object ?a ?b ?c) ?d) with (get_numBytes c d).
      apply Hadd. exact Hroom.
  - (* LOW PRIORITY *)
    destruct kzalloc_ok; cbn [negb].
    2:{ (* the work item is not allocated *)
        eexists _, _. split; [reflexivity |].
        split; [intros; split; reflexivity |].
        intros [H | H]; discriminate H. }
    rewrite copy_from_user_whole by lia.
    change (s32 0) with 0. unfold MAX_RW_COUNT in Hlen.
    change (2 ^ 31 - 4096) with 2147479552 in Hlen.
    unfold low_reserve.
    destruct (file_is_full w mn len) eqn:Hf.
    + pose proof (proj1 Hfull eq_refl) as Hge.
      eexists _, _. split; [reflexivity |].
      split; [intros; congruence |]. intros _.
      repeat split; intros; try reflexivity; try lia.
    + assert (Hroom : get_numBytes w mn + len < OBJECT_MAX_SIZE).
      { destruct (Z.le_gt_cases OBJECT_MAX_SIZE (get_numBytes w mn + len))
          as [Hge | Hlt]; [| exact Hlt].
        apply Hfull in Hge. discriminate Hge. }
      replace (len - 0) with len by lia. rewrite (s32_small len) by lia.
      eexists _, _. split; [reflexivity |].
      split; [intros; congruence |]. intros _.
      split; [split; intros; lia |]. split; [intros; lia |].
      intros _. split; [reflexivity |].
      unfold schedule_work.
      change (get_numBytes (set_workqueue ?q ?c) ?d) with (get_numBytes c d).
      change (get_numBytes (set_object ?a ?b ?c) ?d) with (get_numBytes c d).
      apply Hadd. exact Hroom.
Qed.

(** C5 as the specification words it fails: on the fresh module set to
    non-blocking, a write of 4096 bytes into the empty flow returns 0
    although numBytes + len does not exceed the capacity. *)
Lemma nonblocking_write_exact_fit_refused :
  dev_write msecs_to_jiffies_250 boot_nonblocking session0
            (replicate 4096 x41) 4096 true 1
  = Some (0, boot_nonblocking) /\
  ~ (get_numBytes boot_nonblocking (get_minor session0) + 4096
     > OBJECT_MAX_SIZE).
Proof.
  split; [vm_compute; reflexivity | vm_compute; discriminate].
Qed.

Lemma nonblocking_write_full_witness :
  blocking (get_object boot_nonblocking (get_minor session0)) = false /\
  operation_synchronizer (get_object boot_nonblocking (get_minor session0))
  = false /\
  0 < 4 <= MAX_RW_COUNT /\ 4 <= Z.of_nat (length ciao) /\
  exists r w',
    dev_write msecs_to_jiffies_250 boot_nonblocking session0 ciao 4 true 1
    = Some (r, w') /\
    (r = 0 <->
     OBJECT_MAX_SIZE
     <= get_numBytes boot_nonblocking (get_minor session0) + 4) /\
    (get_numBytes boot_nonblocking (get_minor session0) + 4
     = OBJECT_MAX_SIZE -> r = 0) /\
    (get_numBytes boot_nonblocking (get_minor session0) + 4
     < OBJECT_MAX_SIZE ->
     r = 4 /\
     get_numBytes w' (get_minor session0)
     = get_numBytes boot_nonblocking (get_minor session0) + 4).
Proof.
  assert (H1 : blocking (get_object boot_nonblocking (get_minor session0))
               = false) by reflexivity.
  assert (H2 : operation_synchronizer
                 (get_object boot_nonblocking (get_minor session0)) = false)
    by reflexivity.
  assert (H3 : (get_minor session0 < length (objects boot_nonblocking))%nat)
    by (vm_compute; lia).
  assert (H4 : (get_minor session0 < length (numBytes boot_nonblocking))%nat)
    by (vm_compute; lia).
  assert (H5 : 0 <= get_numBytes boot_nonblocking (get_minor session0)
               < 4294967296)
    by (vm_compute; split; [discriminate | reflexivity]).
  assert (H6 : 0 <= off_write (get_object boot_nonblocking
                                 (get_minor session0)) <= OBJECT_MAX_SIZE)
    by (vm_compute; split; discriminate).
  assert (H7 : 0 < 4 <= MAX_RW_COUNT)
    by (vm_compute; split; [reflexivity | discriminate]).
  assert (H8 : 4 <= Z.of_nat (length ciao)) by (vm_compute; discriminate).
  split; [exact H1 |]. split; [exact H2 |]. split; [exact H7 |].
  split; [exact H8 |].
  destruct (nonblocking_write_full msecs_to_jiffies_250 boot_nonblocking
              session0 ciao 4 true 1 H1 H2 H3 H4 H5 H6 H7 H8)
    as (r & w' & Hw & _ & Hr).
  exists r, w'. split; [exact Hw |]. exact (Hr (or_intror eq_refl)).
Defined.

(** ** Executions that leave the specified behaviour *)

(** C2 on the code: with 4 bytes in the flow, a read of 8 bytes returns 8,
    more than min(8, 4); numBytes falls below zero and wraps, and the read
    cursor passes the write cursor.  Both the blocking and the
    non-blocking read do so. *)
Lemma read_beyond_bytes_present :
  counters boot_ciao = (4, 0, 0, 4) /\
  read_outcome
    (dev_read msecs_to_jiffies_250 boot_ciao session0 (replicate 8 x00) 8 1)
  = Some (8, ciao ++ replicate 4 x00, (4294967292, 0, 8, 4)) /\
  counters boot_nonblocking_ciao = (4, 0, 0, 4) /\
  read_outcome
    (dev_read msecs_to_jiffies_250 boot_nonblocking_ciao session0
              (replicate 8 x00) 8 1)
  = Some (8, ciao ++ replicate 4 x00, (4294967292, 0, 8, 4)).
Proof.
  split; [reflexivity |]. split; [reflexivity |].
  split; reflexivity.
Qed.

(** C1 on the code: on an instance with high priority and blocking mode
    whose empty flow has its cursors at 4094, the write of "ciao" wraps
    (write cursor 2, below the read cursor); the blocking read that
    follows takes the flow for empty, sleeps for the whole timeout and
    returns 0 bytes, the four bytes staying in the page. *)
Lemma blocking_read_after_wrapped_write :
  counters boot_at_4094 = (0, 0, 4094, 4094) /\
  priority (get_object boot_at_4094 0) = true /\
  blocking (get_object boot_at_4094 0) = true /\
  write_outcome
    (dev_write msecs_to_jiffies_250 boot_at_4094 session0 ciao 4 true 1)
  = Some (4, (4, 0, 4094, 2)) /\
  read_outcome
    (dev_read msecs_to_jiffies_250 (after_write boot_at_4094 ciao) session0
              (replicate 4 x00) 4 1)
  = Some (0, replicate 4 x00, (4, 0, 4094, 2)) /\
  jiffies (after_write boot_at_4094 ciao) = 1000 /\
  jiffies (after_read (after_write boot_at_4094 ciao) 4) = 1050.
Proof.
  split; [reflexivity |]. split; [reflexivity |]. split; [reflexivity |].
  split; [reflexivity |]. split; [reflexivity |]. split; reflexivity.
Qed.

(** C4 on the code: a minor has one byte counter and one reader counter,
    whatever the priority.  "ciao" written with high priority raises
    numBytes[0] to 4; with low priority selected, a second write raises
    the same counter to 8, and a read returns the bytes that were written
    with high priority, lowering the same counter. *)
Lemma one_counter_for_both_priorities :
  counters boot_nonblocking_ciao = (4, 0, 0, 4) /\
  priority (get_object boot_nonblocking_ciao 0) = true /\
  priority (get_object ciao_then_low 0) = false /\
  write_outcome
    (dev_write msecs_to_jiffies_250 ciao_then_low session0 ciao 4 true 1)
  = Some (4, (8, 0, 0, 4)) /\
  read_outcome
    (dev_read msecs_to_jiffies_250 ciao_then_low session0
              (replicate 4 x00) 4 1)
  = Some (4, ciao, (0, 0, 4, 4)).
Proof.
  split; [reflexivity |]. split; [reflexivity |]. split; [reflexivity |].
  split; reflexivity.
Qed.

(** ** delayed_work: what reaches the page *)

Lemma store_outside data : forall mem dst a,
  a < dst \/ dst + Z.of_nat (length data) <= a ->
  store mem dst data a = mem a.
Proof.
  induction data as [| b rest IH]; intros mem dst a H; simpl; [reflexivity |].
  rewrite IH by (simpl in H; lia).
  destruct (Z.eqb_spec a dst) as [Heq | Hne]; [simpl in H; lia | reflexivity].
Qed.

Lemma load_store data : forall mem dst,
  load (store mem dst data) dst (length data) = data.
Proof.
  induction data as [| b rest IH]; intros mem dst; simpl; [reflexivity |].
  f_equal; [| apply IH].
  rewrite store_outside by lia. rewrite Z.eqb_refl. reflexivity.
Qed.

Lemma load_ext n : forall mem mem' src,
  (forall a, src <= a < src + Z.of_nat n -> mem a = mem' a) ->
  load mem src n = load mem' src n.
Proof.
  induction n as [| n IH]; intros mem mem' src H; simpl; [reflexivity |].
  f_equal; [apply H; lia | apply IH; intros a Ha; apply H; lia].
Qed.

Lemma cstring_app_nul p rest : cstring (p ++ x00 :: rest) = cstring p.
Proof.
  induction p as [| b p IH]; simpl; [reflexivity |].
  destruct (is_nul b); [reflexivity | f_equal; exact IH].
Qed.

Lemma cstring_length p : (length (cstring p) <= length p)%nat.
Proof.
  induction p as [| b p IH]; simpl; [lia |].
  destruct (is_nul b); simpl; lia.
Qed.

Lemma delayed_work_object the_work w :
  (minor the_work < length (objects w))%nat ->
  let mn := minor the_work in
  let o := get_object w mn in
  let n := copiedBytes the_work in
  get_object (delayed_work the_work w) mn
  = if s32 (OBJECT_MAX_SIZE - off_write o) >=? n
    then set_lock false
           (set_off_write (s32 (off_write o + n))
              (set_stream_content
                 (strcpy (stream_content o) (off_write o) (buffer the_work))
                 o))
    else
      let len2 := s32 (n + off_write o - OBJECT_MAX_SIZE) in
      let len1 := s32 (OBJECT_MAX_SIZE - off_write o) in
      let mem1 := strcpy (stream_content o) (off_write o)
                    (take (Z.to_nat len1) (buffer the_work) ++ [x00]) in
      if 0 <? len2
      then set_lock false
             (set_off_write (s32 (0 + len2))
                (set_stream_content
                   (strcpy mem1 0
                      (take (Z.to_nat len2)
                         (drop (Z.to_nat len1) (buffer the_work)) ++ [x00]))
                   o))
      else set_lock false
             (set_off_write (s32 (off_write o + len1))
                (set_stream_content mem1 o)).
Proof.
  intros Hmn mn o n. unfold delayed_work. fold mn. fold o. fold n.
  cbn [off_write set_lock].
  destruct (s32 (OBJECT_MAX_SIZE - off_write o) >=? n).
  - cbn zeta. cbn [Z.ltb Z.compare]. rewrite get_set_object by exact Hmn.
    destruct o; reflexivity.
  - cbn zeta. destruct (0 <? s32 (n + off_write o - OBJECT_MAX_SIZE));
      rewrite get_set_object by exact Hmn; destruct o; reflexivity.
Qed.

Lemma store_last data : forall mem dst b,
  store mem dst (data ++ [b]) (dst + Z.of_nat (length data)) = b.
Proof.
  induction data as [| c rest IH]; intros mem dst b.
  - cbn [app store length Z.of_nat]. rewrite Z.add_0_r, Z.eqb_refl.
    reflexivity.
  - cbn [app store length].
    replace (dst + Z.of_nat (S (length rest)))
      with (dst + 1 + Z.of_nat (length rest)) by lia.
    apply IH.
Qed.

(** X18.  When a payload without zero byte ends exactly at the end of the page,
    the terminator of strcpy lands in the cell after the page. *)
Lemma delayed_work_terminator_past_page (w : driver) (the_work : packed_work)
    (payload rest : list byte) :
  let mn := minor the_work in
  let o := get_object w mn in
  let o' := get_object (delayed_work the_work w) mn in
  (mn < length (objects w))%nat ->
  buffer the_work = payload ++ x00 :: rest ->
  copiedBytes the_work = Z.of_nat (length payload) ->
  cstring payload = payload ->
  0 <= off_write o ->
  off_write o + Z.of_nat (length payload) = OBJECT_MAX_SIZE ->
  stream_content o' OBJECT_MAX_SIZE = x00.
Proof.
  intros mn o o' Hmn Hbuf Hn Hc Hoff Hend.
  assert (Ho' : o' = get_object (delayed_work the_work w) mn) by reflexivity.
  unfold mn in Ho'. rewrite delayed_work_object in Ho' by exact Hmn.
  fold mn in Ho'. fold o in Ho'. rewrite Hn, Hbuf in Ho'.
  unfold OBJECT_MAX_SIZE in *.
  rewrite (s32_small (4096 - off_write o)) in Ho' by lia.
  rewrite Z.geb_leb in Ho'.
  destruct (Z.leb_spec (Z.of_nat (length payload)) (4096 - off_write o))
    as [_ | Hgt]; [| lia].
  clearbody o'. subst o'. proj_simpl. unfold strcpy.
  rewrite cstring_app_nul, Hc.
  rewrite <- Hend. apply store_last.
Qed.

Lemma delayed_work_terminator_past_page_witness :
  off_write (get_object low_at_4094 0) + Z.of_nat (length ab)
  = OBJECT_MAX_SIZE /\
  stream_content (get_object (delayed_work ab_work low_at_4094) 0)
                 OBJECT_MAX_SIZE
  = x00.
Proof.
  assert (Hend : off_write (get_object low_at_4094 0)
                 + Z.of_nat (length ab) = OBJECT_MAX_SIZE)
    by reflexivity.
  split; [exact Hend |].
  apply (delayed_work_terminator_past_page low_at_4094 ab_work ab []).
  - vm_compute. lia.
  - reflexivity.
  - reflexivity.
  - reflexivity.
  - vm_compute. discriminate.
  - exact Hend.
Defined.

(** C10, as the code has it.  delayed_work copies the stored payload with
    strcpy, one call for each contiguous piece.  When the payload fits
    before the end of the page, the page receives the bytes before the
    first zero byte of the payload and a terminator, and nothing else in
    memory changes.  When it does not fit, the payload is cut at the end
    of the page into two strings, and each piece is copied up to its own
    first zero byte, with a terminator: the first at the write cursor,
    the second at the start of the page.  In both cases the write cursor
    moves on by the full reserved length (modulo the page), and numBytes,
    raised by that length when the write reserved it, is not touched. *)
Theorem delayed_work_string_copy (w : driver) (the_work : packed_work)
    (payload rest : list byte) :
  let mn := minor the_work in
  let o := get_object w mn in
  let o' := get_object (delayed_work the_work w) mn in
  let n := Z.of_nat (length payload) in
  (mn < length (objects w))%nat ->
  buffer the_work = payload ++ x00 :: rest ->
  copiedBytes the_work = n ->
  0 <= off_write o <= OBJECT_MAX_SIZE -> n < OBJECT_MAX_SIZE ->
  numBytes (delayed_work the_work w) = numBytes w /\
  (n <= OBJECT_MAX_SIZE - off_write o ->
   let c := cstring payload in
   load (stream_content o') (off_write o) (S (length c)) = c ++ [x00] /\
   (forall a,
      a < off_write o \/ off_write o + Z.of_nat (length c) < a ->
      stream_content o' a = stream_content o a) /\
   off_write o' = off_write o + n) /\
  (OBJECT_MAX_SIZE - off_write o < n ->
   let len1 := Z.to_nat (OBJECT_MAX_SIZE - off_write o) in
   let c1 := cstring (take len1 payload) in
   let c2 := cstring (drop len1 payload) in
   load (stream_content o') (off_write o) (S (length c1)) = c1 ++ [x00] /\
   load (stream_content o') 0 (S (length c2)) = c2 ++ [x00] /\
   (forall a,
      a < off_write o \/ off_write o + Z.of_nat (length c1) < a ->
      a < 0 \/ Z.of_nat (length c2) < a ->
      stream_content o' a = stream_content o a) /\
   off_write o' = off_write o + n - OBJECT_MAX_SIZE).
Proof.
  intros mn o o' n Hmn Hbuf Hn Hoff Hsmall.
  split; [apply delayed_work_numBytes |].
  assert (Ho' : o' = get_object (delayed_work the_work w) mn) by reflexivity.
  unfold mn in Ho'. rewrite delayed_work_object in Ho' by exact Hmn.
  fold mn in Ho'. fold o in Ho'. rewrite Hn, Hbuf in Ho'. cbn zeta in Ho'.
  clearbody o'. unfold OBJECT_MAX_SIZE in *.
  assert (Hlen : forall c : list byte, length (c ++ [x00]) = S (length c)).
  { intros c. rewrite length_app. simpl. lia. }
  split.
  - intros Hfit. cbv zeta. set (c := cstring payload).
    rewrite (s32_small (4096 - off_write o)) in Ho' by lia.
    rewrite Z.geb_leb in Ho'.
    destruct (Z.leb_spec n (4096 - off_write o)) as [_ | Hc]; [| lia].
    unfold strcpy in Ho'. rewrite cstring_app_nul in Ho'. fold c in Ho'.
    rewrite s32_small in Ho' by lia. subst o'. proj_simpl.
    split; [| split].
    + rewrite <- Hlen. apply load_store.
    + intros a Ha. apply store_outside. rewrite Hlen. lia.
    + reflexivity.
  - intros Hwrap. cbv zeta.
    set (len1 := Z.to_nat (4096 - off_write o)).
    set (c1 := cstring (take len1 payload)).
    set (c2 := cstring (drop len1 payload)).
    rewrite (s32_small (4096 - off_write o)) in Ho' at 1 by lia.
    rewrite Z.geb_leb in Ho'.
    destruct (Z.leb_spec n (4096 - off_write o)) as [Hc | _]; [lia |].
    rewrite (s32_small (n + off_write o - 4096)) in Ho' by lia.
    rewrite (s32_small (4096 - off_write o)) in Ho' by lia.
    destruct (Z.ltb_spec 0 (n + off_write o - 4096)) as [_ | Hc]; [| lia].
    fold len1 in Ho'.
    rewrite (take_app_le payload) in Ho' by lia.
    rewrite (drop_app_le payload) in Ho' by lia.
    rewrite (take_app_length' (drop len1 payload)) in Ho'
      by (rewrite length_drop; lia).
    unfold strcpy in Ho'.
    rewrite (cstring_app_nul (take len1 payload) []) in Ho'.
    rewrite (cstring_app_nul (drop len1 payload) []) in Ho'.
    fold c1 in Ho'. fold c2 in Ho'.
    rewrite s32_small in Ho' by lia. subst o'. proj_simpl.
    pose proof (cstring_length (take len1 payload)) as Hc1.
    pose proof (cstring_length (drop len1 payload)) as Hc2.
    fold c1 in Hc1. fold c2 in Hc2.
    rewrite length_take in Hc1. rewrite length_drop in Hc2.
    split; [| split; [| split]].
    + rewrite (load_ext _ _ (store (stream_content o) (off_write o)
                               (c1 ++ [x00]))).
      * rewrite <- Hlen. apply load_store.
      * intros a Ha. apply store_outside. rewrite Hlen. lia.
    + rewrite <- Hlen. apply load_store.
    + intros a Ha1 Ha2.
      rewrite store_outside by (rewrite Hlen; lia).
      apply store_outside. rewrite Hlen. lia.
    + lia.
Qed.

Lemma delayed_work_string_copy_witness :
  (minor ciao_work < length (objects boot_low))%nat /\
  buffer ciao_work = ciao ++ x00 :: [] /\
  copiedBytes ciao_work = Z.of_nat (length ciao) /\
  load (stream_content (get_object (delayed_work ciao_work boot_low) 0))
       0 5
  = ciao ++ [x00].
Proof.
  assert (H1 : (minor ciao_work < length (objects boot_low))%nat)
    by (vm_compute; lia).
  assert (H2 : buffer ciao_work = ciao ++ x00 :: []) by reflexivity.
  assert (H3 : copiedBytes ciao_work = Z.of_nat (length ciao))
    by reflexivity.
  assert (H4 : 0 <= off_write (get_object boot_low (minor ciao_work))
               <= OBJECT_MAX_SIZE)
    by (vm_compute; split; discriminate).
  assert (H5 : Z.of_nat (length ciao) < OBJECT_MAX_SIZE) by reflexivity.
  split; [exact H1 |]. split; [exact H2 |]. split; [exact H3 |].
  pose proof (delayed_work_string_copy boot_low ciao_work ciao []
                H1 H2 H3 H4 H5) as (_ & Hfit & _).
  apply Hfit. vm_compute. discriminate.
Defined.

(** C10 as the claim words it fails when the copy wraps: with the write
    cursor at 4094, the payload 00 'a' 'b' 'c' has no byte before its
    first zero byte, yet the run of its work item puts 'b' and 'c' at the
    start of the page. *)
Lemma delayed_work_copies_past_first_zero :
  cstring nul_abc = [] /\
  write_outcome
    (dev_write msecs_to_jiffies_250 low_at_4094 session0 nul_abc 4 true 1)
  = Some (4, (4, 0, 4094, 4094)) /\
  load (stream_content (get_object (after_write low_at_4094 nul_abc) 0)) 0 2
  = [x41; x41] /\
  counters (run_work (after_write low_at_4094 nul_abc)) = (4, 0, 4094, 2) /\
  load (stream_content
          (get_object (run_work (after_write low_at_4094 nul_abc)) 0)) 0 2
  = [x62; x63].
Proof.
  split; [reflexivity |]. split; [reflexivity |]. split; [reflexivity |].
  split; reflexivity.
Qed.

(** ** The byte counter in the reachable states *)


Lemma pending_app q the_work mn :
  pending (q ++ [the_work]) mn
  = pending q mn
    + (if Nat.eqb (minor the_work) mn then copiedBytes the_work else 0).
Proof.
  induction q as [| t q IH]; simpl; [lia |]. rewrite IH. lia.
Qed.

Lemma pending_nonneg q mn : Forall work_ok q -> 0 <= pending q mn.
Proof.
  induction 1 as [| t q [_ Ht] _ IH]; simpl; [lia |].
  destruct (Nat.eqb (minor t) mn); lia.
Qed.

Lemma unlock_lock o :
  operation_synchronizer o = false -> spin_unlock (set_lock true o) = o.
Proof. destruct o; simpl; intros ->; reflexivity. Qed.

Lemma flow_invariant_eq w w' mn :
  get_object w' mn = get_object w mn ->
  get_numBytes w' mn = get_numBytes w mn ->
  pending (workqueue w') mn = pending (workqueue w) mn ->
  flow_invariant w mn -> flow_invariant w' mn.
Proof.
  unfold flow_invariant. intros -> -> ->. exact id.
Qed.

(** The invariant after an update of the object and the counter of one
    minor, the queue growing or shrinking by items of that minor only. *)
Lemma driver_invariant_update w w' mn :
  driver_invariant w ->
  length (objects w') = length (objects w) ->
  length (numBytes w') = length (numBytes w) ->
  Forall work_ok (workqueue w') ->
  (forall mn', mn' <> mn ->
     get_object w' mn' = get_object w mn' /\
     get_numBytes w' mn' = get_numBytes w mn' /\
     pending (workqueue w') mn' = pending (workqueue w) mn') ->
  flow_invariant w' mn ->
  driver_invariant w'.
Proof.
  intros (Hlo & Hlb & Hq & Hflow) Hlo' Hlb' Hq' Hother Hmn.
  split; [congruence |]. split; [congruence |]. split; [exact Hq' |].
  intros mn' Hlt. destruct (decide (mn' = mn)) as [-> | Hne]; [exact Hmn |].
  destruct (Hother mn' Hne) as (Ho & Hb & Hp).
  eapply flow_invariant_eq; eauto.
Qed.

Lemma driver_invariant_init pages now :
  driver_invariant (init_module pages now).
Proof.
  unfold driver_invariant, init_module. cbn [objects numBytes workqueue].
  split; [rewrite length_map, length_seq; reflexivity |].
  split; [apply length_replicate |]. split; [constructor |].
  intros mn Hmn. unfold flow_invariant, get_object, get_numBytes.
  cbn [objects numBytes workqueue pending].
  rewrite lookup_total_replicate_2 by exact Hmn.
  rewrite (list_lookup_total_alt _ mn).
  rewrite list_lookup_fmap, lookup_seq_lt by exact Hmn.
  cbn. unfold bytes_in_page, OBJECT_MAX_SIZE. cbn.
  repeat split; lia.
Qed.

Lemma set_object_unlock_lock w mn :
  operation_synchronizer (get_object w mn) = false ->
  set_object mn (spin_unlock (set_lock true (get_object w mn))) w = w.
Proof.
  intros H. rewrite unlock_lock by exact H. apply set_object_same.
Qed.

Lemma set_object_twice w mn o1 o2 :
  set_object mn o2 (set_object mn o1 w) = set_object mn o2 w.
Proof.
  unfold set_object. cbn [objects enableDriver numReaders numBytes workqueue
                            jiffies].
  rewrite list_insert_insert_eq. reflexivity.
Qed.

Lemma exit_write_unchanged w mn :
  (mn < length (objects w))%nat ->
  operation_synchronizer (get_object w mn) = false ->
  exit_write mn 0 (set_object mn (set_lock true (get_object w mn)) w) = (0, w).
Proof.
  intros Hmn H. unfold exit_write. cbn [Z.ltb Z.compare].
  rewrite get_set_object by exact Hmn. rewrite set_object_twice.
  rewrite set_object_unlock_lock by exact H. reflexivity.
Qed.

Lemma exit_write_free w mn :
  operation_synchronizer (get_object w mn) = false ->
  exit_write mn 0 w = (0, w).
Proof.
  intros H. unfold exit_write. cbn [Z.ltb Z.compare]. f_equal.
  replace (spin_unlock (get_object w mn)) with (get_object w mn)
    by (destruct (get_object w mn); simpl in *; subst; reflexivity).
  apply set_object_same.
Qed.

Lemma file_not_full w mn len :
  0 <= get_numBytes w mn < 4294967296 -> 0 <= len <= MAX_RW_COUNT ->
  file_is_full w mn len = false ->
  get_numBytes w mn + len < OBJECT_MAX_SIZE.
Proof.
  intros Hn Hlen Hf.
  destruct (Z.le_gt_cases OBJECT_MAX_SIZE (get_numBytes w mn + len))
    as [Hge | Hlt]; [| exact Hlt].
  apply (file_is_full_spec w mn len Hn Hlen) in Hge. congruence.
Qed.

Lemma high_write_invariant w mn buff len o1 r1 :
  driver_invariant w -> (mn < MINORS)%nat -> 0 <= len <= MAX_RW_COUNT ->
  file_is_full w mn len = false ->
  write_chunk (set_lock true (get_object w mn)) buff len = (o1, r1) ->
  driver_invariant (snd (exit_write mn r1 (set_object mn o1 w))).
Proof.
  intros Hinv Hmn Hlen Hfull Hchunk.
  pose proof Hinv as (Hlo & Hlb & Hq & Hflow).
  destruct (Hflow mn Hmn) as (Hlock & Hr & Hw & Hnb & Heq).
  assert (Hroom : get_numBytes w mn + len < OBJECT_MAX_SIZE).
  { apply file_not_full; [unfold OBJECT_MAX_SIZE in Hnb; lia | exact Hlen
                          | exact Hfull]. }
  apply write_chunk_spec in Hchunk;
    [| exact Hw | unfold OBJECT_MAX_SIZE in *; lia].
  cbn [off_write off_read set_lock] in Hchunk.
  destruct Hchunk as (Hr1 & Hw1 & Hw1v & Hr1v & _ & _).
  pose proof (pending_nonneg _ mn Hq) as Hpend.
  assert (Hobj : get_object (snd (exit_write mn r1 (set_object mn o1 w))) mn
                 = spin_unlock o1).
  { unfold exit_write. destruct (0 <? r1); cbn [snd];
      rewrite get_set_object;
      try (cbn [objects set_object atomic_add_numBytes set_numBytes];
           rewrite length_insert; lia).
    - unfold atomic_add_numBytes, get_object, set_numBytes, set_object.
      cbn [objects]. rewrite list_lookup_total_insert_eq by lia. reflexivity.
    - rewrite get_set_object by lia. reflexivity. }
  assert (Hnum : get_numBytes (snd (exit_write mn r1 (set_object mn o1 w))) mn
                 = get_numBytes w mn + r1).
  { unfold exit_write. destruct (Z.ltb_spec 0 r1) as [Hpos | Hzero]; cbn [snd].
    - unfold atomic_add_numBytes, get_numBytes, set_numBytes, set_object.
      cbn [numBytes]. rewrite list_lookup_total_insert_eq by lia.
      apply u32_small. unfold get_numBytes, OBJECT_MAX_SIZE in *. lia.
    - unfold get_numBytes, set_object. cbn [numBytes]. lia. }
  apply (driver_invariant_update w _ mn Hinv).
  - unfold exit_write. destruct (0 <? r1); cbn [snd objects set_object
      atomic_add_numBytes set_numBytes]; rewrite !length_insert; reflexivity.
  - unfold exit_write. destruct (0 <? r1); cbn [snd numBytes set_object
      atomic_add_numBytes set_numBytes]; rewrite ?length_insert; reflexivity.
  - unfold exit_write. destruct (0 <? r1); exact Hq.
  - intros mn' Hne. unfold exit_write.
    destruct (0 <? r1); cbn [snd]; unfold get_object, get_numBytes,
      atomic_add_numBytes, set_numBytes, set_object;
      cbn [objects numBytes workqueue];
      rewrite ?list_lookup_total_insert_ne by congruence; auto.
  - unfold flow_invariant. rewrite Hobj, Hnum.
    assert (Hqueue : workqueue (snd (exit_write mn r1 (set_object mn o1 w)))
                     = workqueue w).
    { unfold exit_write. destruct (0 <? r1); reflexivity. }
    rewrite Hqueue. unfold bytes_in_page in *.
    cbn [spin_unlock set_lock operation_synchronizer off_read off_write].
    rewrite Hr1v. unfold OBJECT_MAX_SIZE in *.
    split; [reflexivity |]. split; [lia |]. split; [lia |]. split; [lia |].
    destruct Hw1v as [-> | ->]; Z.div_mod_to_equations; lia.
Qed.

Lemma low_reserve_unchanged w mn len result :
  operation_synchronizer (get_object w mn) = false ->
  file_is_full w mn len = true ->
  low_reserve mn len result (set_lock true (get_object w mn)) w
  = (result, w, false).
Proof.
  intros Hlock Hfull. unfold low_reserve. rewrite Hfull.
  rewrite set_object_unlock_lock by exact Hlock. reflexivity.
Qed.

Lemma low_reserve_invariant w mn len result the_task r w1 :
  driver_invariant w -> (mn < MINORS)%nat -> 0 <= len <= MAX_RW_COUNT ->
  0 <= result <= len ->
  file_is_full w mn len = false ->
  low_reserve mn len result (set_lock true (get_object w mn)) w
  = (r, w1, true) ->
  minor the_task = mn -> copiedBytes the_task = len - result ->
  driver_invariant (schedule_work the_task w1).
Proof.
  intros Hinv Hmn Hlen Hres Hfull Hlow Hminor Hcopied.
  pose proof Hinv as (Hlo & Hlb & Hq & Hflow).
  destruct (Hflow mn Hmn) as (Hlock & Hr & Hw & Hnb & Heq).
  assert (Hroom : get_numBytes w mn + len < OBJECT_MAX_SIZE).
  { apply file_not_full; [unfold OBJECT_MAX_SIZE in Hnb; lia | exact Hlen
                          | exact Hfull]. }
  pose proof (pending_nonneg _ mn Hq) as Hpend.
  unfold low_reserve in Hlow. rewrite Hfull in Hlow.
  injection Hlow as <- <-.
  unfold MAX_RW_COUNT in Hlen. change (2 ^ 31 - 4096) with 2147479552 in Hlen.
  rewrite (s32_small (len - result)) by lia.
  apply (driver_invariant_update w _ mn Hinv).
  - unfold schedule_work, atomic_add_numBytes, set_numBytes, set_object,
      set_workqueue. cbn [objects]. rewrite !length_insert. reflexivity.
  - unfold schedule_work, atomic_add_numBytes, set_numBytes, set_object,
      set_workqueue. cbn [numBytes]. rewrite !length_insert. reflexivity.
  - unfold schedule_work, set_workqueue. cbn [workqueue].
    apply Forall_app. split; [exact Hq |]. constructor; [| constructor].
    split; [rewrite Hminor; exact Hmn | rewrite Hcopied; lia].
  - intros mn' Hne.
    unfold schedule_work, atomic_add_numBytes, set_numBytes, set_object,
      set_workqueue, get_object, get_numBytes.
    cbn [objects numBytes workqueue].
    rewrite !list_lookup_total_insert_ne by congruence.
    split; [reflexivity |]. split; [reflexivity |].
    rewrite pending_app, Hminor.
    destruct (Nat.eqb_spec mn mn'); [congruence | lia].
  - unfold flow_invariant, schedule_work, atomic_add_numBytes, set_numBytes,
      set_object, set_workqueue, get_object, get_numBytes.
    cbn [objects numBytes workqueue].
    rewrite !list_lookup_total_insert_eq by (rewrite ?length_insert; lia).
    rewrite pending_app, Hminor, Nat.eqb_refl, Hcopied.
    fold (get_object w mn). fold (get_numBytes w mn).
    rewrite unlock_lock by exact Hlock.
    rewrite u32_small by (unfold OBJECT_MAX_SIZE in *; lia).
    unfold OBJECT_MAX_SIZE in *.
    split; [exact Hlock |]. split; [lia |]. split; [lia |]. split; [lia |].
    lia.
Qed.

Lemma copy_from_user_uncopied buff len data uncopied :
  0 <= len -> copy_from_user buff len = (data, uncopied) ->
  0 <= uncopied <= len.
Proof.
  unfold copy_from_user. intros Hlen H. injection H as _ <-. lia.
Qed.

Lemma dev_write_invariant (msecs_to_jiffies : Z -> Z) w filp buff len
    kzalloc_ok fuel r w' :
  driver_invariant w -> (get_minor filp < MINORS)%nat ->
  0 <= len <= MAX_RW_COUNT ->
  dev_write msecs_to_jiffies w filp buff len kzalloc_ok fuel = Some (r, w') ->
  driver_invariant w'.
Proof.
  intros Hinv Hmn Hlen H.
  pose proof Hinv as (Hlo & Hlb & Hq & Hflow).
  destruct (Hflow _ Hmn) as (Hlock & _).
  assert (Hmn' : (get_minor filp < length (objects w))%nat) by lia.
  unfold dev_write in H. set (mn := get_minor filp) in *.
  destruct (priority (get_object w mn)).
  - (* HIGH PRIORITY *)
    assert (Hbody :
      (if file_is_full w mn len
       then Some (exit_write mn 0
                    (set_object mn (set_lock true (get_object w mn)) w))
       else let '(o, result) :=
              write_chunk (set_lock true (get_object w mn)) buff len in
            Some (exit_write mn result (set_object mn o w)))
      = Some (r, w') -> driver_invariant w').
    { destruct (file_is_full w mn len) eqn:Hfull.
      - rewrite exit_write_unchanged by assumption.
        intros Heq. injection Heq as <- <-. exact Hinv.
      - destruct (write_chunk _ buff len) as [o1 r1] eqn:Hchunk.
        intros Heq. apply (inj Some) in Heq.
        pose proof (high_write_invariant w mn buff len o1 r1
                      Hinv Hmn Hlen Hfull Hchunk) as Hw'.
        rewrite Heq in Hw'. exact Hw'. }
    destruct (blocking (get_object w mn)).
    + destruct fuel as [| fuel]; [discriminate |].
      cbn [high_blocking_loop] in H.
      destruct (u64 _ <? 0).
      * rewrite exit_write_free in H by exact Hlock.
        injection H as <- <-. exact Hinv.
      * unfold spin_trylock in H. rewrite Hlock in H. apply Hbody.
        destruct (file_is_full w mn len); [exact H |].
        destruct (write_chunk _ buff len). exact H.
    + unfold spin_trylock in H. rewrite Hlock in H. apply Hbody.
      destruct (file_is_full w mn len).
      * rewrite exit_write_unchanged by assumption.
        rewrite set_object_unlock_lock in H by exact Hlock. exact H.
      * destruct (write_chunk _ buff len). exact H.
  - (* LOW PRIORITY *)
    destruct kzalloc_ok; cbn [negb] in H.
    2:{ injection H as <- <-. exact Hinv. }
    destruct (copy_from_user buff len) as [data uncopied] eqn:Hcopy.
    apply copy_from_user_uncopied in Hcopy; [| lia].
    unfold MAX_RW_COUNT in Hlen.
    change (2 ^ 31 - 4096) with 2147479552 in Hlen.
    rewrite (s32_small uncopied) in H by lia.
    rewrite (s32_small (len - uncopied)) in H by lia.
    assert (Hres :
      forall r1 w1 sched,
        low_reserve mn len uncopied (set_lock true (get_object w mn)) w
        = (r1, w1, sched) ->
        forall the_task,
          minor the_task = mn -> copiedBytes the_task = len - uncopied ->
          driver_invariant (if sched then schedule_work the_task w1 else w1)).
    { intros r1 w1 sched Hlow the_task Hm Hc.
      destruct (file_is_full w mn len) eqn:Hfull.
      - rewrite low_reserve_unchanged in Hlow by assumption.
        injection Hlow as <- <- <-. exact Hinv.
      - assert (sched = true) as ->.
        { unfold low_reserve in Hlow. rewrite Hfull in Hlow.
          injection Hlow as _ _ <-. reflexivity. }
        eapply low_reserve_invariant; eassumption. }
    match type of H with
    | match ?out with _ => _ end = _ =>
        destruct out as [[[r1 w1] sched] |] eqn:Hout
    end; [| discriminate].
    assert (Hlow : low_reserve mn len uncopied
                     (set_lock true (get_object w mn)) w = (r1, w1, sched)
                   \/ (w1 = w /\ sched = false)).
    { destruct (blocking (get_object w mn)).
      - destruct fuel as [| fuel]; [discriminate |].
        cbn [low_blocking_loop] in Hout. destruct (s64 _ <? 0).
        + injection Hout as <- <- <-. right. auto.
        + unfold spin_trylock in Hout. rewrite Hlock in Hout.
          apply (inj Some) in Hout. left. exact Hout.
      - unfold spin_trylock in Hout. rewrite Hlock in Hout.
        apply (inj Some) in Hout. left. exact Hout. }
    destruct Hlow as [Hlow | [-> ->]].
    + specialize (Hres _ _ _ Hlow). destruct sched; injection H as <- <-.
      * apply Hres; reflexivity.
      * apply (Hres (mk_work 0 mn (len - uncopied) [])); reflexivity.
    + injection H as <- <-. exact Hinv.
Qed.

Lemma delayed_work_frame the_work w :
  length (objects (delayed_work the_work w)) = length (objects w) /\
  workqueue (delayed_work the_work w) = workqueue w /\
  forall mn, mn <> minor the_work ->
    get_object (delayed_work the_work w) mn = get_object w mn.
Proof.
  unfold delayed_work.
  destruct (_ >=? _); cbn zeta; destruct (0 <? _);
    unfold set_object, get_object; cbn [objects workqueue];
    rewrite length_insert; (split; [reflexivity |]); (split; [reflexivity |]);
    intros mn Hne; apply list_lookup_total_insert_ne; congruence.
Qed.

Lemma run_work_invariant w : driver_invariant w -> driver_invariant (run_work w).
Proof.
  intros Hinv. unfold run_work.
  destruct (workqueue w) as [| the_work rest] eqn:Hqueue; [exact Hinv |].
  pose proof Hinv as (Hlo & Hlb & Hq & Hflow).
  rewrite Hqueue in Hq. apply Forall_cons in Hq as [[Hmn Hn] Hrest].
  destruct (Hflow _ Hmn) as (Hlock & Hr & Hw & Hnb & Heq).
  rewrite Hqueue in Heq. cbn [pending] in Heq. rewrite Nat.eqb_refl in Heq.
  pose proof (pending_nonneg _ (minor the_work) Hrest) as Hpend.
  set (w0 := set_workqueue rest w).
  destruct (delayed_work_frame the_work w0) as (Hlen & Hwq & Hother).
  apply (driver_invariant_update w _ (minor the_work) Hinv).
  - exact Hlen.
  - rewrite delayed_work_numBytes. reflexivity.
  - rewrite Hwq. exact Hrest.
  - intros mn' Hne. rewrite (Hother mn') by congruence.
    split; [reflexivity |].
    unfold get_numBytes. rewrite delayed_work_numBytes.
    split; [reflexivity |].
    rewrite Hwq, Hqueue. cbn [pending workqueue w0 set_workqueue].
    destruct (Nat.eqb_spec (minor the_work) mn'); [congruence | lia].
  - unfold flow_invariant.
    rewrite delayed_work_object by (cbn [objects w0 set_workqueue]; lia).
    unfold get_numBytes. rewrite delayed_work_numBytes, Hwq.
    change (get_object w0 (minor the_work))
      with (get_object w (minor the_work)).
    change (numBytes w0) with (numBytes w). cbn [workqueue w0 set_workqueue].
    fold (get_numBytes w (minor the_work)).
    unfold bytes_in_page, OBJECT_MAX_SIZE in *. cbn zeta.
    rewrite (s32_small (4096 - _)) by lia.
    rewrite Z.geb_leb.
    destruct (Z.leb_spec (copiedBytes the_work)
                (4096 - off_write (get_object w (minor the_work))))
      as [Hfit | Hwrap].
    + rewrite s32_small by lia. proj_simpl.
      split; [reflexivity |]. split; [lia |]. split; [lia |].
      split; [lia |]. Z.div_mod_to_equations. lia.
    + assert (Hsmall : copiedBytes the_work < 4096).
      { Z.div_mod_to_equations. lia. }
      rewrite (s32_small (copiedBytes the_work + _ - 4096)) by lia.
      destruct (Z.ltb_spec 0 (copiedBytes the_work
                  + off_write (get_object w (minor the_work)) - 4096))
        as [_ | Hc]; [| lia].
      rewrite s32_small by lia. proj_simpl.
      split; [reflexivity |]. split; [lia |]. split; [lia |].
      split; [lia |]. Z.div_mod_to_equations. lia.
Qed.

Lemma length_load n : forall mem src, length (load mem src n) = n.
Proof. induction n as [| n IH]; intros mem src; simpl; [| rewrite IH]; reflexivity. Qed.

Lemma copy_to_user_whole buff at_ data :
  0 <= at_ -> at_ + Z.of_nat (length data) <= Z.of_nat (length buff) ->
  copy_to_user buff at_ data = (list_inserts (Z.to_nat at_) data buff, 0).
Proof.
  intros Hat Hroom. unfold copy_to_user.
  rewrite Z.min_l by lia. rewrite Nat2Z.id, firstn_all.
  f_equal. lia.
Qed.

Lemma read_chunk_spec o buff len o1 b1 len' len2' r :
  0 <= off_read o <= OBJECT_MAX_SIZE -> 0 <= len <= OBJECT_MAX_SIZE ->
  len <= Z.of_nat (length buff) ->
  read_chunk o buff len 0 0 = (o1, b1, len', len2', r) ->
  r = len /\
  0 <= off_read o1 <= OBJECT_MAX_SIZE /\
  (off_read o1 = off_read o + len \/
   off_read o1 = off_read o + len - OBJECT_MAX_SIZE) /\
  off_write o1 = off_write o /\ same_settings o o1 /\
  (len <= OBJECT_MAX_SIZE - off_read o -> len' = len).
Proof.
  unfold OBJECT_MAX_SIZE, same_settings. intros Hr Hlen Hbuff H.
  unfold read_chunk, OBJECT_MAX_SIZE in H.
  rewrite (u64_small (4096 - off_read o)) in H by lia.
  destruct (Z.ltb_spec (4096 - off_read o) len) as [Hsplit | Hfit].
  - (* the read wraps *)
    rewrite copy_to_user_whole in H by (rewrite ?length_load; lia).
    change (s32 0) with 0 in H.
    rewrite (s32_small (len + off_read o - 4096)) in H by lia.
    replace (0 + (4096 - off_read o - 0)) with (4096 - off_read o) in H by lia.
    rewrite (s32_small (4096 - off_read o)) in H by lia.
    rewrite (u64_small (4096 - off_read o)) in H by lia.
    rewrite Z.eqb_refl in H.
    destruct (Z.ltb_spec 0 (len + off_read o - 4096)) as [_ | Hc]; [| lia].
    cbn [andb] in H.
    rewrite (u64_small (len + off_read o - 4096)) in H by lia.
    rewrite copy_to_user_whole in H
      by (rewrite ?length_load, ?length_inserts; lia).
    change (s32 0) with 0 in H. proj_simpl in H.
    rewrite (s32_small (0 + _)) in H by lia.
    rewrite (s32_small (4096 - off_read o + _)) in H by lia.
    injection H as <- <- <- <- <-. proj_simpl.
    repeat split; try reflexivity; lia.
  - rewrite copy_to_user_whole in H by (rewrite ?length_load; lia).
    change (s32 0) with 0 in H.
    replace (0 + (len - 0)) with len in H by lia.
    rewrite (s32_small len) in H by lia.
    cbn [Z.ltb Z.compare andb] in H. proj_simpl in H.
    rewrite (s32_small (off_read o + _)) in H by lia.
    injection H as <- <- <- <- <-. proj_simpl.
    repeat split; try reflexivity; lia.
Qed.

Lemma driver_invariant_ext w w' :
  objects w' = objects w -> numBytes w' = numBytes w ->
  workqueue w' = workqueue w ->
  driver_invariant w -> driver_invariant w'.
Proof.
  unfold driver_invariant, flow_invariant, get_object, get_numBytes.
  intros -> -> ->. exact id.
Qed.

Lemma bytes_in_page_le o :
  0 <= off_read o <= OBJECT_MAX_SIZE -> 0 <= off_write o <= OBJECT_MAX_SIZE ->
  0 <= bytes_in_page o /\
  (0 < off_write o - off_read o -> bytes_in_page o <= off_write o - off_read o).
Proof.
  unfold bytes_in_page, OBJECT_MAX_SIZE. intros Hr Hw.
  split; [| intros Hpos]; Z.div_mod_to_equations; lia.
Qed.

Lemma run_work_iter_invariant n w :
  driver_invariant w -> driver_invariant (Nat.iter n run_work w).
Proof.
  intros H. induction n as [| n IH]; [exact H |].
  rewrite Nat.iter_succ. apply run_work_invariant, IH.
Qed.

Lemma run_pending_invariant w :
  driver_invariant w -> driver_invariant (run_pending w).
Proof. apply run_work_iter_invariant. Qed.

Lemma read_done_invariant w mn buff len o1 b1 len' len2' r :
  driver_invariant w -> (mn < MINORS)%nat ->
  0 <= len <= bytes_in_page (get_object w mn) ->
  len <= Z.of_nat (length buff) ->
  read_chunk (set_lock true (get_object w mn)) buff len 0 0
  = (o1, b1, len', len2', r) ->
  driver_invariant
    (snd (exit_read mn r b1 (set_object mn (spin_unlock o1) w))).
Proof.
  intros Hinv Hmn Hlen Hbuff Hchunk.
  pose proof Hinv as (Hlo & Hlb & Hq & Hflow).
  destruct (Hflow mn Hmn) as (Hlock & Hr & Hw & Hnb & Heq).
  pose proof (pending_nonneg _ mn Hq) as Hpend.
  assert (Hbip : bytes_in_page (get_object w mn) < OBJECT_MAX_SIZE) by lia.
  apply read_chunk_spec in Hchunk;
    [| exact Hr | unfold OBJECT_MAX_SIZE in *; lia | exact Hbuff].
  cbn [off_write off_read set_lock] in Hchunk.
  destruct Hchunk as (-> & Hr1 & Hr1v & Hw1v & _ & _).
  apply (driver_invariant_update w _ mn Hinv).
  - unfold exit_read. destruct (0 <? len); cbn [snd];
      unfold atomic_sub_numBytes, atomic_dec_numReaders,
        set_numBytes, set_numReaders, set_object;
      cbn [objects]; rewrite length_insert; reflexivity.
  - unfold exit_read. destruct (0 <? len); cbn [snd];
      unfold atomic_sub_numBytes, atomic_dec_numReaders,
        set_numBytes, set_numReaders, set_object;
      cbn [numBytes]; rewrite ?length_insert; reflexivity.
  - unfold exit_read. destruct (0 <? len); exact Hq.
  - intros mn' Hne. unfold exit_read.
    destruct (0 <? len); cbn [snd];
      unfold atomic_sub_numBytes, atomic_dec_numReaders,
        set_numBytes, set_numReaders, set_object,
        get_object, get_numBytes;
      cbn [objects numBytes workqueue];
      rewrite ?list_lookup_total_insert_ne by congruence; auto.
  - unfold flow_invariant, exit_read.
    destruct (Z.ltb_spec 0 len) as [Hpos | Hzero]; cbn [snd];
      unfold atomic_sub_numBytes, atomic_dec_numReaders,
        set_numBytes, set_numReaders, set_object,
        get_object, get_numBytes;
      cbn [objects numBytes workqueue];
      rewrite ?list_lookup_total_insert_eq by lia;
      fold (get_object w mn); fold (get_numBytes w mn);
      unfold bytes_in_page in *; proj_simpl;
      cbn [spin_unlock set_lock operation_synchronizer off_read off_write];
      rewrite Hw1v; unfold OBJECT_MAX_SIZE in *.
    + rewrite u32_small by lia.
      split; [reflexivity |]. split; [lia |]. split; [lia |]. split; [lia |].
      destruct Hr1v as [-> | ->]; Z.div_mod_to_equations; lia.
    + split; [reflexivity |]. split; [lia |]. split; [lia |]. split; [lia |].
      destruct Hr1v as [-> | ->]; Z.div_mod_to_equations; lia.
Qed.

(** What one turn of the blocking read does once it has found data: the
    lock is free, the copy is complete and the loop is left. *)
Lemma read_turn_done w mn buff len o1 b1 len' len2' r :
  driver_invariant w -> (mn < MINORS)%nat ->
  0 < off_write (get_object w mn) - off_read (get_object w mn) ->
  0 <= len <= bytes_in_page (get_object w mn) ->
  len <= Z.of_nat (length buff) ->
  read_chunk (set_lock true (get_object w mn)) buff len 0 0
  = (o1, b1, len', len2', r) ->
  r = len /\ len' = len /\ 0 <= len < OBJECT_MAX_SIZE.
Proof.
  intros Hinv Hmn Hpos Hlen Hbuff Hchunk.
  pose proof Hinv as (Hlo & Hlb & Hq & Hflow).
  destruct (Hflow mn Hmn) as (Hlock & Hr & Hw & Hnb & Heq).
  pose proof (pending_nonneg _ mn Hq) as Hpend.
  pose proof (bytes_in_page_le _ Hr Hw) as [Hbip0 Hbip].
  apply read_chunk_spec in Hchunk;
    [| exact Hr | unfold OBJECT_MAX_SIZE in *; lia | exact Hbuff].
  destruct Hchunk as (-> & _ & _ & _ & _ & Hlen').
  cbn [off_read set_lock] in Hlen'. unfold OBJECT_MAX_SIZE in *.
  split; [reflexivity |]. split; [apply Hlen'; lia | lia].
Qed.

Lemma dev_read_body_invariant (msecs_to_jiffies : Z -> Z) w filp buff len
    fuel inside b res :
  driver_invariant w -> (get_minor filp < MINORS)%nat ->
  0 <= len <= bytes_in_page (get_object w (get_minor filp)) ->
  len <= Z.of_nat (length buff) ->
  dev_read_body msecs_to_jiffies w filp buff len fuel
  = Some (inside, b, res) ->
  driver_invariant (snd (exit_read (get_minor filp) res b inside)).
Proof.
  intros Hinv Hmn Hlen Hbuff H. set (mn := get_minor filp) in *.
  pose proof Hinv as (Hlo & Hlb & Hq & Hflow).
  destruct (Hflow _ Hmn) as (Hlock & Hr & Hw & Hnb & Heq).
  pose proof (pending_nonneg _ mn Hq) as Hpend.
  assert (Hidle : forall b0 w2,
            driver_invariant w2 ->
            driver_invariant (snd (exit_read mn 0 b0 w2))).
  { intros b0 w2. apply driver_invariant_ext; reflexivity. }
  pose proof (bytes_in_page_le _ Hr Hw) as [Hbip0 Hbip].
  unfold dev_read_body in H. fold mn in H.
  destruct (blocking (get_object w mn)).
  - (* blocking *)
    destruct fuel as [| fuel]; [discriminate |].
    cbn [read_blocking_loop] in H.
    destruct (s64 _ <? 0).
    { injection H as <- <- <-. apply Hidle, Hinv. }
    unfold OBJECT_MAX_SIZE in Hr, Hw.
    rewrite (s32_small (off_write (get_object w mn)
                        - off_read (get_object w mn))) in H by lia.
    destruct (Z.leb_spec (off_write (get_object w mn)
                          - off_read (get_object w mn)) 0) as [Hempty | Hdata].
    + (* the reader sleeps *)
      unfold wait_event_timeout in H.
      assert (Hc0 : read_condition mn w = false).
      { unfold read_condition. cbv zeta. rewrite s32_small by lia.
        destruct (Z.ltb_spec 0 (off_write (get_object w mn)
                                - off_read (get_object w mn))); [lia |].
        reflexivity. }
      rewrite Hc0 in H. destruct (u64 _ =? 0).
      { change (s32 0 =? 0) with true in H. cbn iota in H.
        injection H as <- <- <-. apply Hidle, Hinv. }
      cbv zeta in H.
      match type of H with
      | context [read_condition mn ?W] => set (w2 := W) in H
      end.
      assert (Hinv2 : driver_invariant w2).
      { apply run_pending_invariant.
        eapply driver_invariant_ext; [| | | exact Hinv]; reflexivity. }
      destruct (read_condition mn w2) eqn:Hc2.
      2:{ change (s32 0 =? 0) with true in H. cbn iota in H.
          injection H as <- <- <-. apply Hidle, Hinv2. }
      change (s32 1 =? 0) with false in H. cbn iota in H.
      pose proof Hinv2 as (_ & _ & _ & Hflow2).
      destruct (Hflow2 _ Hmn) as (Hlock2 & Hr2 & Hw2 & Hnb2 & Heq2).
      destruct (run_pending_fields
                  (set_jiffies (jiffies w + u64 (s64 (deadline msecs_to_jiffies w (get_object w mn) - s64 (jiffies w)))) w))
        as (_ & _ & Hb2 & _ & Hq2 & _).
      fold w2 in Hb2, Hq2. rewrite Hq2 in Heq2. cbn [pending] in Heq2.
      assert (Hnum : get_numBytes w2 mn = get_numBytes w mn).
      { unfold get_numBytes. rewrite Hb2. reflexivity. }
      unfold OBJECT_MAX_SIZE in Hr2, Hw2.
      unfold read_condition in Hc2. cbv zeta in Hc2.
      rewrite s32_small in Hc2 by lia.
      apply andb_true_iff in Hc2. destruct Hc2 as [Hpos2 _].
      apply Z.ltb_lt in Hpos2.
      assert (Hlen2 : 0 <= len <= bytes_in_page (get_object w2 mn)) by lia.
      unfold spin_trylock in H. rewrite Hlock2 in H.
      cbn [off_write off_read set_lock] in H.
      rewrite (s32_small (off_write (get_object w2 mn)
                          - off_read (get_object w2 mn))) in H by lia.
      destruct (Z.eqb_spec (off_write (get_object w2 mn)
                            - off_read (get_object w2 mn)) 0) as [Hc | _];
        [lia |].
      destruct (read_chunk _ buff len 0 0)
        as [[[[o1 b1] len'] len2'] r1] eqn:Hchunk.
      destruct (read_turn_done w2 mn buff len o1 b1 len' len2' r1
                  Hinv2 Hmn Hpos2 Hlen2 Hbuff Hchunk) as (-> & -> & Hl).
      unfold OBJECT_MAX_SIZE in Hl.
      rewrite u64_small in H by lia. rewrite Z.eqb_refl in H.
      injection H as <- <- <-.
      eapply read_done_invariant; eassumption.
    + change (s32 1 =? 0) with false in H. cbn iota in H.
      unfold spin_trylock in H. rewrite Hlock in H.
      cbn [off_write off_read set_lock] in H.
      rewrite (s32_small (off_write (get_object w mn)
                          - off_read (get_object w mn))) in H by lia.
      destruct (Z.eqb_spec (off_write (get_object w mn)
                            - off_read (get_object w mn)) 0) as [Hc | _];
        [lia |].
      destruct (read_chunk _ buff len 0 0)
        as [[[[o1 b1] len'] len2'] r1] eqn:Hchunk.
      destruct (read_turn_done w mn buff len o1 b1 len' len2' r1
                  Hinv Hmn Hdata Hlen Hbuff Hchunk) as (-> & -> & Hl).
      unfold OBJECT_MAX_SIZE in Hl.
      rewrite u64_small in H by lia. rewrite Z.eqb_refl in H.
      injection H as <- <- <-.
      eapply read_done_invariant; eassumption.
  - (* not blocking *)
    unfold spin_trylock in H. rewrite Hlock in H.
    cbn [off_write off_read set_lock] in H.
    destruct (s32 _ =? 0).
    + rewrite unlock_lock in H by exact Hlock.
      injection H as <- <- <-. apply Hidle.
      eapply driver_invariant_ext; [| | | exact Hinv]; try reflexivity.
      unfold set_object, get_object. cbn [objects].
      apply list_insert_id, list_lookup_lookup_total_lt. lia.
    + destruct (read_chunk _ buff len 0 0)
        as [[[[o1 b1] len'] len2'] r1] eqn:Hchunk.
      injection H as <- <- <-.
      eapply read_done_invariant; eassumption.
Qed.

Lemma dev_read_invariant (msecs_to_jiffies : Z -> Z) w filp buff len fuel
    r buff' w' :
  driver_invariant w -> (get_minor filp < MINORS)%nat ->
  0 <= len <= bytes_in_page (get_object w (get_minor filp)) ->
  len <= Z.of_nat (length buff) ->
  dev_read msecs_to_jiffies w filp buff len fuel = Some (r, buff', w') ->
  driver_invariant w'.
Proof.
  intros Hinv Hmn Hlen Hbuff H. rewrite dev_read_unfold in H.
  destruct (dev_read_body _ _ _ _ _ _) as [[[inside b] res] |] eqn:Hbody;
    [| discriminate].
  apply (inj Some) in H.
  eapply dev_read_body_invariant in Hbody;
    [| eapply driver_invariant_ext; [| | | exact Hinv]; reflexivity
     | exact Hmn | exact Hlen | exact Hbuff].
  rewrite H in Hbody. exact Hbody.
Qed.

Lemma configure_invariant w mn o' :
  driver_invariant w -> (mn < MINORS)%nat ->
  operation_synchronizer o' = operation_synchronizer (get_object w mn) ->
  off_read o' = off_read (get_object w mn) ->
  off_write o' = off_write (get_object w mn) ->
  driver_invariant (set_object mn o' w).
Proof.
  intros Hinv Hmn Hl Hr Hw.
  pose proof Hinv as (Hlo & Hlb & Hq & Hflow).
  apply (driver_invariant_update w _ mn Hinv).
  - unfold set_object. cbn [objects]. apply length_insert.
  - reflexivity.
  - exact Hq.
  - intros mn' Hne. rewrite get_set_object_ne by congruence. auto.
  - specialize (Hflow mn Hmn). unfold flow_invariant, bytes_in_page in *.
    rewrite get_set_object by lia.
    change (get_numBytes (set_object mn o' w) mn) with (get_numBytes w mn).
    change (workqueue (set_object mn o' w)) with (workqueue w).
    rewrite Hl, Hr, Hw. exact Hflow.
Qed.

Lemma dev_ioctl_invariant w filp command param :
  driver_invariant w -> (get_minor filp < MINORS)%nat ->
  driver_invariant (snd (dev_ioctl w filp command param)).
Proof.
  intros Hinv Hmn. unfold dev_ioctl.
  destruct param as [value |]; [| exact Hinv].
  destruct command; cbn [snd];
    repeat match goal with
           | |- context [if ?c then _ else _] => destruct c; cbn [snd]
           end;
    try exact Hinv; apply configure_invariant; auto.
Qed.

Lemma step_invariant msecs_to_jiffies w w' :
  step msecs_to_jiffies w w' -> driver_invariant w -> driver_invariant w'.
Proof.
  intros Hstep Hinv. destruct Hstep.
  - eapply dev_write_invariant; eassumption.
  - apply run_work_invariant. exact Hinv.
  - apply dev_ioctl_invariant; assumption.
  - eapply dev_read_invariant; eassumption.
Qed.

Lemma rtc_invariant msecs_to_jiffies w w' :
  rtc (step msecs_to_jiffies) w w' -> driver_invariant w ->
  driver_invariant w'.
Proof.
  induction 1 as [| w1 w2 w3 Hstep _ IH]; intros Hinv; [exact Hinv |].
  apply IH. eapply step_invariant; eassumption.
Qed.

(** C6, as the code has it.  Take the states between two calls that the
    driver reaches from a freshly loaded module when the calls run one
    at a time, each to its return, on minors below 128: writes of either
    priority of at most MAX_RW_COUNT bytes, runs of the oldest work
    item, ioctls, and reads that ask for no more than the bytes in the
    page and hand in memory of the caller that is writable for the
    requested length.  In every such state numBytes of a minor lies in
    [0, capacity): the page is never completely full.  It equals (off_write - off_read) mod capacity
    plus the bytes that low-priority writes have reserved and whose work
    items have not run yet.  With nothing reserved it equals
    (off_write - off_read) mod capacity, and it is 0 exactly when the two
    cursors agree modulo the capacity. *)
Theorem reachable_byte_count (msecs_to_jiffies : Z -> Z) (w : driver)
    (mn : nat) :
  reachable msecs_to_jiffies w -> (mn < MINORS)%nat ->
  let o := get_object w mn in
  let reserved_bytes := pending (workqueue w) mn in
  0 <= get_numBytes w mn < OBJECT_MAX_SIZE /\
  0 <= reserved_bytes /\
  get_numBytes w mn
  = (off_write o - off_read o) mod OBJECT_MAX_SIZE + reserved_bytes /\
  (reserved_bytes = 0 ->
   (get_numBytes w mn = 0 <->
    (off_write o - off_read o) mod OBJECT_MAX_SIZE = 0)).
Proof.
  intros (pages & now & Hrtc) Hmn o reserved_bytes.
  pose proof (rtc_invariant _ _ _ Hrtc (driver_invariant_init pages now))
    as (_ & _ & Hq & Hflow).
  destruct (Hflow mn Hmn) as (_ & _ & _ & Hnb & Heq).
  pose proof (pending_nonneg _ mn Hq) as Hpend.
  unfold bytes_in_page in Heq. fold o in Heq. fold reserved_bytes in Heq, Hpend.
  split; [exact Hnb |]. split; [exact Hpend |]. split; [exact Heq |].
  intros Hnone. rewrite Heq, Hnone. lia.
Qed.

Lemma low_ciao_reserved_reachable :
  reachable msecs_to_jiffies_250 low_ciao_reserved.
Proof.
  exists (fun _ _ => x00), 1000.
  apply (rtc_l _ _ boot_low).
  - apply (step_ioctl _ boot session0 IOWR_PRIORITYSTATE (Some 0)).
    vm_compute. lia.
  - apply rtc_once.
    apply (step_write _ boot_low session0 ciao 4 true 1 4).
    + vm_compute. lia.
    + vm_compute. split; discriminate.
    + reflexivity.
Qed.

Lemma reachable_byte_count_witness :
  reachable msecs_to_jiffies_250 low_ciao_reserved /\
  (0 < MINORS)%nat /\
  let o := get_object low_ciao_reserved 0 in
  let reserved_bytes := pending (workqueue low_ciao_reserved) 0 in
  0 <= get_numBytes low_ciao_reserved 0 < OBJECT_MAX_SIZE /\
  0 <= reserved_bytes /\
  get_numBytes low_ciao_reserved 0
  = (off_write o - off_read o) mod OBJECT_MAX_SIZE + reserved_bytes /\
  (reserved_bytes = 0 ->
   (get_numBytes low_ciao_reserved 0 = 0 <->
    (off_write o - off_read o) mod OBJECT_MAX_SIZE = 0)).
Proof.
  assert (H2 : (0 < MINORS)%nat) by (vm_compute; lia).
  split; [exact low_ciao_reserved_reachable |]. split; [exact H2 |].
  exact (reachable_byte_count msecs_to_jiffies_250 low_ciao_reserved 0
           low_ciao_reserved_reachable H2).
Defined.

(** C6 as the specification words it fails in a reachable state: after a
    low-priority write of "ciao" on a fresh module the byte count is 4,
    below the capacity, while both cursors are still 0, so that
    (off_write - off_read) mod capacity is 0. *)
Lemma byte_count_ahead_of_cursors :
  reachable msecs_to_jiffies_250 low_ciao_reserved /\
  counters low_ciao_reserved = (4, 0, 0, 0) /\
  get_numBytes low_ciao_reserved 0 < OBJECT_MAX_SIZE /\
  get_numBytes low_ciao_reserved 0
  <> (off_write (get_object low_ciao_reserved 0)
      - off_read (get_object low_ciao_reserved 0)) mod OBJECT_MAX_SIZE.
Proof.
  split; [exact low_ciao_reserved_reachable |].
  split; [reflexivity |]. split; [reflexivity |].
  vm_compute. discriminate.
Qed.

(** ** Writing and reading back *)

Lemma write_chunk_content o buff len o1 r :
  0 <= off_write o <= OBJECT_MAX_SIZE -> 0 <= len < OBJECT_MAX_SIZE ->
  len <= Z.of_nat (length buff) ->
  write_chunk o buff len = (o1, r) ->
  let len1 := Z.min len (OBJECT_MAX_SIZE - off_write o) in
  load (stream_content o1) (off_write o) (Z.to_nat len1)
  = take (Z.to_nat len1) buff /\
  load (stream_content o1) 0 (Z.to_nat (len - len1))
  = take (Z.to_nat (len - len1)) (drop (Z.to_nat len1) buff) /\
  off_write o1 = (if len <=? OBJECT_MAX_SIZE - off_write o
                  then off_write o + len
                  else off_write o + len - OBJECT_MAX_SIZE).
Proof.
  unfold OBJECT_MAX_SIZE. intros Hw Hlen Hbuff H.
  unfold write_chunk, OBJECT_MAX_SIZE in H.
  rewrite (u64_small (4096 - off_write o)) in H by lia.
  destruct (Z.ltb_spec (4096 - off_write o) len) as [Hsplit | Hfit].
  - rewrite copy_from_user_whole in H by lia.
    change (s32 0) with 0 in H.
    rewrite (s32_small (len + off_write o - 4096)) in H by lia.
    replace (0 + (4096 - off_write o - 0)) with (4096 - off_write o)
      in H by lia.
    rewrite (s32_small (4096 - off_write o)) in H by lia.
    rewrite (u64_small (4096 - off_write o)) in H by lia.
    rewrite Z.eqb_refl in H.
    destruct (Z.ltb_spec 0 (len + off_write o - 4096)) as [_ | Hc]; [| lia].
    cbn [andb] in H.
    rewrite (u64_small (len + off_write o - 4096)) in H by lia.
    rewrite copy_from_user_whole in H by (rewrite length_drop; lia).
    change (s32 0) with 0 in H. proj_simpl in H.
    rewrite (s32_small (0 + _)) in H by lia.
    injection H as <- _. proj_simpl. cbv zeta.
    destruct (Z.leb_spec len (4096 - off_write o)) as [Hc | _]; [lia |].
    rewrite Z.min_r by lia.
    replace (len - (4096 - off_write o)) with (len + off_write o - 4096)
      by lia.
    set (p1 := take (Z.to_nat (4096 - off_write o)) buff).
    set (p2 := take (Z.to_nat (len + off_write o - 4096))
                 (drop (Z.to_nat (4096 - off_write o)) buff)).
    assert (Hp1 : length p1 = Z.to_nat (4096 - off_write o))
      by (unfold p1; rewrite length_take; lia).
    assert (Hp2 : length p2 = Z.to_nat (len + off_write o - 4096))
      by (unfold p2; rewrite length_take, length_drop; lia).
    split; [| split].
    + rewrite (load_ext _ _ (store (stream_content o) (off_write o) p1)).
      * rewrite <- Hp1. apply load_store.
      * intros a Ha. apply store_outside. lia.
    + rewrite <- Hp2. apply load_store.
    + lia.
  - rewrite copy_from_user_whole in H by lia.
    change (s32 0) with 0 in H. cbn [Z.ltb Z.compare andb] in H.
    proj_simpl in H. rewrite (s32_small (off_write o + _)) in H by lia.
    injection H as <- _. proj_simpl. cbv zeta.
    destruct (Z.leb_spec len (4096 - off_write o)) as [_ | Hc]; [| lia].
    rewrite Z.min_l by lia. replace (len - len) with 0 by lia.
    split; [| split; [reflexivity | lia]].
    set (p1 := take (Z.to_nat len) buff).
    assert (Hp1 : length p1 = Z.to_nat len)
      by (unfold p1; rewrite length_take; lia).
    rewrite <- Hp1. apply load_store.
Qed.

Lemma read_chunk_content o buff len o1 b1 len' len2' r :
  0 <= off_read o <= OBJECT_MAX_SIZE -> 0 <= len <= OBJECT_MAX_SIZE ->
  len <= Z.of_nat (length buff) ->
  read_chunk o buff len 0 0 = (o1, b1, len', len2', r) ->
  let len1 := Z.min len (OBJECT_MAX_SIZE - off_read o) in
  b1 = list_inserts (Z.to_nat len1)
         (load (stream_content o) 0 (Z.to_nat (len - len1)))
         (list_inserts 0
            (load (stream_content o) (off_read o) (Z.to_nat len1)) buff) /\
  off_read o1 = (if len <=? OBJECT_MAX_SIZE - off_read o
                 then off_read o + len
                 else off_read o + len - OBJECT_MAX_SIZE).
Proof.
  unfold OBJECT_MAX_SIZE. intros Hr Hlen Hbuff H.
  unfold read_chunk, OBJECT_MAX_SIZE in H.
  rewrite (u64_small (4096 - off_read o)) in H by lia.
  destruct (Z.ltb_spec (4096 - off_read o) len) as [Hsplit | Hfit].
  - rewrite copy_to_user_whole in H by (rewrite ?length_load; lia).
    change (s32 0) with 0 in H.
    rewrite (s32_small (len + off_read o - 4096)) in H by lia.
    replace (0 + (4096 - off_read o - 0)) with (4096 - off_read o) in H by lia.
    rewrite (s32_small (4096 - off_read o)) in H by lia.
    rewrite (u64_small (4096 - off_read o)) in H by lia.
    rewrite Z.eqb_refl in H.
    destruct (Z.ltb_spec 0 (len + off_read o - 4096)) as [_ | Hc]; [| lia].
    cbn [andb] in H.
    rewrite (u64_small (len + off_read o - 4096)) in H by lia.
    rewrite copy_to_user_whole in H
      by (rewrite ?length_load, ?length_inserts; lia).
    change (s32 0) with 0 in H. proj_simpl in H.
    rewrite (s32_small (0 + _)) in H by lia.
    injection H as <- <- _ _ _. proj_simpl. cbv zeta.
    destruct (Z.leb_spec len (4096 - off_read o)) as [Hc | _]; [lia |].
    rewrite Z.min_r by lia.
    replace (len - (4096 - off_read o)) with (len + off_read o - 4096) by lia.
    split; [reflexivity | lia].
  - rewrite copy_to_user_whole in H by (rewrite ?length_load; lia).
    change (s32 0) with 0 in H.
    replace (0 + (len - 0)) with len in H by lia.
    rewrite (s32_small len) in H by lia.
    cbn [Z.ltb Z.compare andb] in H. proj_simpl in H.
    rewrite (s32_small (off_read o + _)) in H by lia.
    injection H as <- <- _ _ _. proj_simpl. cbv zeta.
    destruct (Z.leb_spec len (4096 - off_read o)) as [_ | Hc]; [| lia].
    rewrite Z.min_l by lia. replace (len - len) with 0 by lia.
    split; [reflexivity | lia].
Qed.

Lemma list_inserts_fill (a b buff : list byte) :
  length buff = (length a + length b)%nat ->
  list_inserts (length a) b (list_inserts 0 a buff) = a ++ b.
Proof.
  intros Hlen. apply list_eq. intros i.
  destruct (decide (i < length a)%nat) as [Hlt | Hge].
  - rewrite list_lookup_inserts_lt by exact Hlt.
    rewrite list_lookup_inserts by lia.
    rewrite lookup_app_l by exact Hlt. f_equal. lia.
  - destruct (decide (i < length a + length b)%nat) as [Hlt2 | Hge2].
    + rewrite list_lookup_inserts by (rewrite ?length_inserts; lia).
      rewrite lookup_app_r by lia. reflexivity.
    + rewrite list_lookup_inserts_ge by lia.
      rewrite list_lookup_inserts_ge by lia.
      rewrite !lookup_ge_None_2; [reflexivity | |]; rewrite ?length_app; lia.
Qed.

Lemma exit_write_views w mn o1 r :
  (mn < length (objects w))%nat -> (mn < length (numBytes w))%nat ->
  let w' := snd (exit_write mn r (set_object mn o1 w)) in
  get_object w' mn = spin_unlock o1 /\
  get_numBytes w' mn
  = (if 0 <? r then u32 (get_numBytes w mn + r) else get_numBytes w mn) /\
  length (objects w') = length (objects w) /\
  length (numBytes w') = length (numBytes w).
Proof.
  intros Ho Hb. cbv zeta. unfold exit_write.
  destruct (0 <? r); cbn [snd];
    unfold atomic_add_numBytes, get_object, get_numBytes, set_numBytes,
      set_object; cbn [objects numBytes];
    rewrite ?length_insert;
    rewrite ?list_lookup_total_insert_eq by (rewrite ?length_insert; lia);
    auto.
Qed.

Lemma exit_read_views w mn o1 r buff :
  (mn < length (objects w))%nat -> (mn < length (numBytes w))%nat ->
  let w' := snd (exit_read mn r buff
                   (set_object mn o1 (atomic_inc_numReaders mn w))) in
  get_object w' mn = o1 /\
  get_numBytes w' mn
  = (if 0 <? r then u32 (get_numBytes w mn - r) else get_numBytes w mn).
Proof.
  intros Ho Hb. cbv zeta. unfold exit_read.
  destruct (0 <? r); cbn [snd];
    unfold atomic_sub_numBytes, atomic_dec_numReaders, atomic_inc_numReaders,
      get_object, get_numBytes, set_numBytes, set_numReaders, set_object;
    cbn [objects numBytes];
    rewrite ?list_lookup_total_insert_eq by (rewrite ?length_insert; lia);
    auto.
Qed.

(** The copy into the page followed by the copy out of it, from an empty
    flow: the bytes come back, and the flow is empty again. *)
Lemma chunk_round_trip o payload buff :
  let len := Z.of_nat (length payload) in
  off_read o = off_write o -> 0 <= off_write o <= OBJECT_MAX_SIZE ->
  0 < len < OBJECT_MAX_SIZE -> length buff = length payload ->
  exists o1 o2 len' len2',
    write_chunk (set_lock true o) payload len = (o1, len) /\
    read_chunk (set_lock true (spin_unlock o1)) buff len 0 0
    = (o2, payload, len', len2', len) /\
    blocking o1 = blocking o /\
    off_read o1 = off_write o /\
    off_write o1 = (if len <=? OBJECT_MAX_SIZE - off_write o
                    then off_write o + len
                    else off_write o + len - OBJECT_MAX_SIZE) /\
    off_read o2 = off_write o1 /\ off_write o2 = off_write o1 /\
    (len <= OBJECT_MAX_SIZE - off_write o -> len' = len).
Proof.
  intros len Hempty Hoff Hlen Hbuff.
  unfold OBJECT_MAX_SIZE in Hoff, Hlen.
  destruct (write_chunk (set_lock true o) payload len) as [o1 r1] eqn:Hchunk.
  pose proof Hchunk as Hspec.
  apply write_chunk_spec in Hspec;
    [| exact Hoff | unfold OBJECT_MAX_SIZE; lia].
  destruct Hspec as (Hr1 & Hw1 & _ & Hr1v & _ & _ & Hb1 & _).
  rewrite Z.min_l in Hr1 by lia. subst r1.
  pose proof Hchunk as Hcontent.
  apply write_chunk_content in Hcontent;
    [| exact Hoff | unfold OBJECT_MAX_SIZE; lia | lia].
  cbn [off_write off_read set_lock blocking] in Hcontent, Hr1v, Hb1.
  unfold OBJECT_MAX_SIZE in Hw1.
  destruct Hcontent as (Hload1 & Hload2 & Hw1v).
  destruct (read_chunk (set_lock true (spin_unlock o1)) buff len 0 0)
    as [[[[o2 b2] len'] len2'] r2] eqn:Hread.
  pose proof Hread as Hspec.
  apply read_chunk_spec in Hspec;
    [| cbn [off_read set_lock spin_unlock]; rewrite Hr1v;
       unfold OBJECT_MAX_SIZE; lia
     | unfold OBJECT_MAX_SIZE; lia | lia].
  destruct Hspec as (-> & _ & _ & Hw2v & _ & Hlen').
  pose proof Hread as Hcontent.
  apply read_chunk_content in Hcontent;
    [| cbn [off_read set_lock spin_unlock]; rewrite Hr1v;
       unfold OBJECT_MAX_SIZE; lia
     | unfold OBJECT_MAX_SIZE; lia | lia].
  cbn [off_write off_read stream_content set_lock spin_unlock]
    in Hcontent, Hw2v, Hlen'.
  rewrite Hr1v, Hempty in Hcontent, Hlen'.
  destruct Hcontent as (Hb2 & Hr2v).
  unfold OBJECT_MAX_SIZE in Hb2, Hload1, Hload2.
  rewrite Hload1, Hload2 in Hb2.
  assert (Hpayload : b2 = payload).
  { rewrite Hb2.
    set (len1 := Z.to_nat (Z.min len (4096 - off_write o))).
    set (a := take len1 payload).
    set (b := take (Z.to_nat (len - Z.min len (4096 - off_write o)))
                (drop len1 payload)).
    assert (Ha : length a = len1) by (unfold a; rewrite length_take; lia).
    assert (Hbb : b = drop len1 payload)
      by (unfold b; apply take_ge; rewrite length_drop; lia).
    rewrite <- Ha at 1. rewrite list_inserts_fill.
    - rewrite Hbb. apply take_drop.
    - rewrite Hbb, Ha, length_drop. lia. }
  clear Hb2. subst b2.
  exists o1, o2, len', len2'.
  split; [reflexivity |]. split; [exact Hread |]. split; [exact Hb1 |].
  split; [congruence |]. split; [exact Hw1v |].
  split; [congruence |]. split; [exact Hw2v |]. exact Hlen'.
Qed.

(** X3.  The round trip that the code does meet.  On an instance with high
    priority whose flow is empty, a write of a payload of 1 to 4095 bytes
    followed by a read of as many bytes returns the payload, and leaves
    the flow empty, in the non-blocking mode wherever the cursors stand,
    and in the blocking mode when the write does not wrap around the end
    of the page (and the deadline of the read has not passed).  The case
    left out is a blocking read after a write that wrapped. *)
Theorem high_round_trip (msecs_to_jiffies : Z -> Z) (w : driver)
    (filp : file) (payload buff : list byte) (kzalloc_ok : bool)
    (fuel fuel' : nat) :
  let mn := get_minor filp in
  let o := get_object w mn in
  let len := Z.of_nat (length payload) in
  priority o = true ->
  operation_synchronizer o = false ->
  (mn < length (objects w))%nat -> (mn < length (numBytes w))%nat ->
  get_numBytes w mn = 0 -> off_read o = off_write o ->
  0 <= off_write o <= OBJECT_MAX_SIZE ->
  0 < len < OBJECT_MAX_SIZE -> length buff = length payload ->
  blocking o = false \/
  (blocking o = true /\ off_write o + len <= OBJECT_MAX_SIZE /\
   fuel <> O /\ fuel' <> O /\
   0 <= s64 (deadline msecs_to_jiffies w o - s64 (jiffies w))) ->
  exists w1 w2,
    dev_write msecs_to_jiffies w filp payload len kzalloc_ok fuel
    = Some (len, w1) /\
    dev_read msecs_to_jiffies w1 filp buff len fuel'
    = Some (len, payload, w2) /\
    get_numBytes w2 mn = 0 /\
    off_read (get_object w2 mn) = off_write (get_object w2 mn).
Proof.
  intros mn o len Hhigh Hlock Ho Hb Hzero Hempty Hoff Hlen Hbuff Hmode.
  assert (Hfull : file_is_full w mn len = false).
  { destruct (file_is_full w mn len) eqn:Hf; [| reflexivity].
    apply file_is_full_spec in Hf;
      unfold MAX_RW_COUNT, OBJECT_MAX_SIZE in *; cbn; lia. }
  destruct (chunk_round_trip o payload buff Hempty Hoff Hlen Hbuff)
    as (o1 & o2 & len' & len2' & Hchunk & Hread & Hb1 & Hr1v & Hw1v & Hr2v
        & Hw2v & Hlen').
  fold len in Hchunk, Hread, Hw1v, Hlen'.
  unfold OBJECT_MAX_SIZE in Hoff, Hlen, Hw1v, Hlen'.
  set (w1 := snd (exit_write mn len (set_object mn o1 w))).
  destruct (exit_write_views w mn o1 len Ho Hb) as (Hobj1 & Hnum1 & Hlo1 & Hlb1).
  fold w1 in Hobj1, Hnum1, Hlo1, Hlb1.
  destruct (Z.ltb_spec 0 len) as [_ | Hc]; [| lia].
  rewrite Hzero, u32_small in Hnum1 by lia.
  set (w2 := snd (exit_read mn len payload
                    (set_object mn (spin_unlock o2)
                       (atomic_inc_numReaders mn w1)))).
  destruct (exit_read_views w1 mn (spin_unlock o2) len payload)
    as (Hobj2 & Hnum2); [lia | lia |]. fold w2 in Hobj2, Hnum2.
  destruct (Z.ltb_spec 0 len) as [_ | Hc]; [| lia].
  assert (Hne : (s32 (off_write o1 - off_read o1) =? 0) = false).
  { rewrite Hr1v, Hw1v. destruct (Z.leb_spec len (4096 - off_write o));
      rewrite s32_small by lia; apply Z.eqb_neq; lia. }
  exists w1, w2. split; [| split; [| split]].
  - unfold dev_write. fold mn. fold o. rewrite Hhigh. fold len.
    destruct Hmode as [Hnb | (Hbl & _ & Hfuel & _ & _)].
    + rewrite Hnb. unfold spin_trylock. rewrite Hlock, Hfull, Hchunk.
      reflexivity.
    + rewrite Hbl. destruct fuel as [| fuel]; [contradiction |].
      cbn [high_blocking_loop].
      destruct (Z.ltb_spec (u64 (deadline msecs_to_jiffies w o
                                 - s64 (jiffies w))) 0) as [Hneg | _].
      { pose proof (u64_range (deadline msecs_to_jiffies w o
                               - s64 (jiffies w))). lia. }
      unfold spin_trylock. fold o. rewrite Hlock, Hfull, Hchunk.
      reflexivity.
  - unfold dev_read. fold mn.
    change (get_object (atomic_inc_numReaders mn w1) mn)
      with (get_object w1 mn).
    rewrite Hobj1. cbn [spin_unlock set_lock blocking]. rewrite Hb1.
    destruct Hmode as [Hnb | (Hbl & Hfit & _ & Hfuel & Htime)].
    + rewrite Hnb. unfold spin_trylock.
      cbn [spin_unlock set_lock operation_synchronizer off_write off_read].
      rewrite Hne, Hread. reflexivity.
    + rewrite Hbl. destruct fuel' as [| fuel']; [contradiction |].
      cbn [read_blocking_loop].
      change (get_object (atomic_inc_numReaders mn w1) mn)
        with (get_object w1 mn).
      rewrite Hobj1.
      assert (Hdeadline :
                deadline msecs_to_jiffies (atomic_inc_numReaders mn w1)
                  (spin_unlock o1)
                - s64 (jiffies (atomic_inc_numReaders mn w1))
                = deadline msecs_to_jiffies w o - s64 (jiffies w)).
      { unfold deadline. cbn [timeout set_lock spin_unlock].
        assert (Ht : timeout o1 = timeout o).
        { pose proof Hchunk as Hs. apply write_chunk_spec in Hs;
            [| exact Hoff | unfold OBJECT_MAX_SIZE; lia].
          destruct Hs as (_ & _ & _ & _ & _ & _ & _ & Ht). exact Ht. }
        rewrite Ht.
        assert (Hj : jiffies (atomic_inc_numReaders mn w1) = jiffies w).
        { unfold w1, exit_write. destruct (0 <? len); reflexivity. }
        rewrite Hj. reflexivity. }
      rewrite Hdeadline.
      destruct (Z.ltb_spec (s64 (deadline msecs_to_jiffies w o
                                 - s64 (jiffies w))) 0) as [Hneg | _];
        [lia |].
      cbn [spin_unlock set_lock operation_synchronizer off_write off_read].
      assert (Hpos : (s32 (off_write o1 - off_read o1) <=? 0) = false).
      { rewrite Hr1v, Hw1v. unfold OBJECT_MAX_SIZE in Hfit.
        destruct (Z.leb_spec len (4096 - off_write o)); [| lia].
        rewrite s32_small by lia. apply Z.leb_gt. lia. }
      rewrite Hpos. change (s32 1 =? 0) with false. cbn iota.
      unfold spin_trylock.
      change (get_object (atomic_inc_numReaders mn w1) mn)
        with (get_object w1 mn).
      rewrite Hobj1.
      cbn [spin_unlock set_lock operation_synchronizer off_write off_read].
      rewrite Hne, Hread.
      unfold OBJECT_MAX_SIZE in Hfit. rewrite Hlen' by lia.
      rewrite u64_small by lia. rewrite Z.eqb_refl. reflexivity.
  - rewrite Hnum2, Hnum1. replace (0 + len - len) with 0 by lia. reflexivity.
  - rewrite Hobj2. cbn [spin_unlock set_lock off_read off_write].
    rewrite Hw2v, Hr2v. reflexivity.
Qed.

Example ciao_round_trip :
  exists w1 w2,
    dev_write msecs_to_jiffies_250 boot session0 ciao 4 true 1
    = Some (4, w1) /\
    dev_read msecs_to_jiffies_250 w1 session0 (replicate 4 x00) 4 1
    = Some (4, ciao, w2) /\
    get_numBytes w2 0 = 0 /\
    off_read (get_object w2 0) = off_write (get_object w2 0).
Proof.
  apply (high_round_trip msecs_to_jiffies_250 boot session0 ciao
           (replicate 4 x00) true 1 1); try reflexivity.
  - vm_compute. lia.
  - vm_compute. lia.
  - vm_compute. split; discriminate.
  - vm_compute. split; reflexivity.
  - right. split; [reflexivity |]. split; [vm_compute; discriminate |].
    split; [discriminate |]. split; [discriminate |].
    vm_compute. discriminate.
Defined.

(** ** The states of the examples *)

Lemma boot_invariant : driver_invariant boot.
Proof. apply driver_invariant_init. Qed.

Lemma boot_low_invariant : driver_invariant boot_low.
Proof.
  apply dev_ioctl_invariant; [exact boot_invariant | vm_compute; lia].
Qed.

Lemma boot_ciao_invariant : driver_invariant boot_ciao.
Proof.
  apply (dev_write_invariant msecs_to_jiffies_250 boot session0 ciao 4 true 1
           4 boot_ciao boot_invariant).
  - vm_compute. lia.
  - vm_compute. split; discriminate.
  - reflexivity.
Qed.


Lemma minor0 : (get_minor session0 < MINORS)%nat.
Proof. vm_compute. lia. Qed.

Lemma len4 : 0 <= 4 <= MAX_RW_COUNT.
Proof. vm_compute. split; discriminate. Qed.

(** ** The flow as a queue of bytes *)

Lemma store_inside data : forall mem dst i b,
  data !! i = Some b -> store mem dst data (dst + Z.of_nat i) = b.
Proof.
  induction data as [| c rest IH]; intros mem dst i b Hi; [discriminate |].
  destruct i as [| i]; cbn [store].
  - injection Hi as ->. rewrite store_outside by lia.
    rewrite Z.add_0_r, Z.eqb_refl. reflexivity.
  - replace (dst + Z.of_nat (S i)) with (dst + 1 + Z.of_nat i) by lia.
    apply IH. exact Hi.
Qed.

Lemma ring_load_lookup mem off n i :
  (i < n)%nat ->
  ring_load mem off n !! i = Some (mem ((off + Z.of_nat i) mod OBJECT_MAX_SIZE)).
Proof.
  intros Hi. unfold ring_load. rewrite list_lookup_fmap.
  rewrite lookup_seq_lt by exact Hi. reflexivity.
Qed.

Lemma length_ring_load mem off n : length (ring_load mem off n) = n.
Proof. unfold ring_load. rewrite length_map, length_seq. reflexivity. Qed.

Lemma load_lookup n : forall mem src i,
  (i < n)%nat -> load mem src n !! i = Some (mem (src + Z.of_nat i)).
Proof.
  induction n as [| n IH]; intros mem src i Hi; [lia |].
  destruct i as [| i]; cbn [load].
  - cbn. rewrite Z.add_0_r. reflexivity.
  - cbn [lookup list_lookup]. rewrite IH by lia. do 2 f_equal. lia.
Qed.

(** Bytes placed after the bytes of a flow, by a copy that reaches no
    further than [reach] cells from the write cursor and so leaves the
    cells of the flow alone, are appended to it. *)
Lemma ring_append mem mem' off_r off_w data (bip : nat) reach :
  0 <= off_r <= OBJECT_MAX_SIZE -> 0 <= off_w <= OBJECT_MAX_SIZE ->
  Z.of_nat bip = (off_w - off_r) mod OBJECT_MAX_SIZE ->
  Z.of_nat (length data) <= reach ->
  Z.of_nat bip + reach <= OBJECT_MAX_SIZE ->
  Z.of_nat bip + Z.of_nat (length data) < OBJECT_MAX_SIZE ->
  (forall i b, data !! i = Some b ->
     mem' ((off_w + Z.of_nat i) mod OBJECT_MAX_SIZE) = b) ->
  (forall a, 0 <= a < OBJECT_MAX_SIZE ->
     reach <= (a - off_w) mod OBJECT_MAX_SIZE ->
     mem' a = mem a) ->
  ring_load mem' off_r (bip + length data) = ring_load mem off_r bip ++ data.
Proof.
  unfold OBJECT_MAX_SIZE. intros Hr Hw Hbip Hreach Hroom Hlt Hnew Hold.
  apply list_eq. intros i.
  destruct (decide (i < bip)%nat) as [Hlt1 | Hge].
  - rewrite lookup_app_l by (rewrite length_ring_load; exact Hlt1).
    rewrite !ring_load_lookup by lia. f_equal.
    apply Hold; [apply Z.mod_pos_bound; lia |].
    unfold OBJECT_MAX_SIZE. Z.div_mod_to_equations. lia.
  - rewrite lookup_app_r by (rewrite length_ring_load; lia).
    rewrite length_ring_load.
    destruct (decide (i < bip + length data)%nat) as [Hlt2 | Hge2].
    + rewrite ring_load_lookup by exact Hlt2.
      destruct (data !! (i - bip)%nat) as [b |] eqn:Hb.
      * f_equal. rewrite <- (Hnew _ _ Hb). f_equal.
        unfold OBJECT_MAX_SIZE. Z.div_mod_to_equations. lia.
      * apply lookup_ge_None in Hb. lia.
    + rewrite !lookup_ge_None_2; [reflexivity | lia |].
      rewrite length_ring_load. lia.
Qed.

Lemma copy_from_user_data buff n data uncopied :
  0 <= n -> copy_from_user buff n = (data, uncopied) ->
  length data = Z.to_nat n /\
  uncopied = n - Z.min n (Z.of_nat (length buff)) /\
  forall i b, (i < Z.to_nat n)%nat -> buff !! i = Some b ->
    data !! i = Some b.
Proof.
  intros Hn H. unfold copy_from_user in H. cbv zeta in H.
  injection H as <- <-. split; [| split; [reflexivity |]].
  - rewrite length_app, length_take, length_replicate. lia.
  - intros i b Hi Hb. pose proof (lookup_lt_Some _ _ _ Hb) as Hlt.
    rewrite lookup_app_l by (rewrite length_take; lia).
    rewrite lookup_take_lt by lia. exact Hb.
Qed.

(** The cells of the page after the copy of a payload: the bytes that
    could be read from the user lie from the write cursor on, going round
    the end of the page, and the cells that are [len] or more cells away
    from the write cursor are as before. *)
Lemma write_chunk_cells o buff len o1 r :
  0 <= off_write o <= OBJECT_MAX_SIZE -> 0 <= len < OBJECT_MAX_SIZE ->
  write_chunk o buff len = (o1, r) ->
  (forall i b, (i < Z.to_nat len)%nat -> buff !! i = Some b ->
     stream_content o1 ((off_write o + Z.of_nat i) mod OBJECT_MAX_SIZE) = b) /\
  (forall a, 0 <= a < OBJECT_MAX_SIZE ->
     len <= (a - off_write o) mod OBJECT_MAX_SIZE ->
     stream_content o1 a = stream_content o a).
Proof.
  unfold OBJECT_MAX_SIZE. intros Hw Hlen H.
  unfold write_chunk, OBJECT_MAX_SIZE in H.
  rewrite (u64_small (4096 - off_write o)) in H by lia.
  destruct (Z.ltb_spec (4096 - off_write o) len) as [Hsplit | Hfit].
  - destruct (copy_from_user buff (4096 - off_write o)) as [d1 u1] eqn:Hc1.
    apply copy_from_user_data in Hc1; [| lia].
    destruct Hc1 as (Hl1 & Hu1 & Hd1).
    remember (Z.min (4096 - off_write o) (Z.of_nat (length buff))) as k1
      eqn:Hk1.
    rewrite Hu1 in H.
    rewrite (s32_small (4096 - off_write o - k1)) in H by lia.
    rewrite (s32_small (len + off_write o - 4096)) in H by lia.
    replace (0 + (4096 - off_write o - (4096 - off_write o - k1))) with k1
      in H by lia.
    rewrite (s32_small k1) in H by lia.
    rewrite (u64_small k1) in H by lia.
    destruct (Z.ltb_spec 0 (len + off_write o - 4096)) as [_ | Hc]; [| lia].
    destruct (Z.eqb_spec k1 (4096 - off_write o)) as [Hfull | Hpart].
    + cbn [andb] in H.
      rewrite (u64_small (len + off_write o - 4096)) in H by lia.
      destruct (copy_from_user (drop (Z.to_nat k1) buff)
                  (len + off_write o - 4096)) as [d2 u2] eqn:Hc2.
      apply copy_from_user_data in Hc2; [| lia].
      destruct Hc2 as (Hl2 & _ & Hd2).
      injection H as <- _. proj_simpl. split.
      * intros i b Hi Hb.
        destruct (decide (i < Z.to_nat (4096 - off_write o))%nat)
          as [Hfirst | Hsecond].
        -- rewrite Z.mod_small by lia.
           rewrite store_outside by lia.
           apply store_inside. apply Hd1; assumption.
        -- replace ((off_write o + Z.of_nat i) mod 4096)
             with (0 + Z.of_nat (i - Z.to_nat k1))
             by (Z.div_mod_to_equations; lia).
           apply store_inside. apply Hd2; [lia |].
           rewrite lookup_drop. rewrite <- Hb. f_equal. lia.
      * intros a Ha Hrel.
        rewrite store_outside by (Z.div_mod_to_equations; lia).
        apply store_outside. Z.div_mod_to_equations. lia.
    + cbn [andb] in H. injection H as <- _. proj_simpl. split.
      * intros i b Hi Hb. pose proof (lookup_lt_Some _ _ _ Hb) as Hlt.
        rewrite Z.mod_small by lia.
        apply store_inside. apply Hd1; [lia | exact Hb].
      * intros a Ha Hrel. apply store_outside.
        Z.div_mod_to_equations. lia.
  - destruct (copy_from_user buff len) as [d1 u1] eqn:Hc1.
    apply copy_from_user_data in Hc1; [| lia].
    destruct Hc1 as (Hl1 & _ & Hd1).
    cbn [Z.ltb Z.compare andb] in H.
    injection H as <- _. proj_simpl. split.
    + intros i b Hi Hb. rewrite Z.mod_small by lia.
      apply store_inside. apply Hd1; assumption.
    + intros a Ha Hrel. apply store_outside.
      Z.div_mod_to_equations. lia.
Qed.

(** The body that both modes of the high-priority write run once they
    hold the lock: the test on the room, the copy, and exit_write. *)
Lemma high_write_body (w : driver) (mn : nat) (buff : list byte) (len : Z) :
  let o := get_object w mn in
  driver_invariant w -> (mn < MINORS)%nat -> 0 <= len <= MAX_RW_COUNT ->
  exists r w',
    (if file_is_full w mn len
     then Some (exit_write mn 0 (set_object mn (set_lock true o) w))
     else let '(o1, result) := write_chunk (set_lock true o) buff len in
          Some (exit_write mn result (set_object mn o1 w)))
    = Some (r, w') /\
    (OBJECT_MAX_SIZE <= get_numBytes w mn + len -> r = 0 /\ w' = w) /\
    (get_numBytes w mn + len < OBJECT_MAX_SIZE ->
     r = Z.min len (Z.of_nat (length buff)) /\
     flow_bytes (get_object w' mn)
     = flow_bytes o ++ take (Z.to_nat len) buff /\
     get_numBytes w' mn = get_numBytes w mn + r /\
     workqueue w' = workqueue w).
Proof.
  intros o Hinv Hmn Hlen.
  pose proof Hinv as (Hlo & Hlb & Hq & Hflow).
  destruct (Hflow mn Hmn) as (Hlock & Hr & Hw & Hnb & Heq).
  fold o in Hlock, Hr, Hw, Heq.
  pose proof (pending_nonneg _ mn Hq) as Hpend.
  assert (Hfull : file_is_full w mn len = true
                  <-> OBJECT_MAX_SIZE <= get_numBytes w mn + len).
  { apply file_is_full_spec; [unfold OBJECT_MAX_SIZE in Hnb; lia | exact Hlen]. }
  destruct (file_is_full w mn len) eqn:Hf.
  - pose proof (proj1 Hfull eq_refl) as Hge.
    unfold o. rewrite exit_write_unchanged by (exact Hlock || lia).
    exists 0, w. split; [reflexivity |]. split; [auto | lia].
  - assert (Hroom : get_numBytes w mn + len < OBJECT_MAX_SIZE).
    { destruct (Z.le_gt_cases OBJECT_MAX_SIZE (get_numBytes w mn + len))
        as [Hge | Hlt]; [| exact Hlt].
      apply Hfull in Hge. discriminate Hge. }
    destruct (write_chunk (set_lock true o) buff len) as [o1 r1] eqn:Hchunk.
    pose proof Hchunk as Hspec.
    apply write_chunk_spec in Hspec;
      [| exact Hw | unfold OBJECT_MAX_SIZE in *; lia].
    destruct Hspec as (Hr1 & Hw1 & Hw1v & Hr1v & _).
    apply write_chunk_cells in Hchunk;
      [| exact Hw | unfold OBJECT_MAX_SIZE in *; lia].
    cbn [off_write off_read stream_content set_lock] in Hchunk, Hw1v, Hr1v.
    destruct Hchunk as (Hnew & Hold).
    destruct (exit_write_views w mn o1 r1) as (Hobj & Hnum & _);
      [lia | lia |].
    exists r1, (snd (exit_write mn r1 (set_object mn o1 w))).
    split; [reflexivity |]. split; [lia |].
    intros _. split; [exact Hr1 |]. cbv zeta in Hobj, Hnum.
    assert (Hlen1 : Z.of_nat (length (take (Z.to_nat len) buff)) = r1).
    { rewrite length_take. lia. }
    split; [| split].
    + rewrite Hobj. unfold flow_bytes, bytes_in_page.
      cbn [spin_unlock set_lock stream_content off_read off_write].
      rewrite Hr1v. fold (bytes_in_page o).
      assert (Hbip : 0 <= bytes_in_page o <= get_numBytes w mn).
      { unfold bytes_in_page, OBJECT_MAX_SIZE in *.
        split; [Z.div_mod_to_equations; lia | lia]. }
      assert (Hcount : Z.to_nat ((off_write o1 - off_read o)
                                 mod OBJECT_MAX_SIZE)
                       = (Z.to_nat (bytes_in_page o)
                          + length (take (Z.to_nat len) buff))%nat).
      { assert (Hz : (off_write o1 - off_read o) mod OBJECT_MAX_SIZE
                     = bytes_in_page o + r1).
        { clear Hnew Hold Hobj Hnum Hfull.
          unfold bytes_in_page, OBJECT_MAX_SIZE in *.
          destruct Hw1v as [-> | ->]; Z.div_mod_to_equations; lia. }
        rewrite Hz. lia. }
      rewrite Hcount. apply (ring_append _ _ _ (off_write o) _ _ len).
      * exact Hr.
      * exact Hw.
      * unfold bytes_in_page. rewrite Z2Nat.id; [reflexivity |].
        unfold bytes_in_page in Hbip. lia.
      * lia.
      * rewrite Z2Nat.id by lia. lia.
      * rewrite Z2Nat.id by lia. lia.
      * intros i b Hi.
        pose proof (lookup_lt_Some _ _ _ Hi) as Hlt.
        rewrite length_take in Hlt.
        rewrite lookup_take_lt in Hi by lia.
        apply Hnew; [lia | exact Hi].
      * exact Hold.
    + rewrite Hnum. destruct (Z.ltb_spec 0 r1).
      * apply u32_small. unfold OBJECT_MAX_SIZE in *. lia.
      * lia.
    + unfold exit_write. destruct (0 <? r1); reflexivity.
Qed.

(** X1.  A high-priority write appends to the flow.  Between two calls, a
    high-priority write of [len] bytes, blocking or not, is refused with
    0 and changes nothing when numBytes + len >= OBJECT_MAX_SIZE.
    Otherwise it returns the number of bytes that it could read from the
    caller, [len] for a readable buffer; the bytes of the flow are those
    of before followed by these bytes, also when the copy goes round the
    end of the page; numBytes has grown by that number, and no work is
    scheduled. *)
Theorem high_write_appends (msecs_to_jiffies : Z -> Z) (w : driver)
    (filp : file) (buff : list byte) (len : Z) (kzalloc_ok : bool)
    (fuel : nat) :
  let mn := get_minor filp in
  let o := get_object w mn in
  driver_invariant w -> (mn < MINORS)%nat -> priority o = true ->
  0 <= len <= MAX_RW_COUNT ->
  (blocking o = true -> fuel <> O) ->
  exists r w',
    dev_write msecs_to_jiffies w filp buff len kzalloc_ok fuel
    = Some (r, w') /\
    (OBJECT_MAX_SIZE <= get_numBytes w mn + len -> r = 0 /\ w' = w) /\
    (get_numBytes w mn + len < OBJECT_MAX_SIZE ->
     r = Z.min len (Z.of_nat (length buff)) /\
     flow_bytes (get_object w' mn)
     = flow_bytes o ++ take (Z.to_nat len) buff /\
     get_numBytes w' mn = get_numBytes w mn + r /\
     workqueue w' = workqueue w).
Proof.
  intros mn o Hinv Hmn Hhigh Hlen Hfuel.
  pose proof Hinv as (Hlo & _ & _ & Hflow).
  destruct (Hflow mn Hmn) as (Hlock & _). fold o in Hlock.
  pose proof (high_write_body w mn buff len Hinv Hmn Hlen) as Hbody.
  cbv zeta in Hbody. fold o in Hbody.
  unfold dev_write. fold mn. fold o. rewrite Hhigh.
  destruct (blocking o) eqn:Hmode.
  - (* blocking: the test of the deadline never holds *)
    destruct fuel as [| fuel]; [exfalso; apply Hfuel; reflexivity |].
    cbn [high_blocking_loop].
    destruct (Z.ltb_spec (u64 (deadline msecs_to_jiffies w o
                               - s64 (jiffies w))) 0) as [Hneg | _].
    { pose proof (u64_range (deadline msecs_to_jiffies w o
                             - s64 (jiffies w))). lia. }
    unfold spin_trylock. fold o. rewrite Hlock. exact Hbody.
  - (* non-blocking: a full file is left without exit_write *)
    unfold spin_trylock. rewrite Hlock.
    destruct Hbody as (r & w' & Hb & Hres). exists r, w'.
    split; [| exact Hres].
    destruct (file_is_full w mn len); [| exact Hb].
    rewrite <- Hb. unfold o.
    rewrite exit_write_unchanged by (exact Hlock || lia).
    rewrite set_object_unlock_lock by exact Hlock. reflexivity.
Qed.

Lemma high_write_appends_witness :
  driver_invariant boot /\
  priority (get_object boot 0) = true /\
  exists r w',
    dev_write msecs_to_jiffies_250 boot session0 ciao 4 true 1
    = Some (r, w') /\
    (OBJECT_MAX_SIZE <= get_numBytes boot 0 + 4 -> r = 0 /\ w' = boot) /\
    (get_numBytes boot 0 + 4 < OBJECT_MAX_SIZE ->
     r = Z.min 4 (Z.of_nat (length ciao)) /\
     flow_bytes (get_object w' 0)
     = flow_bytes (get_object boot 0) ++ take (Z.to_nat 4) ciao /\
     get_numBytes w' 0 = get_numBytes boot 0 + r /\
     workqueue w' = workqueue boot).
Proof.
  split; [exact boot_invariant |]. split; [reflexivity |].
  apply (high_write_appends msecs_to_jiffies_250 boot session0 ciao 4 true 1).
  - exact boot_invariant.
  - exact minor0.
  - reflexivity.
  - exact len4.
  - intros _. discriminate.
Defined.

Lemma ring_load_take mem off n k :
  (k <= n)%nat -> take k (ring_load mem off n) = ring_load mem off k.
Proof.
  intros Hk. apply list_eq. intros i.
  destruct (decide (i < k)%nat) as [Hlt | Hge].
  - rewrite lookup_take_lt by exact Hlt.
    rewrite !ring_load_lookup by lia. reflexivity.
  - rewrite lookup_take_ge by lia.
    rewrite lookup_ge_None_2; [reflexivity |]. rewrite length_ring_load. lia.
Qed.

Lemma ring_load_drop mem off off' n k :
  (k <= n)%nat ->
  (off' - (off + Z.of_nat k)) mod OBJECT_MAX_SIZE = 0 ->
  ring_load mem off' (n - k) = drop k (ring_load mem off n).
Proof.
  unfold OBJECT_MAX_SIZE. intros Hk Hoff. apply list_eq. intros i.
  rewrite lookup_drop.
  destruct (decide (i < n - k)%nat) as [Hlt | Hge].
  - rewrite !ring_load_lookup by lia. do 2 f_equal.
    unfold OBJECT_MAX_SIZE. Z.div_mod_to_equations. lia.
  - rewrite !lookup_ge_None_2; [reflexivity | |];
      rewrite length_ring_load; lia.
Qed.

(** The user memory after the copy out of the page: its first [len] bytes
    are those of the ring from the read cursor on, the rest is as before. *)
Lemma read_chunk_bytes o buff len o1 b1 len' len2' r :
  0 <= off_read o <= OBJECT_MAX_SIZE -> 0 <= len < OBJECT_MAX_SIZE ->
  len <= Z.of_nat (length buff) ->
  read_chunk o buff len 0 0 = (o1, b1, len', len2', r) ->
  take (Z.to_nat len) b1
  = ring_load (stream_content o) (off_read o) (Z.to_nat len) /\
  drop (Z.to_nat len) b1 = drop (Z.to_nat len) buff.
Proof.
  intros Hr Hlen Hbuff H.
  apply read_chunk_content in H;
    [| exact Hr | unfold OBJECT_MAX_SIZE in *; lia | exact Hbuff].
  cbv zeta in H. destruct H as (-> & _). unfold OBJECT_MAX_SIZE in *.
  set (len1 := Z.to_nat (Z.min len (4096 - off_read o))).
  set (A := load (stream_content o) (off_read o) len1).
  set (B := load (stream_content o) 0
              (Z.to_nat (len - Z.min len (4096 - off_read o)))).
  assert (HA : length A = len1) by apply length_load.
  assert (HB : length B = (Z.to_nat len - len1)%nat)
    by (unfold B; rewrite length_load; lia).
  split; apply list_eq; intros i.
  - destruct (decide (i < Z.to_nat len)%nat) as [Hlt | Hge].
    + rewrite lookup_take_lt by exact Hlt.
      rewrite ring_load_lookup by exact Hlt.
      destruct (decide (i < len1)%nat) as [Hfirst | Hsecond].
      * rewrite list_lookup_inserts_lt by exact Hfirst.
        rewrite list_lookup_inserts by lia.
        unfold A. rewrite load_lookup by lia. do 2 f_equal.
        unfold OBJECT_MAX_SIZE. rewrite Z.mod_small by lia. lia.
      * rewrite list_lookup_inserts by (rewrite ?length_inserts; lia).
        unfold B. rewrite load_lookup by lia. do 2 f_equal.
        unfold OBJECT_MAX_SIZE. Z.div_mod_to_equations. lia.
    + rewrite lookup_take_ge by lia.
      rewrite lookup_ge_None_2; [reflexivity |].
      rewrite length_ring_load. lia.
  - rewrite !lookup_drop.
    rewrite list_lookup_inserts_ge by lia.
    rewrite list_lookup_inserts_ge by lia. reflexivity.
Qed.

Lemma read_chunk_stream o buff len len_2nd result o1 b1 len' len2' r :
  read_chunk o buff len len_2nd result = (o1, b1, len', len2', r) ->
  stream_content o1 = stream_content o.
Proof.
  unfold read_chunk.
  destruct (u64 (OBJECT_MAX_SIZE - off_read o) <? len);
    destruct (copy_to_user _ _ _) as [b2 u2];
    destruct (_ && _);
    try destruct (copy_to_user _ _ _) as [b3 u3];
    intros H; injection H as <- _ _ _ _; reflexivity.
Qed.

(** X2.  A read takes the oldest bytes.  Between two calls, a read of [len]
    bytes, no more than the page holds, into memory that can take them
    returns [len]: the caller receives the first [len] bytes of the flow,
    the rest of its memory is untouched, the flow keeps the bytes after
    them, and numBytes has gone down by [len].  This holds in the
    non-blocking mode wherever the cursors stand, and in the blocking
    mode when the write cursor is ahead of the read cursor and the
    deadline has not passed. *)
Theorem read_takes_oldest (msecs_to_jiffies : Z -> Z) (w : driver)
    (filp : file) (buff : list byte) (len : Z) (fuel : nat) :
  let mn := get_minor filp in
  let o := get_object w mn in
  driver_invariant w -> (mn < MINORS)%nat ->
  0 <= len <= bytes_in_page o -> len <= Z.of_nat (length buff) ->
  (blocking o = true ->
   fuel <> O /\ 0 < off_write o - off_read o /\
   0 <= s64 (deadline msecs_to_jiffies w o - s64 (jiffies w))) ->
  exists buff' w',
    dev_read msecs_to_jiffies w filp buff len fuel = Some (len, buff', w') /\
    take (Z.to_nat len) buff' = take (Z.to_nat len) (flow_bytes o) /\
    drop (Z.to_nat len) buff' = drop (Z.to_nat len) buff /\
    flow_bytes (get_object w' mn) = drop (Z.to_nat len) (flow_bytes o) /\
    get_numBytes w' mn = get_numBytes w mn - len.
Proof.
  intros mn o Hinv Hmn Hlen Hbuff Hmode.
  pose proof Hinv as (Hlo & Hlb & Hq & Hflow).
  destruct (Hflow mn Hmn) as (Hlock & Hr & Hw & Hnb & Heq).
  fold o in Hlock, Hr, Hw, Heq.
  pose proof (pending_nonneg _ mn Hq) as Hpend.
  assert (Hbip : bytes_in_page o < OBJECT_MAX_SIZE) by lia.
  set (w1 := atomic_inc_numReaders mn w).
  (* what an empty result leaves *)
  assert (Hidle : forall w2,
            get_object w2 mn = o -> get_numBytes w2 mn = get_numBytes w mn ->
            len = 0 ->
            take (Z.to_nat len) buff = take (Z.to_nat len) (flow_bytes o) /\
            drop (Z.to_nat len) buff = drop (Z.to_nat len) buff /\
            flow_bytes (get_object (snd (exit_read mn 0 buff w2)) mn)
            = drop (Z.to_nat len) (flow_bytes o) /\
            get_numBytes (snd (exit_read mn 0 buff w2)) mn
            = get_numBytes w mn - len).
  { intros w2 Ho Hb ->. cbn [Z.to_nat take drop].
    split; [reflexivity |]. split; [reflexivity |].
    unfold exit_read. cbn [Z.ltb Z.compare snd].
    change (get_object (atomic_dec_numReaders mn w2) mn)
      with (get_object w2 mn).
    change (get_numBytes (atomic_dec_numReaders mn w2) mn)
      with (get_numBytes w2 mn).
    rewrite Ho, Hb. split; [reflexivity | lia]. }
  (* what a copy leaves *)
  assert (Hdone : forall o1 b1 len' len2' r1,
            read_chunk (set_lock true o) buff len 0 0
            = (o1, b1, len', len2', r1) ->
            r1 = len /\
            take (Z.to_nat len) b1 = take (Z.to_nat len) (flow_bytes o) /\
            drop (Z.to_nat len) b1 = drop (Z.to_nat len) buff /\
            flow_bytes
              (get_object
                 (snd (exit_read mn r1 b1
                         (set_object mn (spin_unlock o1) w1))) mn)
            = drop (Z.to_nat len) (flow_bytes o) /\
            get_numBytes
              (snd (exit_read mn r1 b1 (set_object mn (spin_unlock o1) w1)))
              mn
            = get_numBytes w mn - len /\
            (len <= OBJECT_MAX_SIZE - off_read o -> len' = len)).
  { intros o1 b1 len' len2' r1 Hchunk.
    pose proof Hchunk as Hstream.
    pose proof Hchunk as Hspec.
    apply read_chunk_spec in Hspec;
      [| exact Hr | unfold OBJECT_MAX_SIZE in *; lia | exact Hbuff].
    cbn [off_write off_read set_lock] in Hspec.
    destruct Hspec as (-> & Hr1 & Hr1v & Hw1v & _ & Hlen').
    apply read_chunk_bytes in Hchunk;
      [| exact Hr | unfold OBJECT_MAX_SIZE in *; lia | exact Hbuff].
    cbn [off_read stream_content set_lock] in Hchunk.
    destruct Hchunk as (Htake & Hdrop).
    destruct (exit_read_views w mn (spin_unlock o1) len b1) as (Hobj & Hnum);
      [lia | lia |]. cbv zeta in Hobj, Hnum. fold w1 in Hobj, Hnum.
    split; [reflexivity |]. split; [| split; [exact Hdrop | split; [| split]]].
    - rewrite Htake. unfold flow_bytes. symmetry. apply ring_load_take. lia.
    - rewrite Hobj. unfold flow_bytes, bytes_in_page.
      cbn [spin_unlock set_lock stream_content off_read off_write].
      rewrite Hw1v.
      assert (Hmem : stream_content o1 = stream_content o).
      { apply read_chunk_stream in Hstream. exact Hstream. }
      rewrite Hmem. fold (bytes_in_page o).
      assert (Hcount : Z.to_nat ((off_write o - off_read o1)
                                 mod OBJECT_MAX_SIZE)
                       = (Z.to_nat (bytes_in_page o) - Z.to_nat len)%nat).
      { assert (Hz : (off_write o - off_read o1) mod OBJECT_MAX_SIZE
                     = bytes_in_page o - len).
        { clear Hidle. unfold bytes_in_page, OBJECT_MAX_SIZE in *.
          destruct Hr1v as [Hv | Hv]; rewrite Hv;
            Z.div_mod_to_equations; lia. }
        rewrite Hz. lia. }
      rewrite Hcount. apply ring_load_drop; [lia |].
      rewrite Z2Nat.id by lia. clear Hidle Heq Hlen Hbip.
      unfold OBJECT_MAX_SIZE in *.
      destruct Hr1v as [-> | ->]; Z.div_mod_to_equations; lia.
    - rewrite Hnum. destruct (Z.ltb_spec 0 len); [| lia].
      apply u32_small. unfold OBJECT_MAX_SIZE in *. lia.
    - exact Hlen'. }
  unfold dev_read. fold mn. fold w1.
  change (get_object w1 mn) with o.
  pose proof (bytes_in_page_le _ Hr Hw) as [Hbip0 Hbiple].
  unfold OBJECT_MAX_SIZE in Hr, Hw.
  destruct (blocking o) eqn:Hbl.
  - destruct (Hmode eq_refl) as (Hfuel & Hahead & Htime).
    destruct fuel as [| fuel]; [contradiction |].
    cbn [read_blocking_loop].
    change (get_object w1 mn) with o.
    change (deadline msecs_to_jiffies w1 o - s64 (jiffies w1))
      with (deadline msecs_to_jiffies w o - s64 (jiffies w)).
    destruct (Z.ltb_spec (s64 (deadline msecs_to_jiffies w o
                               - s64 (jiffies w))) 0) as [Hneg | _];
      [lia |].
    rewrite (s32_small (off_write o - off_read o)) by lia.
    destruct (Z.leb_spec (off_write o - off_read o) 0) as [Hc | _]; [lia |].
    change (s32 1 =? 0) with false. cbn iota.
    unfold spin_trylock. change (get_object w1 mn) with o. rewrite Hlock.
    cbn [off_write off_read set_lock].
    rewrite (s32_small (off_write o - off_read o)) by lia.
    destruct (Z.eqb_spec (off_write o - off_read o) 0) as [Hc | _]; [lia |].
    destruct (read_chunk (set_lock true o) buff len 0 0)
      as [[[[o1 b1] len'] len2'] r1] eqn:Hchunk.
    destruct (Hdone _ _ _ _ _ eq_refl) as (-> & Ht & Hd & Hf & Hn & Hlen').
    unfold OBJECT_MAX_SIZE in Hlen'. rewrite Hlen' by lia.
    rewrite u64_small by (unfold OBJECT_MAX_SIZE in *; lia).
    rewrite Z.eqb_refl.
    exists b1, (snd (exit_read mn len b1 (set_object mn (spin_unlock o1) w1))).
    split; [reflexivity |]. auto.
  - unfold spin_trylock. rewrite Hlock.
    cbn [off_write off_read set_lock].
    rewrite (s32_small (off_write o - off_read o)) by lia.
    destruct (Z.eqb_spec (off_write o - off_read o) 0) as [Hempty | _].
    + assert (Hzero : len = 0).
      { unfold bytes_in_page in Hlen. rewrite Hempty in Hlen.
        change (0 mod OBJECT_MAX_SIZE) with 0 in Hlen. lia. }
      exists buff,
        (snd (exit_read mn 0 buff
                (set_object mn (spin_unlock (set_lock true o)) w1))).
      split; [rewrite Hzero; reflexivity |].
      apply Hidle; [| reflexivity | exact Hzero].
      rewrite get_set_object by (cbn [objects w1 atomic_inc_numReaders
                                        set_numReaders]; lia).
      apply unlock_lock. exact Hlock.
    + destruct (read_chunk (set_lock true o) buff len 0 0)
        as [[[[o1 b1] len'] len2'] r1] eqn:Hchunk.
      destruct (Hdone _ _ _ _ _ eq_refl) as (-> & Ht & Hd & Hf & Hn & _).
      exists b1, (snd (exit_read mn len b1 (set_object mn (spin_unlock o1) w1))).
      split; [reflexivity |]. auto.
Qed.

Lemma read_takes_oldest_witness :
  driver_invariant boot_ciao /\
  0 <= 3 <= bytes_in_page (get_object boot_ciao 0) /\
  blocking (get_object boot_ciao 0) = true /\
  exists buff' w',
    dev_read msecs_to_jiffies_250 boot_ciao session0 (replicate 4 x00) 3 1
    = Some (3, buff', w') /\
    take (Z.to_nat 3) buff'
    = take (Z.to_nat 3) (flow_bytes (get_object boot_ciao 0)) /\
    drop (Z.to_nat 3) buff' = drop (Z.to_nat 3) (replicate 4 x00) /\
    flow_bytes (get_object w' 0)
    = drop (Z.to_nat 3) (flow_bytes (get_object boot_ciao 0)) /\
    get_numBytes w' 0 = get_numBytes boot_ciao 0 - 3.
Proof.
  assert (Hlen : 0 <= 3 <= bytes_in_page (get_object boot_ciao 0))
    by (vm_compute; split; discriminate).
  split; [exact boot_ciao_invariant |]. split; [exact Hlen |].
  split; [reflexivity |].
  apply (read_takes_oldest msecs_to_jiffies_250 boot_ciao session0
           (replicate 4 x00) 3 1).
  - exact boot_ciao_invariant.
  - exact minor0.
  - exact Hlen.
  - vm_compute. discriminate.
  - intros _. split; [discriminate |].
    split; [reflexivity | vm_compute; discriminate].
Defined.

(** ** delayed_work: the bytes that it appends *)

Lemma cstring_cons b p :
  cstring (b :: p) = b :: p -> is_nul b = false /\ cstring p = p.
Proof.
  cbn [cstring]. destruct (is_nul b); [discriminate |].
  intros H. injection H as H. auto.
Qed.

Lemma cstring_take p : forall k, cstring p = p -> cstring (take k p) = take k p.
Proof.
  induction p as [| b p IH]; intros k H; [destruct k; reflexivity |].
  apply cstring_cons in H as (Hb & Hp).
  destruct k as [| k]; [reflexivity |].
  cbn [take cstring]. rewrite Hb, IH by exact Hp. reflexivity.
Qed.

Lemma cstring_drop p : forall k, cstring p = p -> cstring (drop k p) = drop k p.
Proof.
  induction p as [| b p IH]; intros k H; [destruct k; reflexivity |].
  destruct k as [| k]; [exact H |].
  apply cstring_cons in H as (_ & Hp). cbn [drop]. apply IH. exact Hp.
Qed.

(** The cells of the page after the deferred copy of a payload without
    zero byte: the payload lies from the write cursor on, going round the
    end of the page, and the cells that are more than its length away
    from the write cursor are as before. *)
Lemma delayed_work_cells (w : driver) (the_work : packed_work)
    (payload rest : list byte) :
  let mn := minor the_work in
  let o := get_object w mn in
  let o' := get_object (delayed_work the_work w) mn in
  let n := Z.of_nat (length payload) in
  (mn < length (objects w))%nat ->
  buffer the_work = payload ++ x00 :: rest ->
  copiedBytes the_work = n ->
  cstring payload = payload ->
  0 <= off_write o <= OBJECT_MAX_SIZE -> n < OBJECT_MAX_SIZE ->
  (forall i b, payload !! i = Some b ->
     stream_content o' ((off_write o + Z.of_nat i) mod OBJECT_MAX_SIZE) = b) /\
  (forall a, 0 <= a < OBJECT_MAX_SIZE ->
     n + 1 <= (a - off_write o) mod OBJECT_MAX_SIZE ->
     stream_content o' a = stream_content o a) /\
  (off_write o' = off_write o + n \/
   off_write o' = off_write o + n - OBJECT_MAX_SIZE) /\
  0 <= off_write o' <= OBJECT_MAX_SIZE /\
  off_read o' = off_read o /\
  same_settings (spin_unlock o) o'.
Proof.
  intros mn o o' n Hmn Hbuf Hn Hc Hoff Hsmall.
  assert (Ho' : o' = get_object (delayed_work the_work w) mn) by reflexivity.
  unfold mn in Ho'. rewrite delayed_work_object in Ho' by exact Hmn.
  fold mn in Ho'. fold o in Ho'. rewrite Hn, Hbuf in Ho'.
  unfold OBJECT_MAX_SIZE in *.
  rewrite (s32_small (4096 - off_write o)) in Ho' by lia.
  rewrite Z.geb_leb in Ho'.
  destruct (Z.leb_spec n (4096 - off_write o)) as [Hfit | Hwrap].
  - rewrite (s32_small (off_write o + n)) in Ho' by lia.
    clearbody o'. subst o'. unfold same_settings. proj_simpl.
    unfold strcpy. rewrite cstring_app_nul, Hc.
    split; [| split; [| split; [| split; [| split]]]];
      try (reflexivity || lia || auto).
    + intros i b Hi. pose proof (lookup_lt_Some _ _ _ Hi) as Hlt.
      rewrite Z.mod_small by lia. apply store_inside.
      apply lookup_app_l_Some. exact Hi.
    + intros a Ha Hrel. apply store_outside. rewrite length_app.
      cbn [length]. Z.div_mod_to_equations. lia.
  - cbv zeta in Ho'.
    rewrite (s32_small (n + off_write o - 4096)) in Ho' by lia.
    destruct (Z.ltb_spec 0 (n + off_write o - 4096)) as [_ | Hcontra];
      [| lia].
    rewrite (s32_small (0 + _)) in Ho' by lia.
    set (len1 := Z.to_nat (4096 - off_write o)) in *.
    assert (Htake1 : take len1 (payload ++ x00 :: rest) = take len1 payload).
    { apply take_app_le. lia. }
    assert (Htake2 : take (Z.to_nat (n + off_write o - 4096))
                       (drop len1 (payload ++ x00 :: rest))
                     = drop len1 payload).
    { rewrite drop_app_le by lia. apply take_app_length'.
      rewrite length_drop. lia. }
    rewrite Htake1, Htake2 in Ho'.
    clearbody o'. subst o'. unfold same_settings. proj_simpl.
    unfold strcpy.
    replace (take len1 payload ++ [x00]) with (take len1 payload ++ x00 :: [])
      by reflexivity.
    replace (drop len1 payload ++ [x00]) with (drop len1 payload ++ x00 :: [])
      by reflexivity.
    rewrite !cstring_app_nul, cstring_take, cstring_drop by exact Hc.
    assert (Hl1 : length (take len1 payload) = len1)
      by (rewrite length_take; lia).
    assert (Hl2 : Z.of_nat (length (drop len1 payload))
                  = n + off_write o - 4096)
      by (rewrite length_drop; lia).
    split; [| split; [| split; [| split; [| split]]]];
      try (reflexivity || lia || auto).
    + intros i b Hi. pose proof (lookup_lt_Some _ _ _ Hi) as Hlt.
      destruct (decide (i < len1)%nat) as [Hfirst | Hsecond].
      * rewrite Z.mod_small by lia.
        rewrite store_outside by (rewrite length_app; cbn [length]; lia).
        apply store_inside. apply lookup_app_l_Some.
        rewrite lookup_take_lt by exact Hfirst. exact Hi.
      * replace ((off_write o + Z.of_nat i) mod 4096)
          with (0 + Z.of_nat (i - len1))
          by (Z.div_mod_to_equations; lia).
        apply store_inside. apply lookup_app_l_Some.
        rewrite lookup_drop. rewrite <- Hi. f_equal. lia.
    + intros a Ha Hrel.
      rewrite store_outside
        by (rewrite length_app; cbn [length]; Z.div_mod_to_equations; lia).
      apply store_outside. rewrite length_app. cbn [length].
      Z.div_mod_to_equations. lia.
Qed.

(** A payload without zero byte that the deferred work copies joins the
    bytes of the flow at their end. *)
Lemma delayed_work_flow (w : driver) (the_work : packed_work)
    (payload rest : list byte) :
  let mn := minor the_work in
  let o := get_object w mn in
  let w' := delayed_work the_work w in
  let n := Z.of_nat (length payload) in
  (mn < length (objects w))%nat ->
  buffer the_work = payload ++ x00 :: rest ->
  copiedBytes the_work = n ->
  cstring payload = payload ->
  0 <= off_read o <= OBJECT_MAX_SIZE ->
  0 <= off_write o <= OBJECT_MAX_SIZE ->
  bytes_in_page o + n < OBJECT_MAX_SIZE ->
  flow_bytes (get_object w' mn) = flow_bytes o ++ payload /\
  bytes_in_page (get_object w' mn) = bytes_in_page o + n /\
  operation_synchronizer (get_object w' mn) = false /\
  numBytes w' = numBytes w /\
  workqueue w' = workqueue w.
Proof.
  intros mn o w' n Hmn Hbuf Hn Hc Hr Hw Hroom.
  assert (Hbip : 0 <= bytes_in_page o < OBJECT_MAX_SIZE).
  { unfold bytes_in_page. apply Z.mod_pos_bound. reflexivity. }
  destruct (delayed_work_cells w the_work payload rest Hmn Hbuf Hn Hc Hw)
    as (Hnew & Hold & Hw1v & Hw1 & Hr1v & Hset); [lia |].
  fold mn in Hnew, Hold, Hw1v, Hw1, Hr1v, Hset.
  fold o in Hnew, Hold, Hw1v, Hw1, Hr1v, Hset.
  fold w' in Hnew, Hold, Hw1v, Hw1, Hr1v, Hset. fold n in Hold, Hw1v.
  assert (Hz : bytes_in_page (get_object w' mn) = bytes_in_page o + n).
  { clear Hnew Hold Hset. unfold bytes_in_page in *. rewrite Hr1v.
    unfold OBJECT_MAX_SIZE in *.
    destruct Hw1v as [-> | ->]; Z.div_mod_to_equations; lia. }
  split; [| split; [exact Hz |
                    split; [apply Hset |
                            split; [apply delayed_work_numBytes |
                                    apply delayed_work_frame]]]].
  unfold flow_bytes. rewrite Hz, Hr1v.
  replace (Z.to_nat (bytes_in_page o + n))
    with (Z.to_nat (bytes_in_page o) + length payload)%nat by lia.
  apply (ring_append _ _ _ (off_write o) _ _ (n + 1)).
  - exact Hr.
  - exact Hw.
  - unfold bytes_in_page. rewrite Z2Nat.id; [reflexivity |].
    unfold bytes_in_page in Hbip. lia.
  - lia.
  - rewrite Z2Nat.id by lia. lia.
  - rewrite Z2Nat.id by lia. lia.
  - exact Hnew.
  - exact Hold.
Qed.



(** ** A low-priority write and its work item *)

Lemma low_reserve_room w mn len result :
  (mn < length (objects w))%nat -> (mn < length (numBytes w))%nat ->
  file_is_full w mn len = false ->
  exists w1,
    low_reserve mn len result (set_lock true (get_object w mn)) w
    = (s32 (len - result), w1, true) /\
    reserved mn w (s32 (len - result)) w1.
Proof.
  intros Ho Hb Hfull.
  destruct (low_reserve mn len result (set_lock true (get_object w mn)) w)
    as [[r1 w1] sched] eqn:Hres.
  pose proof (low_reserve_spec _ _ _ _ _ _ _ Ho Hb Hres) as Hspec.
  assert (Hs : sched = true).
  { unfold low_reserve in Hres. rewrite Hfull in Hres.
    injection Hres as _ _ <-. reflexivity. }
  subst sched. destruct Hspec as (-> & Hrsv). exists w1. auto.
Qed.

(** A low-priority write that finds the lock free and room in the file:
    it answers with the number of bytes it could read from the caller,
    reserves them, and schedules its work item. *)
Lemma low_write_scheduled (msecs_to_jiffies : Z -> Z) w filp buff len fuel :
  let mn := get_minor filp in
  let o := get_object w mn in
  priority o = false -> operation_synchronizer o = false ->
  (mn < length (objects w))%nat -> (mn < length (numBytes w))%nat ->
  file_is_full w mn len = false -> 0 <= len <= MAX_RW_COUNT ->
  (blocking o = true ->
   fuel <> O /\ 0 <= s64 (deadline msecs_to_jiffies w o - s64 (jiffies w))) ->
  exists the_task w1,
    dev_write msecs_to_jiffies w filp buff len true fuel
    = Some (Z.min len (Z.of_nat (length buff)), schedule_work the_task w1) /\
    reserved mn w (Z.min len (Z.of_nat (length buff))) w1.
Proof.
  intros mn o Hlow Hlock Ho Hb Hfull Hlen Hmode.
  unfold MAX_RW_COUNT in Hlen. change (2 ^ 31 - 4096) with 2147479552 in Hlen.
  unfold dev_write. fold mn. fold o. rewrite Hlow. cbn [negb].
  unfold copy_from_user. cbv zeta.
  remember (Z.min len (Z.of_nat (length buff))) as k eqn:Hk.
  rewrite (s32_small (len - k)) by lia.
  destruct (low_reserve_room w mn len (len - k) Ho Hb Hfull)
    as (w1 & Hres & Hrsv).
  fold o in Hres.
  replace (len - (len - k)) with k in * by lia.
  rewrite (s32_small k) in * by lia.
  destruct (blocking o) eqn:Hbl.
  - destruct (Hmode eq_refl) as (Hfuel & Htime).
    destruct fuel as [| fuel]; [contradiction |].
    cbn [low_blocking_loop].
    destruct (Z.ltb_spec (s64 (deadline msecs_to_jiffies w o
                               - s64 (jiffies w))) 0) as [Hneg | _];
      [lia |].
    unfold spin_trylock. fold o. rewrite Hlock, Hres.
    eexists _, w1. split; [reflexivity | exact Hrsv].
  - unfold spin_trylock. rewrite Hlock, Hres.
    eexists _, w1. split; [reflexivity | exact Hrsv].
Qed.

(** X5.  A low-priority write is delivered by its work item.  On a minor set
    to low priority, with no work pending, a write of a payload without
    zero byte that fits returns the number of bytes read from the caller
    and counts them in numBytes at once, while the bytes of the flow are
    still those of before; the run of the work item then appends the
    payload to the flow. *)
Theorem low_write_delivered (msecs_to_jiffies : Z -> Z) (w : driver)
    (filp : file) (buff : list byte) (len : Z) (fuel : nat) :
  let mn := get_minor filp in
  let o := get_object w mn in
  let payload := take (Z.to_nat len) buff in
  driver_invariant w -> (mn < MINORS)%nat -> priority o = false ->
  workqueue w = [] ->
  0 <= len <= MAX_RW_COUNT -> cstring payload = payload ->
  get_numBytes w mn + len < OBJECT_MAX_SIZE ->
  (blocking o = true ->
   fuel <> O /\ 0 <= s64 (deadline msecs_to_jiffies w o - s64 (jiffies w))) ->
  exists w1,
    dev_write msecs_to_jiffies w filp buff len true fuel
    = Some (Z.of_nat (length payload), w1) /\
    flow_bytes (get_object w1 mn) = flow_bytes o /\
    get_numBytes w1 mn = get_numBytes w mn + Z.of_nat (length payload) /\
    flow_bytes (get_object (run_work w1) mn) = flow_bytes o ++ payload /\
    get_numBytes (run_work w1) mn
    = get_numBytes w mn + Z.of_nat (length payload) /\
    workqueue (run_work w1) = [].
Proof.
  intros mn o payload Hinv Hmn Hlow Hempty Hlen Hc Hroom Hmode.
  pose proof Hinv as (Hlo & Hlb & Hq & Hflow).
  destruct (Hflow mn Hmn) as (Hlock & Hr & Hw & Hnb & Heq).
  fold o in Hlock, Hr, Hw, Heq.
  rewrite Hempty in Heq. cbn [pending] in Heq.
  assert (Hfull : file_is_full w mn len = false).
  { destruct (file_is_full w mn len) eqn:Hf; [| reflexivity].
    apply file_is_full_spec in Hf;
      [lia | unfold OBJECT_MAX_SIZE in Hnb; lia | exact Hlen]. }
  destruct (low_write_scheduled msecs_to_jiffies w filp buff len fuel)
    as (the_task & w1 & Hdw & Hrsv); try assumption; try lia.
  fold mn in Hrsv.
  destruct Hrsv as (Hq1 & Hn1 & Hs1 & Hw1 & Hr1). fold o in Hs1, Hw1, Hr1.
  assert (Hk : Z.min len (Z.of_nat (length buff))
               = Z.of_nat (length payload)).
  { unfold payload. rewrite length_take. lia. }
  rewrite Hk in Hdw, Hn1.
  set (w2 := schedule_work the_task w1) in *.
  assert (Hq2 : workqueue w2 = [the_task]).
  { unfold w2, schedule_work. cbn [workqueue set_workqueue].
    rewrite Hq1, Hempty. reflexivity. }
  pose proof (dev_write_invariant _ _ _ _ _ _ _ _ _ Hinv Hmn Hlen Hdw)
    as (Hlo2 & Hlb2 & _ & _).
  destruct (low_write_task_shape msecs_to_jiffies w filp buff len true fuel
              _ w2 the_task Hlow Hlen Hdw)
    as (Htm & Htn & rest & Htb).
  { rewrite Hq2, Hempty. reflexivity. }
  fold mn in Htm. fold payload in Htn, Htb.
  assert (Hobj : get_object w2 mn = get_object w1 mn) by reflexivity.
  assert (Hflow1 : flow_bytes (get_object w1 mn) = flow_bytes o).
  { unfold flow_bytes, bytes_in_page. rewrite Hs1, Hw1, Hr1. reflexivity. }
  assert (Hnum : get_numBytes w1 mn
                 = get_numBytes w mn + Z.of_nat (length payload)).
  { rewrite Hn1. apply u32_small. unfold OBJECT_MAX_SIZE in *.
    unfold payload. rewrite length_take. lia. }
  exists w2. split; [exact Hdw |]. split; [exact Hflow1 |].
  split; [exact Hnum |].
  unfold run_work. rewrite Hq2.
  set (w3 := set_workqueue [] w2).
  assert (Hobj3 : get_object w3 mn = get_object w1 mn) by reflexivity.
  destruct (delayed_work_flow w3 the_task payload rest)
    as (Hfb & _ & _ & Hnb3 & Hq3).
  - rewrite Htm. change (objects w3) with (objects w2). lia.
  - exact Htb.
  - exact Htn.
  - exact Hc.
  - rewrite Htm, Hobj3, Hr1. exact Hr.
  - rewrite Htm, Hobj3, Hw1. exact Hw.
  - rewrite Htm, Hobj3. unfold bytes_in_page. rewrite Hw1, Hr1.
    fold (bytes_in_page o). unfold payload. rewrite length_take. lia.
  - rewrite Htm, Hobj3 in Hfb. rewrite Hfb.
    split; [rewrite Hflow1; reflexivity |]. split; [| exact Hq3].
    unfold get_numBytes. rewrite Hnb3. exact Hnum.
Qed.

Lemma low_write_delivered_witness :
  driver_invariant boot_low /\
  priority (get_object boot_low 0) = false /\
  workqueue boot_low = [] /\
  cstring (take (Z.to_nat 4) ciao) = take (Z.to_nat 4) ciao /\
  exists w1,
    dev_write msecs_to_jiffies_250 boot_low session0 ciao 4 true 1
    = Some (Z.of_nat (length (take (Z.to_nat 4) ciao)), w1) /\
    flow_bytes (get_object w1 0) = flow_bytes (get_object boot_low 0) /\
    get_numBytes w1 0
    = get_numBytes boot_low 0 + Z.of_nat (length (take (Z.to_nat 4) ciao)) /\
    flow_bytes (get_object (run_work w1) 0)
    = flow_bytes (get_object boot_low 0) ++ take (Z.to_nat 4) ciao /\
    get_numBytes (run_work w1) 0
    = get_numBytes boot_low 0 + Z.of_nat (length (take (Z.to_nat 4) ciao)) /\
    workqueue (run_work w1) = [].
Proof.
  split; [exact boot_low_invariant |]. split; [reflexivity |].
  split; [reflexivity |]. split; [reflexivity |].
  apply (low_write_delivered msecs_to_jiffies_250 boot_low session0 ciao 4 1).
  - exact boot_low_invariant.
  - exact minor0.
  - reflexivity.
  - reflexivity.
  - exact len4.
  - reflexivity.
  - vm_compute. reflexivity.
  - intros _. split; [discriminate | vm_compute; discriminate].
Defined.

(** ** What a call leaves alone *)

Lemma kept_refl mn w : other_minors_kept mn w w.
Proof. unfold other_minors_kept. auto. Qed.

Lemma kept_trans mn w1 w2 w3 :
  other_minors_kept mn w1 w2 -> other_minors_kept mn w2 w3 ->
  other_minors_kept mn w1 w3.
Proof.
  intros (He1 & Hl1 & H1) (He2 & Hl2 & H2).
  split; [congruence |]. split; [congruence |].
  intros mn' Hne. destruct (H1 mn' Hne) as (Ha & Hb & Hc).
  destruct (H2 mn' Hne) as (Ha' & Hb' & Hc').
  split; [congruence |]. split; congruence.
Qed.

Lemma kept_set_object mn o w w1 :
  other_minors_kept mn w w1 -> other_minors_kept mn w (set_object mn o w1).
Proof.
  intros H. apply (kept_trans _ _ w1); [exact H |].
  split; [reflexivity |].
  split; [unfold set_object; cbn [objects]; apply length_insert |].
  intros mn' Hne. split; [| split; reflexivity].
  apply get_set_object_ne. congruence.
Qed.

Lemma kept_set_numBytes mn v w w1 :
  other_minors_kept mn w w1 -> other_minors_kept mn w (set_numBytes mn v w1).
Proof.
  intros H. apply (kept_trans _ _ w1); [exact H |].
  split; [reflexivity |]. split; [reflexivity |].
  intros mn' Hne. split; [reflexivity |]. split; [| reflexivity].
  apply get_set_numBytes_ne. congruence.
Qed.

Lemma kept_set_numReaders mn v w w1 :
  other_minors_kept mn w w1 -> other_minors_kept mn w (set_numReaders mn v w1).
Proof.
  intros H. apply (kept_trans _ _ w1); [exact H |].
  split; [reflexivity |]. split; [reflexivity |].
  intros mn' Hne. split; [reflexivity |]. split; [reflexivity |].
  unfold get_numReaders, set_numReaders. cbn [numReaders].
  apply list_lookup_total_insert_ne. congruence.
Qed.

Lemma kept_set_workqueue mn q w w1 :
  other_minors_kept mn w w1 -> other_minors_kept mn w (set_workqueue q w1).
Proof. intros H. exact H. Qed.

Lemma kept_set_jiffies mn t w w1 :
  other_minors_kept mn w w1 -> other_minors_kept mn w (set_jiffies t w1).
Proof. intros H. exact H. Qed.

Create HintDb kept.
#[local] Hint Resolve kept_refl kept_set_object kept_set_numBytes
  kept_set_numReaders kept_set_workqueue kept_set_jiffies : kept.

Lemma kept_exit_write mn r w w1 :
  other_minors_kept mn w w1 ->
  other_minors_kept mn w (snd (exit_write mn r w1)).
Proof.
  intros H. unfold exit_write, atomic_add_numBytes.
  destruct (0 <? r); cbn [snd]; auto with kept.
Qed.

#[local] Hint Resolve kept_exit_write : kept.

Lemma kept_high_blocking_loop fuel mn jt buff len w r w' :
  high_blocking_loop fuel mn jt buff len w = Some (r, w') ->
  other_minors_kept mn w w'.
Proof.
  induction fuel as [| fuel IH]; [discriminate |].
  cbn [high_blocking_loop]. destruct (_ <? 0).
  { intros H. apply (inj Some) in H.
    replace w' with (snd (exit_write mn 0 w)) by (rewrite H; reflexivity).
    auto with kept. }
  unfold spin_trylock. destruct (operation_synchronizer _); [exact IH |].
  destruct (file_is_full w mn len).
  { intros H. apply (inj Some) in H.
    match type of H with
    | ?e = _ => replace w' with (snd e) by (rewrite H; reflexivity)
    end.
    auto with kept. }
  destruct (write_chunk _ _ _) as [o1 r1].
  intros H. apply (inj Some) in H.
  match type of H with
  | ?e = _ => replace w' with (snd e) by (rewrite H; reflexivity)
  end.
  auto with kept.
Qed.

Lemma kept_low_reserve mn len result o w r w1 sched :
  low_reserve mn len result o w = (r, w1, sched) ->
  other_minors_kept mn w w1.
Proof.
  unfold low_reserve, atomic_add_numBytes.
  destruct (file_is_full w mn len); intros H; injection H as _ <- _;
    auto with kept.
Qed.

Lemma kept_low_blocking_loop fuel mn jt len result w r w1 sched :
  low_blocking_loop fuel mn jt len result w = Some (r, w1, sched) ->
  other_minors_kept mn w w1.
Proof.
  revert w. induction fuel as [| fuel IH]; intros w; [discriminate |].
  cbn [low_blocking_loop]. destruct (_ <? 0).
  { intros H. injection H as _ <- _. auto with kept. }
  unfold spin_trylock. destruct (operation_synchronizer _).
  { intros H. exact (IH (next_turn w) H). }
  intros H. apply (inj Some) in H. eapply kept_low_reserve. exact H.
Qed.

Lemma kept_dev_write (msecs_to_jiffies : Z -> Z) w filp buff len kzalloc_ok
    fuel r w' :
  dev_write msecs_to_jiffies w filp buff len kzalloc_ok fuel = Some (r, w') ->
  other_minors_kept (get_minor filp) w w'.
Proof.
  unfold dev_write. set (mn := get_minor filp). set (o := get_object w mn).
  destruct (priority o).
  - destruct (blocking o); [apply kept_high_blocking_loop |].
    unfold spin_trylock. destruct (operation_synchronizer o).
    + intros H. apply (inj Some) in H.
      replace w' with (snd (exit_write mn 0 w)) by (rewrite H; reflexivity).
      auto with kept.
    + destruct (file_is_full w mn len).
      { intros H. injection H as _ <-. auto with kept. }
      destruct (write_chunk _ _ _) as [o1 r1].
      intros H. apply (inj Some) in H.
      match type of H with
      | ?e = _ => replace w' with (snd e) by (rewrite H; reflexivity)
      end.
      auto with kept.
  - destruct kzalloc_ok; cbn [negb].
    2:{ intros H. injection H as _ <-. auto with kept. }
    destruct (copy_from_user buff len) as [data uncopied].
    match goal with
    | |- match ?out with _ => _ end = _ -> _ =>
        destruct out as [[[r1 w1] sched] |] eqn:Hout
    end; [| discriminate].
    assert (Hk : other_minors_kept mn w w1).
    { destruct (blocking o).
      - eapply kept_low_blocking_loop. exact Hout.
      - unfold spin_trylock in Hout. destruct (operation_synchronizer o).
        + injection Hout as _ <- _. auto with kept.
        + apply (inj Some) in Hout. eapply kept_low_reserve. exact Hout. }
    destruct sched; intros H; injection H as _ <-.
    + unfold schedule_work. auto with kept.
    + exact Hk.
Qed.

Lemma kept_next_turn mn w w1 :
  other_minors_kept mn w w1 -> other_minors_kept mn w (next_turn w1).
Proof. intros H. exact H. Qed.

#[local] Hint Resolve kept_next_turn : kept.

Lemma kept_same mn w w1 :
  enableDriver w1 = enableDriver w -> objects w1 = objects w ->
  numBytes w1 = numBytes w -> numReaders w1 = numReaders w ->
  other_minors_kept mn w w1.
Proof.
  unfold other_minors_kept, get_object, get_numBytes, get_numReaders.
  intros -> -> -> ->. auto.
Qed.

(** With no work pending, a sleep moves the clock only. *)
Lemma wait_event_timeout_idle c t w :
  workqueue w = [] ->
  let w1 := snd (wait_event_timeout c t w) in
  enableDriver w1 = enableDriver w /\ objects w1 = objects w /\
  numBytes w1 = numBytes w /\ numReaders w1 = numReaders w /\
  workqueue w1 = [].
Proof.
  intros Hq. cbv zeta. unfold wait_event_timeout.
  destruct (c w); [cbn [snd]; auto |].
  destruct (t =? 0); [cbn [snd]; auto |].
  cbv zeta. cbn [snd]. rewrite run_pending_nil by exact Hq. auto.
Qed.

(** read_chunk changes the read cursor only. *)
Lemma read_chunk_page_kept o buff len len_2nd result o1 b1 len' len2' r :
  read_chunk o buff len len_2nd result = (o1, b1, len', len2', r) ->
  page_kept o o1 /\ operation_synchronizer o1 = operation_synchronizer o.
Proof.
  unfold read_chunk, page_kept.
  destruct (u64 (OBJECT_MAX_SIZE - off_read o) <? len);
    destruct (copy_to_user _ _ _) as [b2 u2];
    destruct (_ && _);
    try destruct (copy_to_user _ _ _) as [b3 u3];
    intros H; injection H as <- _ _ _ _; auto 10.
Qed.

Lemma page_kept_refl o : page_kept o o.
Proof. unfold page_kept. auto. Qed.

Lemma page_kept_trans o1 o2 o3 :
  page_kept o1 o2 -> page_kept o2 o3 -> page_kept o1 o3.
Proof.
  unfold page_kept. intros (? & ? & ? & ? & ?) (? & ? & ? & ? & ?).
  repeat split; congruence.
Qed.

Lemma page_kept_lock v o : page_kept o (set_lock v o).
Proof. unfold page_kept. auto. Qed.

(** The loop of the blocking read while no work is pending: the other
    minors, the page, the lock and the queue. *)
Lemma read_blocking_loop_frame fuel :
  forall mn jt w buff len len2 res w' buff' r,
  (mn < length (objects w))%nat -> workqueue w = [] ->
  read_blocking_loop fuel mn jt w buff len len2 res = Some (w', buff', r) ->
  other_minors_kept mn w w' /\
  page_kept (get_object w mn) (get_object w' mn) /\
  operation_synchronizer (get_object w' mn)
  = operation_synchronizer (get_object w mn) /\
  workqueue w' = [].
Proof.
  induction fuel as [| fuel IH];
    intros mn jt w buff len len2 res w' buff' r Hmn Hq H; [discriminate |].
  cbn [read_blocking_loop] in H.
  destruct (s64 (jt - s64 (jiffies w)) <? 0).
  { injection H as <- <- <-. auto using kept_refl, page_kept_refl. }
  set (o := get_object w mn) in *.
  destruct (if s32 (off_write o - off_read o) <=? 0 then _ else _)
    as [ret w1] eqn:Hwait.
  assert (Hw1 : other_minors_kept mn w w1 /\ objects w1 = objects w /\
                workqueue w1 = []).
  { destruct (s32 (off_write o - off_read o) <=? 0).
    - pose proof (wait_event_timeout_idle (read_condition mn)
                    (u64 (s64 (jt - s64 (jiffies w)))) w Hq) as Hidle.
      rewrite Hwait in Hidle. cbn [snd] in Hidle.
      destruct Hidle as (He & Ho & Hb & Hn & Hq1).
      auto using kept_same.
    - injection Hwait as <- <-. auto using kept_refl. }
  destruct Hw1 as (Hk1 & Ho1 & Hq1).
  assert (Hobj1 : get_object w1 mn = o)
    by (unfold get_object; rewrite Ho1; reflexivity).
  assert (Hmn1 : (mn < length (objects w1))%nat) by (rewrite Ho1; exact Hmn).
  destruct (s32 ret =? 0).
  { injection H as <- <- <-. rewrite Hobj1.
    auto using page_kept_refl. }
  unfold spin_trylock in H. rewrite Hobj1 in H.
  destruct (operation_synchronizer o) eqn:Hlock.
  { apply IH in H; [| exact Hmn1 | exact Hq1].
    change (get_object (next_turn w1) mn) with (get_object w1 mn) in H.
    rewrite Hobj1 in H. destruct H as (Hk & Hp & Hl & Hq').
    split; [apply (kept_trans _ _ w1); [exact Hk1 | exact Hk] |].
    split; [exact Hp |].
    split; [| exact Hq']. rewrite Hl. exact Hlock. }
  cbn [off_write off_read set_lock] in H.
  destruct (s32 (off_write o - off_read o) =? 0).
  { apply IH in H;
      [| unfold set_object; cbn [next_turn set_jiffies objects];
         rewrite length_insert; exact Hmn1
       | exact Hq1].
    change (get_object (next_turn ?x) mn) with (get_object x mn) in H.
    rewrite get_set_object in H by exact Hmn1.
    destruct H as (Hk & Hp & Hl & Hq').
    split.
    { eapply kept_trans; [| exact Hk]. auto with kept. }
    split.
    { eapply page_kept_trans; [| exact Hp]. unfold page_kept. auto. }
    split; [| exact Hq']. rewrite Hl. reflexivity. }
  destruct (read_chunk (set_lock true o) buff len len2 res)
    as [[[[o2 b2] l2] l22] r2] eqn:Hchunk.
  apply read_chunk_page_kept in Hchunk. destruct Hchunk as (Hp2 & Hl2).
  assert (Hp2' : page_kept o (spin_unlock o2)).
  { unfold page_kept, spin_unlock in *. cbn in *. exact Hp2. }
  destruct (u64 r2 =? l2).
  { injection H as <- <- <-. rewrite get_set_object by exact Hmn1.
    split; [auto with kept |]. split; [exact Hp2' |].
    split; [reflexivity | exact Hq1]. }
  apply IH in H;
    [| unfold set_object; cbn [next_turn set_jiffies objects];
       rewrite length_insert; exact Hmn1
     | exact Hq1].
  change (get_object (next_turn ?x) mn) with (get_object x mn) in H.
  rewrite get_set_object in H by exact Hmn1.
  destruct H as (Hk & Hp & Hl & Hq').
  split.
  { eapply kept_trans; [| exact Hk]. auto with kept. }
  split.
  { eapply page_kept_trans; [exact Hp2' | exact Hp]. }
  split; [| exact Hq']. rewrite Hl. reflexivity.
Qed.

Lemma kept_exit_read mn r buff w w1 :
  other_minors_kept mn w w1 ->
  other_minors_kept mn w (snd (exit_read mn r buff w1)).
Proof.
  intros H. unfold exit_read, atomic_sub_numBytes, atomic_dec_numReaders.
  destruct (0 <? r); cbn [snd]; auto with kept.
Qed.

Lemma exit_read_object mn r buff w :
  get_object (snd (exit_read mn r buff w)) mn = get_object w mn.
Proof. unfold exit_read. destruct (0 <? r); reflexivity. Qed.

Lemma exit_read_queue mn r buff w :
  workqueue (snd (exit_read mn r buff w)) = workqueue w.
Proof. unfold exit_read. destruct (0 <? r); reflexivity. Qed.

(** A read never touches the enabling of the minors. *)
Lemma dev_read_enable (msecs_to_jiffies : Z -> Z) w filp buff len fuel
    r buff' w' :
  dev_read msecs_to_jiffies w filp buff len fuel = Some (r, buff', w') ->
  enableDriver w' = enableDriver w.
Proof.
  rewrite dev_read_unfold.
  destruct (dev_read_body _ _ _ _ _ _) as [[[inside b] res] |] eqn:Hbody;
    [| discriminate].
  intros H. apply (inj Some) in H.
  apply dev_read_body_counters in Hbody. destruct Hbody as (_ & He).
  replace w' with (snd (exit_read (get_minor filp) res b inside))
    by (rewrite H; reflexivity).
  unfold exit_read. destruct (0 <? res); exact He.
Qed.

(** A read while no work is pending, and a non-blocking read. *)
Lemma dev_read_kept (msecs_to_jiffies : Z -> Z) (w : driver)
    (filp : file) (buff : list byte) (len : Z) (fuel : nat)
    (r : Z) (buff' : list byte) (w' : driver) :
  let mn := get_minor filp in
  (mn < length (objects w))%nat ->
  workqueue w = [] \/ blocking (get_object w mn) = false ->
  dev_read msecs_to_jiffies w filp buff len fuel = Some (r, buff', w') ->
  other_minors_kept mn w w' /\
  page_kept (get_object w mn) (get_object w' mn) /\
  operation_synchronizer (get_object w' mn)
  = operation_synchronizer (get_object w mn) /\
  workqueue w' = workqueue w.
Proof.
  intros mn Hmn Hcase H. unfold dev_read in H. fold mn in H.
  set (w1 := atomic_inc_numReaders mn w) in H.
  change (get_object w1 mn) with (get_object w mn) in H.
  set (o := get_object w mn) in *.
  assert (Hk1 : other_minors_kept mn w w1).
  { unfold w1, atomic_inc_numReaders. auto with kept. }
  assert (Hexit : forall w2 res b,
            other_minors_kept mn w w2 ->
            page_kept o (get_object w2 mn) ->
            operation_synchronizer (get_object w2 mn)
            = operation_synchronizer o ->
            workqueue w2 = workqueue w ->
            Some (exit_read mn res b w2) = Some (r, buff', w') ->
            other_minors_kept mn w w' /\
            page_kept o (get_object w' mn) /\
            operation_synchronizer (get_object w' mn)
            = operation_synchronizer o /\
            workqueue w' = workqueue w).
  { intros w2 res b Hk Hp Hl Hq Heq. apply (inj Some) in Heq.
    replace w' with (snd (exit_read mn res b w2)) by (rewrite Heq; reflexivity).
    rewrite exit_read_object, exit_read_queue.
    auto using kept_exit_read. }
  destruct (blocking o) eqn:Hbl.
  - destruct Hcase as [Hq | Hc]; [| discriminate Hc].
    destruct (read_blocking_loop _ _ _ _ _ _ _ _) as [[[w2 b2] r2] |] eqn:Hl;
      [| discriminate].
    apply read_blocking_loop_frame in Hl; [| exact Hmn | exact Hq].
    change (get_object w1 mn) with o in Hl.
    destruct Hl as (Hk & Hp & Hlk & Hq2).
    eapply Hexit; [| exact Hp | exact Hlk | congruence | exact H].
    eapply kept_trans; eassumption.
  - unfold spin_trylock in H.
    destruct (operation_synchronizer o) eqn:Hlock.
    + eapply Hexit; [exact Hk1 | apply page_kept_refl | exact Hlock
                     | reflexivity | exact H].
    + cbn [off_write off_read set_lock] in H.
      destruct (s32 (off_write o - off_read o) =? 0).
      * eapply Hexit; [| | | | exact H].
        -- auto with kept.
        -- rewrite get_set_object by exact Hmn. unfold page_kept. auto.
        -- rewrite get_set_object by exact Hmn. reflexivity.
        -- reflexivity.
      * destruct (read_chunk (set_lock true o) buff len 0 0)
          as [[[[o2 b2] l2] l22] r2] eqn:Hchunk.
        apply read_chunk_page_kept in Hchunk. destruct Hchunk as (Hp2 & _).
        eapply Hexit; [| | | | exact H].
        -- auto with kept.
        -- rewrite get_set_object by exact Hmn. exact Hp2.
        -- rewrite get_set_object by exact Hmn. reflexivity.
        -- reflexivity.
Qed.

(** write_chunk changes the page and the write cursor only. *)
Lemma write_chunk_frame o buff len o1 r :
  write_chunk o buff len = (o1, r) ->
  off_read o1 = off_read o /\ same_settings o o1.
Proof.
  unfold write_chunk, same_settings.
  destruct (u64 (OBJECT_MAX_SIZE - off_write o) <? len);
    destruct (copy_from_user _ _) as [d1 u1];
    destruct (_ && _);
    try destruct (copy_from_user _ _) as [d2 u2];
    intros H; injection H as <- _; auto 10.
Qed.

Lemma reader_side_refl mn w : reader_side_kept mn w w.
Proof. unfold reader_side_kept. auto 10. Qed.

Lemma reader_side_set_object mn o w w1 :
  (mn < length (objects w))%nat ->
  reader_side_kept mn w w1 ->
  off_read o = off_read (get_object w1 mn) ->
  priority o = priority (get_object w1 mn) ->
  blocking o = blocking (get_object w1 mn) ->
  timeout o = timeout (get_object w1 mn) ->
  reader_side_kept mn w (set_object mn o w1).
Proof.
  unfold reader_side_kept.
  intros Hmn (Hr & Hp & Hb & Ht & Hn & Hl) Hr' Hp' Hb' Ht'.
  rewrite get_set_object by lia.
  unfold set_object. cbn [numReaders objects].
  rewrite length_insert. repeat split; congruence.
Qed.

Lemma reader_side_set_numBytes mn v w w1 :
  reader_side_kept mn w w1 -> reader_side_kept mn w (set_numBytes mn v w1).
Proof. intros H. exact H. Qed.

Lemma reader_side_set_workqueue mn q w w1 :
  reader_side_kept mn w w1 -> reader_side_kept mn w (set_workqueue q w1).
Proof. intros H. exact H. Qed.

Lemma reader_side_exit_write mn r w w1 :
  (mn < length (objects w))%nat ->
  reader_side_kept mn w w1 ->
  reader_side_kept mn w (snd (exit_write mn r w1)).
Proof.
  intros Hmn H. unfold exit_write, atomic_add_numBytes.
  destruct (0 <? r); cbn [snd].
  - apply reader_side_set_object; try exact Hmn; try reflexivity.
    apply reader_side_set_numBytes. exact H.
  - apply reader_side_set_object; try exact Hmn; try reflexivity.
    exact H.
Qed.

Lemma reader_side_write_body mn buff len w :
  (mn < length (objects w))%nat ->
  operation_synchronizer (get_object w mn) = false ->
  forall o1 r1,
    write_chunk (set_lock true (get_object w mn)) buff len = (o1, r1) ->
    reader_side_kept mn w (snd (exit_write mn r1 (set_object mn o1 w))).
Proof.
  intros Hmn Hlock o1 r1 Hchunk.
  apply write_chunk_frame in Hchunk.
  destruct Hchunk as (Hr & _ & Hp & Hb & Ht).
  apply reader_side_exit_write; [exact Hmn |].
  apply reader_side_set_object; try exact Hmn; try apply reader_side_refl;
    assumption.
Qed.

Lemma reader_side_high_blocking_loop fuel mn jt buff len w r w' :
  (mn < length (objects w))%nat ->
  high_blocking_loop fuel mn jt buff len w = Some (r, w') ->
  reader_side_kept mn w w'.
Proof.
  intros Hmn. induction fuel as [| fuel IH]; [discriminate |].
  cbn [high_blocking_loop]. destruct (_ <? 0).
  { intros H. apply (inj Some) in H.
    replace w' with (snd (exit_write mn 0 w)) by (rewrite H; reflexivity).
    apply reader_side_exit_write; [exact Hmn | apply reader_side_refl]. }
  unfold spin_trylock.
  destruct (operation_synchronizer (get_object w mn)) eqn:Hlock; [exact IH |].
  destruct (file_is_full w mn len).
  { intros H. apply (inj Some) in H.
    match type of H with
    | ?e = _ => replace w' with (snd e) by (rewrite H; reflexivity)
    end.
    apply reader_side_exit_write; [exact Hmn |].
    apply reader_side_set_object; try exact Hmn; try apply reader_side_refl;
      reflexivity. }
  destruct (write_chunk _ _ _) as [o1 r1] eqn:Hchunk.
  intros H. apply (inj Some) in H.
  match type of H with
  | ?e = _ => replace w' with (snd e) by (rewrite H; reflexivity)
  end.
  eapply reader_side_write_body; eassumption.
Qed.

Lemma reader_side_low_reserve mn len result w r w1 sched :
  (mn < length (objects w))%nat ->
  low_reserve mn len result (set_lock true (get_object w mn)) w
  = (r, w1, sched) ->
  reader_side_kept mn w w1.
Proof.
  intros Hmn. unfold low_reserve, atomic_add_numBytes.
  destruct (file_is_full w mn len); intros H; injection H as _ <- _.
  - apply reader_side_set_object; try exact Hmn; try apply reader_side_refl;
      reflexivity.
  - apply reader_side_set_object; try exact Hmn.
    + apply reader_side_set_numBytes.
      apply reader_side_set_object; try exact Hmn;
        try apply reader_side_refl; reflexivity.
    + reflexivity.
    + reflexivity.
    + reflexivity.
    + reflexivity.
Qed.

Lemma reader_side_low_blocking_loop fuel mn jt len result w r w1 sched :
  (mn < length (objects w))%nat ->
  low_blocking_loop fuel mn jt len result w = Some (r, w1, sched) ->
  reader_side_kept mn w w1.
Proof.
  revert w. induction fuel as [| fuel IH]; intros w Hmn; [discriminate |].
  cbn [low_blocking_loop]. destruct (_ <? 0).
  { intros H. injection H as _ <- _. apply reader_side_refl. }
  unfold spin_trylock. destruct (operation_synchronizer _).
  { intros H. exact (IH (next_turn w) Hmn H). }
  intros H. apply (inj Some) in H. eapply reader_side_low_reserve; eassumption.
Qed.

Lemma dev_write_kept (msecs_to_jiffies : Z -> Z) (w : driver)
    (filp : file) (buff : list byte) (len : Z) (kzalloc_ok : bool)
    (fuel : nat) (r : Z) (w' : driver) :
  let mn := get_minor filp in
  (mn < length (objects w))%nat ->
  dev_write msecs_to_jiffies w filp buff len kzalloc_ok fuel = Some (r, w') ->
  other_minors_kept mn w w' /\ reader_side_kept mn w w'.
Proof.
  intros mn Hmn H. split; [eapply kept_dev_write; exact H |].
  unfold dev_write in H. fold mn in H. set (o := get_object w mn) in *.
  destruct (priority o).
  - destruct (blocking o).
    { eapply reader_side_high_blocking_loop; eassumption. }
    unfold spin_trylock in H.
    destruct (operation_synchronizer o) eqn:Hlock.
    + apply (inj Some) in H.
      replace w' with (snd (exit_write mn 0 w)) by (rewrite H; reflexivity).
      apply reader_side_exit_write; [exact Hmn | apply reader_side_refl].
    + destruct (file_is_full w mn len).
      { injection H as _ <-.
        apply reader_side_set_object; try exact Hmn;
          try apply reader_side_refl; reflexivity. }
      destruct (write_chunk _ _ _) as [o1 r1] eqn:Hchunk.
      apply (inj Some) in H.
      match type of H with
      | ?e = _ => replace w' with (snd e) by (rewrite H; reflexivity)
      end.
      eapply reader_side_write_body; eassumption.
  - destruct kzalloc_ok; cbn [negb] in H.
    2:{ injection H as _ <-. apply reader_side_refl. }
    destruct (copy_from_user buff len) as [data uncopied].
    match type of H with
    | match ?out with _ => _ end = _ =>
        destruct out as [[[r1 w1] sched] |] eqn:Hout
    end; [| discriminate].
    assert (Hk : reader_side_kept mn w w1).
    { destruct (blocking o).
      - eapply reader_side_low_blocking_loop; eassumption.
      - unfold spin_trylock in Hout.
        destruct (operation_synchronizer o).
        + injection Hout as _ <- _. apply reader_side_refl.
        + apply (inj Some) in Hout.
          eapply reader_side_low_reserve; eassumption. }
    destruct sched; injection H as _ <-.
    + unfold schedule_work. apply reader_side_set_workqueue. exact Hk.
    + exact Hk.
Qed.

(** *** The clock of a write *)

Lemma exit_write_clock mn r w : jiffies (snd (exit_write mn r w)) = jiffies w.
Proof.
  unfold exit_write, atomic_add_numBytes. destruct (0 <? r); reflexivity.
Qed.

Lemma high_blocking_loop_clock fuel mn jt buff len w r w' :
  high_blocking_loop fuel mn jt buff len w = Some (r, w') ->
  jiffies w' = jiffies w.
Proof.
  induction fuel as [| fuel IH]; [discriminate |].
  cbn [high_blocking_loop]. destruct (_ <? 0).
  { intros H. apply (inj Some) in H.
    replace w' with (snd (exit_write mn 0 w)) by (rewrite H; reflexivity).
    apply exit_write_clock. }
  unfold spin_trylock. destruct (operation_synchronizer _); [exact IH |].
  destruct (file_is_full w mn len).
  { intros H. apply (inj Some) in H.
    match type of H with
    | ?e = _ => replace w' with (snd e) by (rewrite H; reflexivity)
    end.
    rewrite exit_write_clock. reflexivity. }
  destruct (write_chunk _ _ _) as [o1 r1].
  intros H. apply (inj Some) in H.
  match type of H with
  | ?e = _ => replace w' with (snd e) by (rewrite H; reflexivity)
  end.
  rewrite exit_write_clock. reflexivity.
Qed.

Lemma low_reserve_clock mn len result o w r w1 sched :
  low_reserve mn len result o w = (r, w1, sched) -> jiffies w1 = jiffies w.
Proof.
  unfold low_reserve, atomic_add_numBytes.
  destruct (file_is_full w mn len); intros H; injection H as _ <- _;
    reflexivity.
Qed.

(** The clock never goes back in the loop of the blocking low-priority
    write, and it stands still when the lock is free. *)
Lemma low_blocking_loop_clock fuel mn jt len result :
  forall w r w1 sched,
  low_blocking_loop fuel mn jt len result w = Some (r, w1, sched) ->
  jiffies w <= jiffies w1 /\
  (operation_synchronizer (get_object w mn) = false ->
   jiffies w1 = jiffies w).
Proof.
  induction fuel as [| fuel IH]; intros w r w1 sched; [discriminate |].
  cbn [low_blocking_loop]. destruct (_ <? 0).
  { intros H. injection H as _ <- _. split; [lia | reflexivity]. }
  unfold spin_trylock.
  destruct (operation_synchronizer (get_object w mn)).
  { intros H. apply IH in H. destruct H as (Hle & _).
    cbn [next_turn jiffies set_jiffies] in Hle.
    split; [lia | discriminate]. }
  intros H. apply (inj Some) in H. apply low_reserve_clock in H.
  split; [lia | intros _; exact H].
Qed.

(** Against a taken lock the blocking low-priority write goes round
    until the deadline has passed; one jiffy later it leaves with
    [result] as it was, and only the clock has moved. *)
Lemma low_blocking_loop_busy n :
  forall fuel mn jt len result w,
  operation_synchronizer (get_object w mn) = true ->
  0 <= s64 (jt - s64 (jiffies w)) < Z.of_nat n -> (n < fuel)%nat ->
  low_blocking_loop fuel mn jt len result w
  = Some (result,
          set_jiffies (jiffies w + s64 (jt - s64 (jiffies w)) + 1) w, false).
Proof.
  induction n as [| n IH]; intros fuel mn jt len result w Hlock Hd Hfuel;
    [lia |].
  destruct fuel as [| fuel]; [lia |]. cbn [low_blocking_loop].
  set (d := s64 (jt - s64 (jiffies w))) in *.
  destruct (Z.ltb_spec d 0) as [Hneg | _]; [lia |].
  unfold spin_trylock. rewrite Hlock.
  assert (Hnext : s64 (jt - s64 (jiffies (next_turn w))) = d - 1).
  { cbn [next_turn jiffies set_jiffies].
    rewrite s64_shift by (fold d; lia). reflexivity. }
  destruct (Z.eq_dec d 0) as [Hz | Hnz].
  - destruct fuel as [| fuel]; [lia |]. cbn [low_blocking_loop].
    rewrite Hnext. destruct (Z.ltb_spec (d - 1) 0) as [_ | Hc]; [| lia].
    rewrite Hz. unfold next_turn.
    replace (jiffies w + 0 + 1) with (jiffies w + 1) by lia. reflexivity.
  - rewrite (IH fuel mn jt len result (next_turn w) Hlock);
      [| rewrite Hnext; lia | lia].
    rewrite Hnext. cbn [next_turn jiffies set_jiffies].
    replace (jiffies w + 1 + (d - 1) + 1) with (jiffies w + d + 1) by lia.
    reflexivity.
Qed.

Lemma low_blocking_loop_returns mn jt len result w :
  exists turns, forall fuel, (turns <= fuel)%nat ->
    exists out, low_blocking_loop fuel mn jt len result w = Some out.
Proof.
  set (d := s64 (jt - s64 (jiffies w))).
  exists (S (S (Z.to_nat d))). intros fuel Hfuel.
  destruct (operation_synchronizer (get_object w mn)) eqn:Hlock.
  - destruct (Z.ltb_spec d 0) as [Hneg | Hpos].
    + destruct fuel as [| fuel]; [lia |]. cbn [low_blocking_loop].
      fold d. destruct (Z.ltb_spec d 0); [eauto | lia].
    + rewrite (low_blocking_loop_busy (S (Z.to_nat d)));
        [eauto | exact Hlock | fold d; lia | lia].
  - destruct fuel as [| fuel]; [lia |]. cbn [low_blocking_loop].
    destruct (_ <? 0); [eauto |].
    unfold spin_trylock. rewrite Hlock. eauto.
Qed.

Lemma dev_write_clock (msecs_to_jiffies : Z -> Z) w filp buff len kzalloc_ok
    fuel r w' :
  let o := get_object w (get_minor filp) in
  dev_write msecs_to_jiffies w filp buff len kzalloc_ok fuel = Some (r, w') ->
  jiffies w <= jiffies w' /\
  (priority o = true \/ blocking o = false \/
   operation_synchronizer o = false -> jiffies w' = jiffies w).
Proof.
  intros o. subst o. unfold dev_write. set (mn := get_minor filp).
  set (o := get_object w mn).
  assert (Hsame : jiffies w' = jiffies w ->
            jiffies w <= jiffies w' /\
            (priority o = true \/ blocking o = false \/
             operation_synchronizer o = false -> jiffies w' = jiffies w)).
  { intros ->. split; [lia | reflexivity]. }
  destruct (priority o) eqn:Hp.
  - intros H. apply Hsame. destruct (blocking o).
    { eapply high_blocking_loop_clock. exact H. }
    unfold spin_trylock in H. destruct (operation_synchronizer o).
    + apply (inj Some) in H.
      replace w' with (snd (exit_write mn 0 w)) by (rewrite H; reflexivity).
      apply exit_write_clock.
    + destruct (file_is_full w mn len).
      { injection H as _ <-. reflexivity. }
      destruct (write_chunk _ _ _) as [o1 r1].
      apply (inj Some) in H.
      match type of H with
      | ?e = _ => replace w' with (snd e) by (rewrite H; reflexivity)
      end.
      rewrite exit_write_clock. reflexivity.
  - destruct kzalloc_ok; cbn [negb].
    2:{ intros H. injection H as _ <-. apply Hsame. reflexivity. }
    destruct (copy_from_user buff len) as [data uncopied].
    match goal with
    | |- match ?out with _ => _ end = _ -> _ =>
        destruct out as [[[r1 w1] sched] |] eqn:Hout
    end; [| discriminate].
    assert (Hk : jiffies w <= jiffies w1 /\
                 (blocking o = false \/ operation_synchronizer o = false ->
                  jiffies w1 = jiffies w)).
    { destruct (blocking o).
      - apply low_blocking_loop_clock in Hout. destruct Hout as (Hle & Heq).
        split; [exact Hle |]. intros [Hc | Hfree]; [discriminate | auto].
      - unfold spin_trylock in Hout. destruct (operation_synchronizer o).
        + injection Hout as _ <- _. split; [lia | reflexivity].
        + apply (inj Some) in Hout. apply low_reserve_clock in Hout.
          split; [lia | intros _; exact Hout]. }
    assert (Hw' : jiffies w' = jiffies w1 ->
              jiffies w <= jiffies w' /\
              (false = true \/ blocking o = false \/
               operation_synchronizer o = false -> jiffies w' = jiffies w)).
    { intros ->. split; [apply Hk |].
      intros [Hc | Hc]; [discriminate |]. apply Hk, Hc. }
    destruct sched; intros H; injection H as _ <-; apply Hw'; reflexivity.
Qed.

(** Every write returns, but the blocking high-priority write that meets
    a taken lock. *)
Lemma dev_write_returns (msecs_to_jiffies : Z -> Z) w filp buff len
    kzalloc_ok :
  let o := get_object w (get_minor filp) in
  priority o = false \/ blocking o = false \/
  operation_synchronizer o = false ->
  exists turns, forall fuel, (turns <= fuel)%nat ->
    exists r w',
      dev_write msecs_to_jiffies w filp buff len kzalloc_ok fuel
      = Some (r, w').
Proof.
  intros o. subst o. unfold dev_write. set (mn := get_minor filp).
  set (o := get_object w mn). intros Hcase.
  destruct (priority o) eqn:Hp.
  - destruct (blocking o) eqn:Hb.
    + destruct Hcase as [Hc | [Hc | Hfree]]; try discriminate.
      exists 1%nat. intros fuel Hfuel.
      destruct fuel as [| fuel]; [lia |]. cbn [high_blocking_loop].
      destruct (Z.ltb_spec (u64 (deadline msecs_to_jiffies w o
                                 - s64 (jiffies w))) 0) as [Hneg | _].
      { destruct (exit_write mn 0 w) as [r1 w1]. eauto. }
      unfold spin_trylock. fold o. rewrite Hfree.
      destruct (file_is_full w mn len).
      { destruct (exit_write mn 0 _) as [r1 w1]. eauto. }
      destruct (write_chunk _ _ _) as [o1 r1].
      destruct (exit_write mn r1 _) as [r2 w2]. eauto.
    + exists O. intros fuel _. unfold spin_trylock.
      destruct (operation_synchronizer o).
      { destruct (exit_write mn 0 w) as [r1 w1]. eauto. }
      destruct (file_is_full w mn len); [eauto |].
      destruct (write_chunk _ _ _) as [o1 r1].
      destruct (exit_write mn r1 _) as [r2 w2]. eauto.
  - destruct kzalloc_ok; cbn [negb]; [| exists O; eauto].
    destruct (copy_from_user buff len) as [data uncopied].
    destruct (blocking o).
    + destruct (low_blocking_loop_returns mn (deadline msecs_to_jiffies w o)
                  len (s32 uncopied) w) as (turns & Hturns).
      exists turns. intros fuel Hfuel.
      destruct (Hturns fuel Hfuel) as ([[r1 w1] sched] & ->).
      destruct sched; eauto.
    + exists O. intros fuel _. unfold spin_trylock.
      destruct (operation_synchronizer o); [eauto |].
      destruct (low_reserve _ _ _ _ _) as [[r1 w1] sched].
      destruct sched; eauto.
Qed.

(** The blocking low-priority write that meets a taken lock. *)
Lemma dev_write_busy (msecs_to_jiffies : Z -> Z) w filp buff len :
  let mn := get_minor filp in
  let o := get_object w mn in
  let d := s64 (deadline msecs_to_jiffies w o - s64 (jiffies w)) in
  priority o = false -> blocking o = true ->
  operation_synchronizer o = true -> 0 <= d ->
  forall fuel, (Z.to_nat d + 2 <= fuel)%nat ->
    dev_write msecs_to_jiffies w filp buff len true fuel
    = Some (s32 (snd (copy_from_user buff len)),
            set_jiffies (jiffies w + d + 1) w).
Proof.
  intros mn o d Hp Hb Hlock Hd fuel Hfuel.
  unfold dev_write. fold mn. fold o. rewrite Hp, Hb. cbn [negb].
  destruct (copy_from_user buff len) as [data uncopied]. cbn [snd].
  rewrite (low_blocking_loop_busy (S (Z.to_nat d)));
    [reflexivity | exact Hlock | fold d; lia | lia].
Qed.

(** X7.  What a write leaves alone.  Whatever way dev_write takes, when
    it returns it has changed nothing of the other minors and of the
    enabling, and on its own minor it has touched neither the read
    cursor, nor the settings, nor the count of readers.  The clock never
    goes back, and it stands as before on every path but one, the
    blocking low-priority write that meets a taken lock.  That write
    goes round until the deadline has passed; it then returns what
    copy_from_user left uncopied, with the clock one jiffy past the
    deadline and nothing else changed.  Every write returns, but the
    blocking high-priority write that meets a taken lock. *)
Theorem dev_write_frame (msecs_to_jiffies : Z -> Z) (w : driver)
    (filp : file) (buff : list byte) (len : Z) (kzalloc_ok : bool) :
  let mn := get_minor filp in
  let o := get_object w mn in
  let d := s64 (deadline msecs_to_jiffies w o - s64 (jiffies w)) in
  (mn < length (objects w))%nat ->
  (forall fuel r w',
     dev_write msecs_to_jiffies w filp buff len kzalloc_ok fuel
     = Some (r, w') ->
     let o' := get_object w' mn in
     enableDriver w' = enableDriver w /\
     (forall mn', mn' <> mn ->
        get_object w' mn' = get_object w mn' /\
        get_numBytes w' mn' = get_numBytes w mn' /\
        get_numReaders w' mn' = get_numReaders w mn') /\
     off_read o' = off_read o /\
     priority o' = priority o /\ blocking o' = blocking o /\
     timeout o' = timeout o /\
     numReaders w' = numReaders w /\
     jiffies w <= jiffies w' /\
     (priority o = true \/ blocking o = false \/
      operation_synchronizer o = false -> jiffies w' = jiffies w)) /\
  (priority o = false \/ blocking o = false \/
   operation_synchronizer o = false ->
   exists turns, forall fuel, (turns <= fuel)%nat ->
     exists r w',
       dev_write msecs_to_jiffies w filp buff len kzalloc_ok fuel
       = Some (r, w')) /\
  (priority o = false -> blocking o = true ->
   operation_synchronizer o = true -> kzalloc_ok = true -> 0 <= d ->
   forall fuel, (Z.to_nat d + 2 <= fuel)%nat ->
     dev_write msecs_to_jiffies w filp buff len kzalloc_ok fuel
     = Some (s32 (snd (copy_from_user buff len)),
             set_jiffies (jiffies w + d + 1) w)).
Proof.
  intros mn o d Hmn. split; [| split].
  - intros fuel r w' H o'.
    destruct (dev_write_kept _ _ _ _ _ _ _ _ _ Hmn H)
      as ((He & _ & Hother) & (Hr & Hp & Hb & Ht & Hn & _)).
    destruct (dev_write_clock _ _ _ _ _ _ _ _ _ H) as (Hle & Heq).
    auto 12.
  - apply dev_write_returns.
  - intros Hp Hb Hlock -> Hd fuel Hfuel.
    apply dev_write_busy; assumption.
Qed.

Lemma dev_write_frame_witness :
  (get_minor session0 < length (objects boot_low_busy))%nat /\
  dev_write msecs_to_jiffies_250 boot_low_busy session0 ciao 4 true 52
  = Some (0, set_jiffies 1051 boot_low_busy) /\
  enableDriver (set_jiffies 1051 boot_low_busy)
  = enableDriver boot_low_busy /\
  (forall mn', mn' <> 0%nat ->
     get_object (set_jiffies 1051 boot_low_busy) mn'
     = get_object boot_low_busy mn' /\
     get_numBytes (set_jiffies 1051 boot_low_busy) mn'
     = get_numBytes boot_low_busy mn' /\
     get_numReaders (set_jiffies 1051 boot_low_busy) mn'
     = get_numReaders boot_low_busy mn') /\
  numReaders (set_jiffies 1051 boot_low_busy) = numReaders boot_low_busy /\
  jiffies boot_low_busy <= jiffies (set_jiffies 1051 boot_low_busy).
Proof.
  assert (H1 : (get_minor session0 < length (objects boot_low_busy))%nat)
    by (vm_compute; lia).
  destruct (dev_write_frame msecs_to_jiffies_250 boot_low_busy session0
              ciao 4 true H1) as (Hframe & _ & Hbusy).
  assert (H2 : dev_write msecs_to_jiffies_250 boot_low_busy session0 ciao 4
                 true 52
               = Some (0, set_jiffies 1051 boot_low_busy)).
  { apply (Hbusy eq_refl eq_refl eq_refl eq_refl).
    - vm_compute. discriminate.
    - vm_compute. lia. }
  destruct (Hframe 52%nat 0 (set_jiffies 1051 boot_low_busy) H2)
    as (He & Hother & _ & _ & _ & _ & Hn & Hle & _).
  split; [exact H1 |]. split; [exact H2 |]. split; [exact He |].
  split; [exact Hother |]. split; [exact Hn | exact Hle].
Defined.

(** X8.  What a read leaves alone.  Every dev_read returns: the
    non-blocking read at once, the blocking read at the latest when its
    deadline has passed, also when it meets a taken lock or memory of
    the caller that cannot be written.  It never touches the enabling of
    the minors.  When no work item is pending, or when the read is
    non-blocking, it changes nothing of the other minors, schedules no
    work, and in the object it reads from it writes neither the page,
    nor the write cursor, nor the settings; the lock is as it found it.
    (While a blocking read sleeps the kernel worker runs the pending
    items, which write the pages of their minors.) *)
Theorem dev_read_frame (msecs_to_jiffies : Z -> Z) (w : driver)
    (filp : file) (buff : list byte) (len : Z) :
  let mn := get_minor filp in
  let o := get_object w mn in
  (mn < length (objects w))%nat ->
  (exists turns, forall fuel, (turns <= fuel)%nat ->
     exists r buff' w',
       dev_read msecs_to_jiffies w filp buff len fuel
       = Some (r, buff', w')) /\
  (forall fuel r buff' w',
     dev_read msecs_to_jiffies w filp buff len fuel = Some (r, buff', w') ->
     let o' := get_object w' mn in
     enableDriver w' = enableDriver w /\
     (workqueue w = [] \/ blocking o = false ->
      (forall mn', mn' <> mn ->
         get_object w' mn' = get_object w mn' /\
         get_numBytes w' mn' = get_numBytes w mn' /\
         get_numReaders w' mn' = get_numReaders w mn') /\
      stream_content o' = stream_content o /\
      off_write o' = off_write o /\
      priority o' = priority o /\ blocking o' = blocking o /\
      timeout o' = timeout o /\
      operation_synchronizer o' = operation_synchronizer o /\
      workqueue w' = workqueue w)).
Proof.
  intros mn o Hmn. split.
  - destruct (dev_read_body_returns msecs_to_jiffies
                (atomic_inc_numReaders mn w) filp buff len)
      as (turns & Hturns).
    exists turns. intros fuel Hfuel. rewrite dev_read_unfold. fold mn.
    destruct (Hturns fuel Hfuel) as ([[inside b] res] & ->).
    destruct (exit_read mn res b inside) as [[r1 b1] w1]. eauto.
  - intros fuel r buff' w' H o'.
    split; [eapply dev_read_enable; exact H |].
    intros Hcase.
    destruct (dev_read_kept _ _ _ _ _ _ _ _ _ Hmn Hcase H)
      as ((_ & _ & Hother) & (Hs & Hw & Hp & Hb & Ht) & Hl & Hq).
    auto 10.
Qed.

Lemma dev_read_frame_witness :
  (get_minor session0 < length (objects boot_ciao_busy))%nat /\
  dev_read msecs_to_jiffies_250 boot_ciao_busy session0 (replicate 4 x00) 4 52
  = Some (0, replicate 4 x00, set_jiffies 1051 boot_ciao_busy) /\
  enableDriver (set_jiffies 1051 boot_ciao_busy)
  = enableDriver boot_ciao_busy /\
  (forall mn', mn' <> 0%nat ->
     get_object (set_jiffies 1051 boot_ciao_busy) mn'
     = get_object boot_ciao_busy mn' /\
     get_numBytes (set_jiffies 1051 boot_ciao_busy) mn'
     = get_numBytes boot_ciao_busy mn' /\
     get_numReaders (set_jiffies 1051 boot_ciao_busy) mn'
     = get_numReaders boot_ciao_busy mn') /\
  workqueue (set_jiffies 1051 boot_ciao_busy) = workqueue boot_ciao_busy.
Proof.
  assert (H1 : (get_minor session0 < length (objects boot_ciao_busy))%nat)
    by (vm_compute; lia).
  assert (H2 : dev_read msecs_to_jiffies_250 boot_ciao_busy session0
                 (replicate 4 x00) 4 52
               = Some (0, replicate 4 x00, set_jiffies 1051 boot_ciao_busy))
    by reflexivity.
  destruct (dev_read_frame msecs_to_jiffies_250 boot_ciao_busy session0
              (replicate 4 x00) 4 H1) as (_ & Hframe).
  destruct (Hframe 52%nat 0 (replicate 4 x00)
              (set_jiffies 1051 boot_ciao_busy) H2) as (He & Hrest).
  destruct (Hrest (or_introl eq_refl)) as (Hother & _ & _ & _ & _ & _ & _ & Hq).
  split; [exact H1 |]. split; [exact H2 |]. split; [exact He |].
  split; [exact Hother | exact Hq].
Defined.

(** ** dev_ioctl *)

Lemma dev_ioctl_kept w filp command param :
  let mn := get_minor filp in
  let w' := snd (dev_ioctl w filp command param) in
  other_minors_kept mn w w' /\
  numBytes w' = numBytes w /\ numReaders w' = numReaders w /\
  workqueue w' = workqueue w /\ jiffies w' = jiffies w.
Proof.
  cbv zeta. unfold dev_ioctl.
  destruct param as [value |];
    [| cbn [snd]; split; [apply kept_refl | auto]].
  destruct command; cbn [snd];
    repeat match goal with
           | |- context [if ?c then _ else _] => destruct c; cbn [snd]
           end;
    (split; [auto with kept | repeat split]).
Qed.

(** X9.  What dev_ioctl leaves alone.  The call answers 0 or -1; with -1
    nothing has changed.  In every case the cursors, the page and the
    lock of the minor, the counters, the queue, the clock and the other
    minors are as before, and a command changes no setting but its
    own. *)
Theorem dev_ioctl_frame (w : driver) (filp : file) (command : ioctl_command)
    (param : option Z) (r : Z) (w' : driver) :
  let mn := get_minor filp in
  let o := get_object w mn in
  let o' := get_object w' mn in
  (mn < length (objects w))%nat ->
  dev_ioctl w filp command param = (r, w') ->
  (r = 0 \/ r = -1) /\ (r = -1 -> w' = w) /\
  operation_synchronizer o' = operation_synchronizer o /\
  off_read o' = off_read o /\ off_write o' = off_write o /\
  stream_content o' = stream_content o /\
  (command <> IOWR_PRIORITYSTATE -> priority o' = priority o) /\
  (command <> IOWR_BLOCKINGSTATE -> blocking o' = blocking o) /\
  (command <> IOWR_TIMEOUT -> timeout o' = timeout o) /\
  (forall mn', mn' <> mn -> get_object w' mn' = get_object w mn') /\
  enableDriver w' = enableDriver w /\
  numBytes w' = numBytes w /\ numReaders w' = numReaders w /\
  workqueue w' = workqueue w /\ jiffies w' = jiffies w.
Proof.
  intros mn o o' Hmn H.
  pose proof (dev_ioctl_kept w filp command param) as Hk.
  cbv zeta in Hk. rewrite H in Hk. cbn [snd] in Hk. fold mn in Hk.
  destruct Hk as ((He & _ & Hother) & Hnb & Hnr & Hq & Hj).
  assert (Hrest :
    (r = 0 \/ r = -1) /\ (r = -1 -> w' = w) /\
    operation_synchronizer o' = operation_synchronizer o /\
    off_read o' = off_read o /\ off_write o' = off_write o /\
    stream_content o' = stream_content o /\
    (command <> IOWR_PRIORITYSTATE -> priority o' = priority o) /\
    (command <> IOWR_BLOCKINGSTATE -> blocking o' = blocking o) /\
    (command <> IOWR_TIMEOUT -> timeout o' = timeout o)).
  { unfold o'. unfold dev_ioctl in H. fold mn in H. fold o in H.
    destruct param as [value |].
    2:{ injection H as <- <-. repeat split; auto. }
    destruct command;
      repeat match type of H with
             | context [if ?c then _ else _] => destruct c
             end;
      injection H as <- <-;
      rewrite ?get_set_object by exact Hmn;
      repeat split; auto; try discriminate; try congruence. }
  destruct Hrest as (H1 & H2 & H3 & H4 & H5 & H6 & H7 & H8 & H9).
  repeat split; try assumption.
  intros mn' Hne. apply Hother. exact Hne.
Qed.

Lemma dev_ioctl_frame_witness :
  (get_minor session0 < length (objects boot))%nat /\
  dev_ioctl boot session0 IOWR_BLOCKINGSTATE (Some 0)
  = (0, boot_nonblocking) /\
  (0 = 0 \/ 0 = -1) /\ (0 = -1 -> boot_nonblocking = boot) /\
  operation_synchronizer (get_object boot_nonblocking 0)
  = operation_synchronizer (get_object boot 0) /\
  off_read (get_object boot_nonblocking 0) = off_read (get_object boot 0) /\
  off_write (get_object boot_nonblocking 0) = off_write (get_object boot 0) /\
  stream_content (get_object boot_nonblocking 0)
  = stream_content (get_object boot 0) /\
  (IOWR_BLOCKINGSTATE <> IOWR_PRIORITYSTATE ->
   priority (get_object boot_nonblocking 0) = priority (get_object boot 0)) /\
  (IOWR_BLOCKINGSTATE <> IOWR_BLOCKINGSTATE ->
   blocking (get_object boot_nonblocking 0) = blocking (get_object boot 0)) /\
  (IOWR_BLOCKINGSTATE <> IOWR_TIMEOUT ->
   timeout (get_object boot_nonblocking 0) = timeout (get_object boot 0)) /\
  (forall mn', mn' <> 0%nat ->
     get_object boot_nonblocking mn' = get_object boot mn') /\
  enableDriver boot_nonblocking = enableDriver boot /\
  numBytes boot_nonblocking = numBytes boot /\
  numReaders boot_nonblocking = numReaders boot /\
  workqueue boot_nonblocking = workqueue boot /\
  jiffies boot_nonblocking = jiffies boot.
Proof.
  assert (H1 : (get_minor session0 < length (objects boot))%nat)
    by (vm_compute; lia).
  assert (H2 : dev_ioctl boot session0 IOWR_BLOCKINGSTATE (Some 0)
               = (0, boot_nonblocking)) by reflexivity.
  split; [exact H1 |]. split; [exact H2 |].
  exact (dev_ioctl_frame boot session0 IOWR_BLOCKINGSTATE (Some 0)
           0 boot_nonblocking H1 H2).
Defined.

(** X10.  The two switches of dev_ioctl.  IOWR_PRIORITYSTATE and
    IOWR_BLOCKINGSTATE accept the values 0 and 1 only: they answer 0 and
    set the priority, or the blocking mode, to low or non-blocking for 0
    and to high or blocking for 1; any other value is refused with -1
    and changes nothing. *)
Theorem dev_ioctl_switches (w : driver) (filp : file) (value : Z) :
  let mn := get_minor filp in
  let o := get_object w mn in
  let p := dev_ioctl w filp IOWR_PRIORITYSTATE (Some value) in
  let b := dev_ioctl w filp IOWR_BLOCKINGSTATE (Some value) in
  (mn < length (objects w))%nat ->
  (value = 0 \/ value = 1 ->
   fst p = 0 /\ priority (get_object (snd p) mn) = (value =? 1) /\
   fst b = 0 /\ blocking (get_object (snd b) mn) = (value =? 1)) /\
  (value <> 0 -> value <> 1 -> p = (-1, w) /\ b = (-1, w)).
Proof.
  intros mn o p b Hmn. unfold p, b, dev_ioctl. fold mn. fold o. split.
  - intros [-> | ->]; cbn [Z.eqb Pos.eqb fst snd];
      rewrite !get_set_object by exact Hmn; auto.
  - intros H0 H1.
    destruct (Z.eqb_spec value 0) as [Hc | _]; [contradiction |].
    destruct (Z.eqb_spec value 1) as [Hc | _]; [contradiction |].
    auto.
Qed.

Lemma dev_ioctl_switches_witness :
  (get_minor session0 < length (objects boot))%nat /\
  (0 = 0 \/ 0 = 1 ->
   fst (dev_ioctl boot session0 IOWR_PRIORITYSTATE (Some 0)) = 0 /\
   priority (get_object
               (snd (dev_ioctl boot session0 IOWR_PRIORITYSTATE (Some 0))) 0)
   = (0 =? 1) /\
   fst (dev_ioctl boot session0 IOWR_BLOCKINGSTATE (Some 0)) = 0 /\
   blocking (get_object
               (snd (dev_ioctl boot session0 IOWR_BLOCKINGSTATE (Some 0))) 0)
   = (0 =? 1)) /\
  (0 <> 0 -> 0 <> 1 ->
   dev_ioctl boot session0 IOWR_PRIORITYSTATE (Some 0) = (-1, boot) /\
   dev_ioctl boot session0 IOWR_BLOCKINGSTATE (Some 0) = (-1, boot)).
Proof.
  assert (H1 : (get_minor session0 < length (objects boot))%nat)
    by (vm_compute; lia).
  split; [exact H1 |].
  exact (dev_ioctl_switches boot session0 0 H1).
Defined.

(** ** The module parameters in the reachable states *)

Lemma delayed_work_params the_work w :
  enableDriver (delayed_work the_work w) = enableDriver w /\
  numReaders (delayed_work the_work w) = numReaders w /\
  jiffies (delayed_work the_work w) = jiffies w.
Proof.
  unfold delayed_work.
  destruct (_ >=? _); cbn zeta; destruct (0 <? _); auto.
Qed.

Lemma run_work_params w :
  enableDriver (run_work w) = enableDriver w /\
  numReaders (run_work w) = numReaders w /\
  numBytes (run_work w) = numBytes w /\
  workqueue (run_work w) = tail (workqueue w).
Proof.
  unfold run_work. destruct (workqueue w) as [| the_work rest] eqn:Hq.
  - rewrite Hq. auto.
  - destruct (delayed_work_params the_work (set_workqueue rest w))
      as (He & Hn & _).
    destruct (delayed_work_frame the_work (set_workqueue rest w))
      as (_ & Hq' & _).
    rewrite He, Hn, Hq', delayed_work_numBytes. auto.
Qed.

Lemma dev_read_readers (msecs_to_jiffies : Z -> Z) w filp buff len fuel
    r buff' w' :
  0 <= get_numReaders w (get_minor filp) < 4294967296 ->
  dev_read msecs_to_jiffies w filp buff len fuel = Some (r, buff', w') ->
  numReaders w' = numReaders w.
Proof.
  intros Hn H. unfold get_numReaders in Hn. unfold dev_read in H.
  set (mn := get_minor filp) in *.
  set (w1 := atomic_inc_numReaders mn w) in H.
  assert (Hexit : forall w2 res b,
            numReaders w2 = numReaders w1 ->
            Some (exit_read mn res b w2) = Some (r, buff', w') ->
            numReaders w' = numReaders w).
  { intros w2 res b Hw2 Heq. apply (inj Some) in Heq.
    apply exit_read_numReaders in Heq. rewrite Heq, Hw2.
    unfold w1, atomic_inc_numReaders, get_numReaders. simpl.
    apply numReaders_inc_dec, Hn. }
  destruct (blocking (get_object w1 mn)).
  - destruct (read_blocking_loop _ _ _ _ _ _ _ _) as [[[w2 b2] r2] |] eqn:Hl;
      [| discriminate].
    apply read_blocking_loop_counters in Hl.
    eapply Hexit; [apply Hl | exact H].
  - unfold spin_trylock in H.
    destruct (operation_synchronizer (get_object w1 mn)).
    + eapply Hexit; [| exact H]. reflexivity.
    + destruct (s32 _ =? 0) in H.
      * eapply Hexit; [| exact H]. reflexivity.
      * destruct (read_chunk _ _ _ _ _) as [[[[o2 b2] l2] l22] r2].
        eapply Hexit; [| exact H]. reflexivity.
Qed.

Lemma step_params msecs_to_jiffies w w' :
  step msecs_to_jiffies w w' -> driver_invariant w ->
  enableDriver w = replicate MINORS true ->
  numReaders w = replicate MINORS 0 ->
  enableDriver w' = replicate MINORS true /\
  numReaders w' = replicate MINORS 0.
Proof.
  intros Hstep (Hlo & _) He Hn. destruct Hstep as
    [w filp buff len kzalloc_ok fuel r w' Hmn Hlen Hdw
    | w
    | w filp command param Hmn
    | w filp buff len fuel r buff' w' Hmn Hlen Hbuff Hdr].
  - apply dev_write_kept in Hdw; [| lia].
    destruct Hdw as ((He' & _) & (_ & _ & _ & _ & Hn' & _)).
    split; congruence.
  - destruct (run_work_params w) as (He' & Hn' & _). split; congruence.
  - destruct (dev_ioctl_kept w filp command param)
      as ((He' & _) & _ & Hn' & _).
    split; congruence.
  - pose proof Hdr as He'. apply dev_read_enable in He'.
    apply dev_read_readers in Hdr.
    + split; congruence.
    + unfold get_numReaders. rewrite Hn.
      rewrite lookup_total_replicate_2 by exact Hmn. lia.
Qed.

Lemma rtc_params msecs_to_jiffies w w' :
  rtc (step msecs_to_jiffies) w w' -> driver_invariant w ->
  enableDriver w = replicate MINORS true ->
  numReaders w = replicate MINORS 0 ->
  enableDriver w' = replicate MINORS true /\
  numReaders w' = replicate MINORS 0.
Proof.
  induction 1 as [| w1 w2 w3 Hstep _ IH]; intros Hinv He Hn; [auto |].
  destruct (step_params _ _ _ Hstep Hinv He Hn) as (He2 & Hn2).
  apply IH; [eapply step_invariant; eassumption | exact He2 | exact Hn2].
Qed.

(** X11.  The module parameters that the calls of the driver leave behind.  In
    every state that the driver reaches from a freshly loaded module, all
    minors are still enabled (no call of the driver disables one), no
    reader is counted once the calls have returned, and dev_open succeeds
    exactly for the minors below MINORS. *)
Theorem reachable_module_parameters (msecs_to_jiffies : Z -> Z) (w : driver) :
  reachable msecs_to_jiffies w ->
  enableDriver w = replicate MINORS true /\
  numReaders w = replicate MINORS 0 /\
  forall filp, dev_open w filp = 0 <-> (get_minor filp < MINORS)%nat.
Proof.
  intros (pages & now & Hrtc).
  destruct (rtc_params _ _ _ Hrtc (driver_invariant_init pages now)
              eq_refl eq_refl) as (He & Hn).
  split; [exact He |]. split; [exact Hn |].
  intros filp. unfold dev_open.
  destruct (Nat.leb_spec MINORS (get_minor filp)) as [Hge | Hlt].
  - split; [discriminate | lia].
  - rewrite He, lookup_total_replicate_2 by exact Hlt. cbn [negb].
    split; [intros _; exact Hlt | reflexivity].
Qed.

Lemma reachable_module_parameters_witness :
  reachable msecs_to_jiffies_250 low_ciao_reserved /\
  enableDriver low_ciao_reserved = replicate MINORS true /\
  numReaders low_ciao_reserved = replicate MINORS 0 /\
  forall filp,
    dev_open low_ciao_reserved filp = 0 <-> (get_minor filp < MINORS)%nat.
Proof.
  split; [exact low_ciao_reserved_reachable |].
  exact (reachable_module_parameters msecs_to_jiffies_250 low_ciao_reserved
           low_ciao_reserved_reachable).
Defined.

(** ** The byte counter once the queue has drained *)

Lemma run_work_iter n : forall w,
  driver_invariant w -> length (workqueue w) = n ->
  let w' := Nat.iter n run_work w in
  driver_invariant w' /\ workqueue w' = [] /\ numBytes w' = numBytes w.
Proof.
  induction n as [| n IH]; intros w Hinv Hlen.
  - cbn. split; [exact Hinv |]. split; [| reflexivity].
    destruct (workqueue w); [reflexivity | discriminate].
  - rewrite Nat.iter_succ_r. cbv zeta.
    destruct (run_work_params w) as (_ & _ & Hnb & Hq).
    destruct (IH (run_work w)) as (Hinv' & Hq' & Hnb').
    + apply run_work_invariant. exact Hinv.
    + rewrite Hq. destruct (workqueue w); [discriminate |].
      cbn in *. lia.
    + split; [exact Hinv' |]. split; [exact Hq' |]. congruence.
Qed.

(** X12.  The byte counter and the bytes in the page.  Take a state between
    two calls that the driver reaches from a freshly loaded module when
    the calls run one at a time on minors below 128 (writes of at most
    MAX_RW_COUNT bytes, runs of the oldest work item, ioctls, and reads
    that ask for no more than the bytes in the page and hand in memory
    writable for the requested length), and let the kernel worker run
    every pending work item:
    the queue is then empty, numBytes of every minor is still what the
    writes made it, and it now counts exactly the bytes that wait in the
    page between the two cursors. *)
Theorem drained_queue_byte_count (msecs_to_jiffies : Z -> Z) (w : driver)
    (mn : nat) :
  reachable msecs_to_jiffies w -> (mn < MINORS)%nat ->
  let w' := Nat.iter (length (workqueue w)) run_work w in
  workqueue w' = [] /\
  get_numBytes w' mn = get_numBytes w mn /\
  get_numBytes w' mn = bytes_in_page (get_object w' mn) /\
  get_numBytes w' mn = Z.of_nat (length (flow_bytes (get_object w' mn))).
Proof.
  intros (pages & now & Hrtc) Hmn.
  pose proof (rtc_invariant _ _ _ Hrtc (driver_invariant_init pages now))
    as Hinv.
  destruct (run_work_iter _ w Hinv eq_refl) as (Hinv' & Hq & Hnb).
  cbv zeta.
  set (w' := Nat.iter (length (workqueue w)) run_work w) in *.
  destruct Hinv' as (_ & _ & _ & Hflow).
  destruct (Hflow mn Hmn) as (_ & Hr & Hw & _ & Heq).
  rewrite Hq in Heq. cbn [pending] in Heq.
  split; [exact Hq |].
  split; [unfold get_numBytes; rewrite Hnb; reflexivity |].
  split; [lia |].
  unfold flow_bytes. rewrite length_ring_load.
  pose proof (bytes_in_page_le _ Hr Hw) as (Hpos & _). lia.
Qed.

Lemma drained_queue_byte_count_witness :
  reachable msecs_to_jiffies_250 low_ciao_reserved /\
  (0 < MINORS)%nat /\
  let w' := Nat.iter (length (workqueue low_ciao_reserved)) run_work
              low_ciao_reserved in
  workqueue w' = [] /\
  get_numBytes w' 0 = get_numBytes low_ciao_reserved 0 /\
  get_numBytes w' 0 = bytes_in_page (get_object w' 0) /\
  get_numBytes w' 0 = Z.of_nat (length (flow_bytes (get_object w' 0))).
Proof.
  split; [exact low_ciao_reserved_reachable |]. split; [exact minor0 |].
  exact (drained_queue_byte_count msecs_to_jiffies_250 low_ciao_reserved 0
           low_ciao_reserved_reachable minor0).
Defined.

(** ** Calls that find the lock taken, the file full or the flow empty *)

(** X13.  The label exit_write without the lock.  A non-blocking high-priority
    write that finds the lock taken copies nothing and returns 0, and on
    its way out through exit_write it releases the lock that it does not
    hold: after the call the lock is free.  Nothing else has changed. *)
Theorem high_write_releases_busy_lock (msecs_to_jiffies : Z -> Z)
    (w : driver) (filp : file) (buff : list byte) (len : Z)
    (kzalloc_ok : bool) (fuel : nat) :
  let mn := get_minor filp in
  let o := get_object w mn in
  (mn < length (objects w))%nat ->
  priority o = true -> blocking o = false ->
  operation_synchronizer o = true ->
  exists w',
    dev_write msecs_to_jiffies w filp buff len kzalloc_ok fuel
    = Some (0, w') /\
    get_object w' mn = set_lock false o /\
    operation_synchronizer (get_object w' mn) = false /\
    numBytes w' = numBytes w /\ workqueue w' = workqueue w /\
    forall mn', mn' <> mn -> get_object w' mn' = get_object w mn'.
Proof.
  intros mn o Hmn Hhigh Hnb Hlock.
  unfold dev_write. fold mn. fold o. rewrite Hhigh, Hnb.
  unfold spin_trylock. rewrite Hlock.
  exists (snd (exit_write mn 0 w)). split; [reflexivity |].
  unfold exit_write. cbn [Z.ltb Z.compare snd]. fold o.
  rewrite get_set_object by exact Hmn.
  split; [reflexivity |]. split; [reflexivity |].
  split; [reflexivity |]. split; [reflexivity |].
  intros mn' Hne. apply get_set_object_ne. congruence.
Qed.

Lemma high_write_releases_busy_lock_witness :
  priority (get_object boot_nonblocking_busy 0) = true /\
  blocking (get_object boot_nonblocking_busy 0) = false /\
  operation_synchronizer (get_object boot_nonblocking_busy 0) = true /\
  exists w',
    dev_write msecs_to_jiffies_250 boot_nonblocking_busy session0 ciao 4
              true 1
    = Some (0, w') /\
    get_object w' 0 = set_lock false (get_object boot_nonblocking_busy 0) /\
    operation_synchronizer (get_object w' 0) = false /\
    numBytes w' = numBytes boot_nonblocking_busy /\
    workqueue w' = workqueue boot_nonblocking_busy /\
    forall mn', mn' <> 0%nat ->
      get_object w' mn' = get_object boot_nonblocking_busy mn'.
Proof.
  split; [reflexivity |]. split; [reflexivity |]. split; [reflexivity |].
  apply (high_write_releases_busy_lock msecs_to_jiffies_250
           boot_nonblocking_busy session0 ciao 4 true 1).
  - vm_compute. lia.
  - reflexivity.
  - reflexivity.
  - reflexivity.
Defined.

Lemma high_blocking_loop_deadline fuel mn jt jt' buff len w :
  high_blocking_loop fuel mn jt buff len w
  = high_blocking_loop fuel mn jt' buff len w.
Proof.
  induction fuel as [| fuel IH]; [reflexivity |].
  cbn [high_blocking_loop].
  destruct (Z.ltb_spec (u64 (jt - s64 (jiffies w))) 0) as [Hneg | _].
  { pose proof (u64_range (jt - s64 (jiffies w))). lia. }
  destruct (Z.ltb_spec (u64 (jt' - s64 (jiffies w))) 0) as [Hneg | _].
  { pose proof (u64_range (jt' - s64 (jiffies w))). lia. }
  rewrite IH. reflexivity.
Qed.

Lemma high_blocking_loop_busy fuel mn jt buff len w :
  operation_synchronizer (get_object w mn) = true ->
  high_blocking_loop fuel mn jt buff len w = None.
Proof.
  intros Hlock. induction fuel as [| fuel IH]; [reflexivity |].
  cbn [high_blocking_loop].
  destruct (Z.ltb_spec (u64 (jt - s64 (jiffies w))) 0) as [Hneg | _].
  { pose proof (u64_range (jt - s64 (jiffies w))). lia. }
  unfold spin_trylock. rewrite Hlock. exact IH.
Qed.

(** X14.  The timeout of a high-priority write.  The loop of the blocking
    high-priority write holds the time left in an unsigned variable and
    leaves on "diff < 0", which never holds: the outcome of a
    high-priority write is the same whatever the conversion of the
    timeout to jiffies comes to, and while the lock is taken no number of
    turns of the loop ends the call. *)
Theorem high_write_ignores_timeout (msecs_to_jiffies : Z -> Z) (w : driver)
    (filp : file) (buff : list byte) (len : Z) (kzalloc_ok : bool) :
  let mn := get_minor filp in
  let o := get_object w mn in
  priority o = true ->
  (forall (other_conversion : Z -> Z) (fuel : nat),
     dev_write other_conversion w filp buff len kzalloc_ok fuel
     = dev_write msecs_to_jiffies w filp buff len kzalloc_ok fuel) /\
  (blocking o = true -> operation_synchronizer o = true ->
   forall fuel,
     dev_write msecs_to_jiffies w filp buff len kzalloc_ok fuel = None).
Proof.
  intros mn o Hhigh. split.
  - intros other fuel. unfold dev_write. fold mn. fold o. rewrite Hhigh.
    destruct (blocking o); [| reflexivity].
    apply high_blocking_loop_deadline.
  - intros Hbl Hlock fuel. unfold dev_write. fold mn. fold o.
    rewrite Hhigh, Hbl. apply high_blocking_loop_busy. exact Hlock.
Qed.

Lemma high_write_ignores_timeout_witness :
  priority (get_object boot 0) = true /\
  (forall (other_conversion : Z -> Z) (fuel : nat),
     dev_write other_conversion boot session0 ciao 4 true fuel
     = dev_write msecs_to_jiffies_250 boot session0 ciao 4 true fuel) /\
  (blocking (get_object boot 0) = true ->
   operation_synchronizer (get_object boot 0) = true ->
   forall fuel,
     dev_write msecs_to_jiffies_250 boot session0 ciao 4 true fuel = None).
Proof.
  split; [reflexivity |].
  apply (high_write_ignores_timeout msecs_to_jiffies_250 boot session0 ciao 4
           true).
  reflexivity.
Defined.

(** X15.  A low-priority write that reserves nothing.  When a low-priority
    write finds the file full, or, in the non-blocking mode, the lock
    taken, it frees its work item and changes nothing; what it returns is
    the count that copy_from_user left in [result], the number of bytes
    that could not be read from the caller: 0 when the whole buffer was
    readable. *)
Theorem low_write_refused (msecs_to_jiffies : Z -> Z) (w : driver)
    (filp : file) (buff : list byte) (len : Z) (fuel : nat) :
  let mn := get_minor filp in
  let o := get_object w mn in
  priority o = false -> 0 <= len <= MAX_RW_COUNT ->
  0 <= get_numBytes w mn < 4294967296 ->
  (blocking o = false /\ operation_synchronizer o = true) \/
  (operation_synchronizer o = false /\
   OBJECT_MAX_SIZE <= get_numBytes w mn + len /\
   (blocking o = true ->
    fuel <> O /\
    0 <= s64 (deadline msecs_to_jiffies w o - s64 (jiffies w)))) ->
  dev_write msecs_to_jiffies w filp buff len true fuel
  = Some (len - Z.min len (Z.of_nat (length buff)), w).
Proof.
  intros mn o Hlow Hlen Hn Hcase.
  pose proof (file_is_full_spec w mn len Hn Hlen) as Hfull.
  unfold MAX_RW_COUNT in Hlen. change (2 ^ 31 - 4096) with 2147479552 in Hlen.
  unfold dev_write. fold mn. fold o. rewrite Hlow. cbn [negb].
  unfold copy_from_user. cbv zeta.
  remember (Z.min len (Z.of_nat (length buff))) as k eqn:Hk.
  rewrite (s32_small (len - k)) by lia.
  destruct Hcase as [(Hnb & Hlock) | (Hlock & Hge & Hmode)].
  - rewrite Hnb. unfold spin_trylock. rewrite Hlock. reflexivity.
  - apply Hfull in Hge.
    destruct (blocking o) eqn:Hbl.
    + destruct (Hmode eq_refl) as (Hfuel & Htime).
      destruct fuel as [| fuel]; [contradiction |].
      cbn [low_blocking_loop].
      destruct (Z.ltb_spec (s64 (deadline msecs_to_jiffies w o
                                 - s64 (jiffies w))) 0) as [Hneg | _];
        [lia |].
      unfold spin_trylock. fold o. rewrite Hlock. unfold o.
      rewrite low_reserve_unchanged by assumption. reflexivity.
    + unfold spin_trylock. rewrite Hlock. unfold o.
      rewrite low_reserve_unchanged by assumption. reflexivity.
Qed.

Lemma low_write_refused_witness :
  priority (get_object boot_low 0) = false /\
  OBJECT_MAX_SIZE <= get_numBytes boot_low 0 + 4096 /\
  dev_write msecs_to_jiffies_250 boot_low session0 ciao 4096 true 1
  = Some (4096 - Z.min 4096 (Z.of_nat (length ciao)), boot_low).
Proof.
  assert (Hfull : OBJECT_MAX_SIZE <= get_numBytes boot_low 0 + 4096)
    by (vm_compute; discriminate).
  split; [reflexivity |]. split; [exact Hfull |].
  apply (low_write_refused msecs_to_jiffies_250 boot_low session0 ciao 4096 1).
  - reflexivity.
  - vm_compute. split; discriminate.
  - vm_compute. split; [discriminate | reflexivity].
  - right. split; [reflexivity |]. split; [exact Hfull |].
    intros _. split; [discriminate | vm_compute; discriminate].
Defined.

(** X16.  A non-blocking read with nothing to take.  When the two cursors are
    equal, or the lock is taken, the non-blocking read returns 0 at once:
    the memory of the caller, the objects, the byte counters, the queue
    and the clock are as before, whatever numBytes says. *)
Theorem nonblocking_read_idle (msecs_to_jiffies : Z -> Z) (w : driver)
    (filp : file) (buff : list byte) (len : Z) (fuel : nat) :
  let mn := get_minor filp in
  let o := get_object w mn in
  blocking o = false ->
  operation_synchronizer o = true \/ off_write o = off_read o ->
  exists w',
    dev_read msecs_to_jiffies w filp buff len fuel = Some (0, buff, w') /\
    objects w' = objects w /\ numBytes w' = numBytes w /\
    workqueue w' = workqueue w /\ jiffies w' = jiffies w /\
    enableDriver w' = enableDriver w.
Proof.
  intros mn o Hnb Hcase. unfold dev_read. fold mn.
  set (w1 := atomic_inc_numReaders mn w).
  change (get_object w1 mn) with o. rewrite Hnb. unfold spin_trylock.
  destruct (operation_synchronizer o) eqn:Hlock.
  - exists (snd (exit_read mn 0 buff w1)). split; [reflexivity |].
    repeat split.
  - destruct Hcase as [Hc | Heq]; [discriminate |].
    cbn [off_write off_read set_lock]. rewrite Heq, Z.sub_diag.
    change (s32 0 =? 0) with true. cbn iota.
    exists (snd (exit_read mn 0 buff
                   (set_object mn (spin_unlock (set_lock true o)) w1))).
    split; [reflexivity |].
    assert (Hsame : set_object mn (spin_unlock (set_lock true o)) w1 = w1).
    { change o with (get_object w1 mn).
      apply set_object_unlock_lock. exact Hlock. }
    rewrite Hsame. repeat split.
Qed.

Lemma nonblocking_read_idle_witness :
  blocking (get_object boot_nonblocking 0) = false /\
  off_write (get_object boot_nonblocking 0)
  = off_read (get_object boot_nonblocking 0) /\
  exists w',
    dev_read msecs_to_jiffies_250 boot_nonblocking session0
             (replicate 4 x00) 4 1
    = Some (0, replicate 4 x00, w') /\
    objects w' = objects boot_nonblocking /\
    numBytes w' = numBytes boot_nonblocking /\
    workqueue w' = workqueue boot_nonblocking /\
    jiffies w' = jiffies boot_nonblocking /\
    enableDriver w' = enableDriver boot_nonblocking.
Proof.
  split; [reflexivity |]. split; [reflexivity |].
  apply (nonblocking_read_idle msecs_to_jiffies_250 boot_nonblocking session0
           (replicate 4 x00) 4 1).
  - reflexivity.
  - right. reflexivity.
Defined.

(** X17.  A blocking read that finds the write cursor not ahead of the read
    cursor while no work item is pending.  It sleeps in
    wait_event_timeout until its timeout has passed and returns 0: the
    memory of the caller, the objects, the byte counters and the queue
    are as before, and the clock has moved on by the timeout. *)
Theorem blocking_read_waits_out (msecs_to_jiffies : Z -> Z) (w : driver)
    (filp : file) (buff : list byte) (len : Z) (fuel : nat) :
  let mn := get_minor filp in
  let o := get_object w mn in
  let wait := msecs_to_jiffies (u32 (timeout o)) in
  blocking o = true -> fuel <> O -> workqueue w = [] ->
  0 <= off_write o <= off_read o -> off_read o <= OBJECT_MAX_SIZE ->
  0 <= jiffies w -> 0 <= wait ->
  jiffies w + wait < 9223372036854775808 ->
  exists w',
    dev_read msecs_to_jiffies w filp buff len fuel = Some (0, buff, w') /\
    jiffies w' = jiffies w + wait /\
    objects w' = objects w /\ numBytes w' = numBytes w /\
    workqueue w' = workqueue w.
Proof.
  intros mn o wait Hbl Hfuel Hq Hw Hr Hj Hwait Hsum.
  unfold OBJECT_MAX_SIZE in Hr.
  unfold dev_read. fold mn.
  set (w1 := atomic_inc_numReaders mn w).
  change (get_object w1 mn) with o. rewrite Hbl.
  destruct fuel as [| fuel]; [contradiction |].
  cbn [read_blocking_loop].
  change (get_object w1 mn) with o.
  assert (Hd : deadline msecs_to_jiffies w1 o - s64 (jiffies w1) = wait).
  { unfold deadline. change (jiffies w1) with (jiffies w). fold wait.
    rewrite (u64_small (jiffies w + wait)) by lia.
    rewrite (s64_small (jiffies w + wait)) by lia.
    rewrite (s64_small (jiffies w)) by lia. lia. }
  rewrite Hd. rewrite (s64_small wait) by lia.
  destruct (Z.ltb_spec wait 0) as [Hneg | _]; [lia |].
  rewrite (s32_small (off_write o - off_read o)) by lia.
  destruct (Z.leb_spec (off_write o - off_read o) 0) as [_ | Hc]; [| lia].
  assert (Hcond : forall t, read_condition mn (set_jiffies t w1) = false).
  { intros t. unfold read_condition. cbv zeta.
    change (get_object (set_jiffies t w1) mn) with o.
    rewrite (s32_small (off_write o - off_read o)) by lia.
    destruct (Z.ltb_spec 0 (off_write o - off_read o)) as [Hc | _]; [lia |].
    reflexivity. }
  unfold wait_event_timeout.
  change (read_condition mn w1)
    with (read_condition mn (set_jiffies (jiffies w1) w1)).
  rewrite Hcond. rewrite (u64_small wait) by lia.
  destruct (Z.eqb_spec wait 0) as [Hz | Hnz].
  - change (s32 0 =? 0) with true. cbn iota.
    exists (snd (exit_read mn 0 buff w1)).
    split; [reflexivity |]. split; [cbn; lia |]. repeat split.
  - cbv zeta. rewrite run_pending_nil by exact Hq. rewrite Hcond.
    change (s32 0 =? 0) with true. cbn iota.
    exists (snd (exit_read mn 0 buff (set_jiffies (jiffies w1 + wait) w1))).
    split; [reflexivity |]. repeat split.
Qed.

Lemma blocking_read_waits_out_witness :
  blocking (get_object boot 0) = true /\
  workqueue boot = [] /\
  0 <= off_write (get_object boot 0) <= off_read (get_object boot 0) /\
  msecs_to_jiffies_250 (u32 (timeout (get_object boot 0))) = 50 /\
  exists w',
    dev_read msecs_to_jiffies_250 boot session0 (replicate 4 x00) 4 1
    = Some (0, replicate 4 x00, w') /\
    jiffies w'
    = jiffies boot + msecs_to_jiffies_250 (u32 (timeout (get_object boot 0))) /\
    objects w' = objects boot /\ numBytes w' = numBytes boot /\
    workqueue w' = workqueue boot.
Proof.
  assert (Hc : 0 <= off_write (get_object boot 0)
               <= off_read (get_object boot 0))
    by (vm_compute; split; discriminate).
  split; [reflexivity |]. split; [reflexivity |]. split; [exact Hc |].
  split; [reflexivity |].
  apply (blocking_read_waits_out msecs_to_jiffies_250 boot session0
           (replicate 4 x00) 4 1).
  - reflexivity.
  - discriminate.
  - reflexivity.
  - exact Hc.
  - vm_compute. discriminate.
  - vm_compute. discriminate.
  - vm_compute. discriminate.
  - vm_compute. reflexivity.
Defined.

(** ** A high-priority write and the pending low-priority writes *)

(** X6.  A high-priority write overtakes a pending low-priority write.  On a
    minor set to low priority, with no work pending, write a payload [a]
    without zero byte, switch the minor to high priority and write [b],
    then let the work item run: both writes return the length of their
    payload, and the flow then holds [b] before [a], the bytes written
    last first. *)
Theorem high_write_overtakes_pending_low (msecs_to_jiffies : Z -> Z)
    (w : driver) (filp : file) (a b : list byte) (fuel : nat) :
  let mn := get_minor filp in
  let o := get_object w mn in
  let len_a := Z.of_nat (length a) in
  let len_b := Z.of_nat (length b) in
  driver_invariant w -> (mn < MINORS)%nat -> priority o = false ->
  workqueue w = [] -> cstring a = a ->
  get_numBytes w mn + len_a + len_b < OBJECT_MAX_SIZE ->
  (blocking o = true ->
   fuel <> O /\ 0 <= s64 (deadline msecs_to_jiffies w o - s64 (jiffies w))) ->
  exists w1 w3,
    dev_write msecs_to_jiffies w filp a len_a true fuel = Some (len_a, w1) /\
    dev_write msecs_to_jiffies
      (snd (dev_ioctl w1 filp IOWR_PRIORITYSTATE (Some 1))) filp b len_b
      true fuel
    = Some (len_b, w3) /\
    flow_bytes (get_object (run_work w3) mn) = flow_bytes o ++ b ++ a /\
    get_numBytes (run_work w3) mn = get_numBytes w mn + len_a + len_b /\
    workqueue (run_work w3) = [].
Proof.
  intros mn o len_a len_b Hinv Hmn Hlow Hempty Hc Hroom Hmode.
  pose proof Hinv as (Hlo & Hlb & Hq & Hflow).
  destruct (Hflow mn Hmn) as (Hlock & Hr & Hw & Hnb & Heq).
  fold o in Hlock, Hr, Hw, Heq.
  assert (Hlen_a : 0 <= len_a <= MAX_RW_COUNT).
  { unfold MAX_RW_COUNT, OBJECT_MAX_SIZE in *.
    change (2 ^ 31 - 4096) with 2147479552. lia. }
  assert (Hlen_b : 0 <= len_b <= MAX_RW_COUNT).
  { unfold MAX_RW_COUNT, OBJECT_MAX_SIZE in *.
    change (2 ^ 31 - 4096) with 2147479552. lia. }
  assert (Hfull : file_is_full w mn len_a = false).
  { destruct (file_is_full w mn len_a) eqn:Hf; [| reflexivity].
    apply file_is_full_spec in Hf;
      [lia | unfold OBJECT_MAX_SIZE in Hnb; lia | exact Hlen_a]. }
  (* the low-priority write *)
  destruct (low_write_scheduled msecs_to_jiffies w filp a len_a fuel)
    as (the_task & w0 & Hdw & Hrsv); try assumption; try lia.
  fold mn in Hrsv. rewrite Z.min_id in Hdw, Hrsv.
  destruct Hrsv as (Hq0 & Hn0 & Hs0 & Hw0 & Hr0). fold o in Hs0, Hw0, Hr0.
  set (w1 := schedule_work the_task w0) in *.
  assert (Hq1 : workqueue w1 = [the_task]).
  { unfold w1, schedule_work. cbn [workqueue set_workqueue].
    rewrite Hq0, Hempty. reflexivity. }
  pose proof (dev_write_invariant _ _ _ _ _ _ _ _ _ Hinv Hmn Hlen_a Hdw)
    as Hinv1.
  destruct (low_write_task_shape msecs_to_jiffies w filp a len_a true fuel
              _ w1 the_task Hlow Hlen_a Hdw)
    as (Htm & Htn & rest & Htb).
  { rewrite Hq1, Hempty. reflexivity. }
  fold mn in Htm. unfold len_a in Htn, Htb.
  rewrite Nat2Z.id, firstn_all in Htn, Htb.
  assert (Hn1 : get_numBytes w1 mn = get_numBytes w mn + len_a).
  { change (get_numBytes w1 mn) with (get_numBytes w0 mn). rewrite Hn0.
    apply u32_small. unfold OBJECT_MAX_SIZE in *. lia. }
  (* the switch to high priority *)
  set (w2 := snd (dev_ioctl w1 filp IOWR_PRIORITYSTATE (Some 1))).
  pose proof (dev_ioctl_invariant w1 filp IOWR_PRIORITYSTATE (Some 1)
                Hinv1 Hmn) as Hinv2.
  fold w2 in Hinv2.
  pose proof Hinv1 as (Hlo1 & _).
  assert (Hobj2 : get_object w2 mn = set_priority true (get_object w0 mn)).
  { unfold w2, dev_ioctl. fold mn. cbn [Z.eqb Pos.eqb snd].
    rewrite get_set_object by lia. reflexivity. }
  assert (Hflow2 : flow_bytes (get_object w2 mn) = flow_bytes o).
  { rewrite Hobj2. unfold flow_bytes, bytes_in_page.
    cbn [set_priority stream_content off_read off_write].
    rewrite Hs0, Hw0, Hr0. reflexivity. }
  assert (Hn2 : get_numBytes w2 mn = get_numBytes w1 mn) by reflexivity.
  assert (Hq2 : workqueue w2 = workqueue w1) by reflexivity.
  (* the high-priority write *)
  assert (Hhigh2 : priority (get_object w2 mn) = true)
    by (rewrite Hobj2; reflexivity).
  assert (Hlock2 : operation_synchronizer (get_object w2 mn) = false).
  { destruct Hinv2 as (_ & _ & _ & Hf2). apply (Hf2 mn Hmn). }
  destruct (high_write_body w2 mn b len_b Hinv2 Hmn Hlen_b)
    as (r & w3 & Hbody & _ & Hroom3).
  assert (Hdw3 : dev_write msecs_to_jiffies w2 filp b len_b true fuel
                 = Some (r, w3)).
  { assert (Hnf : file_is_full w2 mn len_b = false).
    { destruct (file_is_full w2 mn len_b) eqn:Hf; [| reflexivity].
      apply file_is_full_spec in Hf;
        [| rewrite Hn2, Hn1; unfold OBJECT_MAX_SIZE in *; lia | exact Hlen_b].
      rewrite Hn2, Hn1 in Hf. lia. }
    rewrite Hnf in Hbody.
    unfold dev_write. fold mn. rewrite Hhigh2.
    destruct (blocking (get_object w2 mn)) eqn:Hbl2.
    - assert (Hbo : blocking o = true).
      { assert (Hmn0 : (get_minor filp < length (objects w))%nat)
          by (fold mn; rewrite Hlo; exact Hmn).
        destruct (dev_write_kept _ _ _ _ _ _ _ _ _ Hmn0 Hdw)
          as (_ & (_ & _ & Hb & _)).
        fold mn in Hb. change (get_object w1 mn) with (get_object w0 mn) in Hb.
        fold o in Hb. rewrite <- Hb. rewrite Hobj2 in Hbl2. exact Hbl2. }
      destruct (Hmode Hbo) as (Hfuel & _).
      destruct fuel as [| fuel]; [contradiction |].
      cbn [high_blocking_loop].
      destruct (Z.ltb_spec
                  (u64 (deadline msecs_to_jiffies w2 (get_object w2 mn)
                        - s64 (jiffies w2))) 0) as [Hneg | _].
      { pose proof (u64_range (deadline msecs_to_jiffies w2 (get_object w2 mn)
                               - s64 (jiffies w2))). lia. }
      unfold spin_trylock. rewrite Hlock2, Hnf. exact Hbody.
    - unfold spin_trylock. rewrite Hlock2, Hnf. exact Hbody. }
  fold mn in Hroom3.
  destruct Hroom3 as (Hr3 & Hflow3 & Hn3 & Hq3); [lia |].
  rewrite Z.min_id in Hr3. subst r.
  unfold len_b in Hflow3. rewrite Nat2Z.id, firstn_all in Hflow3.
  pose proof (dev_write_invariant _ _ _ _ _ _ _ _ _ Hinv2 Hmn Hlen_b Hdw3)
    as Hinv3.
  exists w1, w3. split; [exact Hdw |]. split; [exact Hdw3 |].
  (* the run of the work item *)
  pose proof Hinv3 as (Hlo3 & Hlb3 & _ & Hflow3').
  destruct (Hflow3' mn Hmn) as (_ & Hr3 & Hw3 & Hnb3 & Heq3).
  rewrite Hq3, Hq2, Hq1 in Heq3. cbn [pending] in Heq3.
  rewrite Htm, Nat.eqb_refl in Heq3.
  unfold run_work. rewrite Hq3, Hq2, Hq1.
  set (w4 := set_workqueue [] w3).
  destruct (delayed_work_flow w4 the_task a rest)
    as (Hfb & _ & _ & Hnb4 & Hq4).
  - rewrite Htm. change (objects w4) with (objects w3). lia.
  - exact Htb.
  - exact Htn.
  - exact Hc.
  - rewrite Htm. exact Hr3.
  - rewrite Htm. exact Hw3.
  - rewrite Htm. change (get_object w4 mn) with (get_object w3 mn). lia.
  - rewrite Htm in Hfb. change (get_object w4 mn) with (get_object w3 mn) in Hfb.
    rewrite Hfb, Hflow3, Hflow2, <- app_assoc.
    split; [reflexivity |]. split; [| exact Hq4].
    unfold get_numBytes. rewrite Hnb4.
    change (numBytes w4 !!! mn) with (get_numBytes w3 mn).
    rewrite Hn3, Hn2, Hn1. reflexivity.
Qed.

Lemma high_write_overtakes_pending_low_witness :
  driver_invariant boot_low /\
  priority (get_object boot_low 0) = false /\
  workqueue boot_low = [] /\ cstring ciao = ciao /\
  exists w1 w3,
    dev_write msecs_to_jiffies_250 boot_low session0 ciao
              (Z.of_nat (length ciao)) true 1
    = Some (Z.of_nat (length ciao), w1) /\
    dev_write msecs_to_jiffies_250
      (snd (dev_ioctl w1 session0 IOWR_PRIORITYSTATE (Some 1))) session0 ab
      (Z.of_nat (length ab)) true 1
    = Some (Z.of_nat (length ab), w3) /\
    flow_bytes (get_object (run_work w3) 0)
    = flow_bytes (get_object boot_low 0) ++ ab ++ ciao /\
    get_numBytes (run_work w3) 0
    = get_numBytes boot_low 0 + Z.of_nat (length ciao)
      + Z.of_nat (length ab) /\
    workqueue (run_work w3) = [].
Proof.
  split; [exact boot_low_invariant |]. split; [reflexivity |].
  split; [reflexivity |]. split; [reflexivity |].
  apply (high_write_overtakes_pending_low msecs_to_jiffies_250 boot_low
           session0 ciao ab 1).
  - exact boot_low_invariant.
  - exact minor0.
  - reflexivity.
  - reflexivity.
  - reflexivity.
  - vm_compute. reflexivity.
  - intros _. split; [discriminate | vm_compute; discriminate].
Defined.

(** ** init_module and cleanup_module: the pages *)

Lemma filter_all {A} (P : A -> Prop) `{forall x, Decision (P x)} (l : list A) :
  Forall P l -> filter P l = l.
Proof.
  induction 1 as [| x l Hx _ IH]; [reflexivity |].
  rewrite filter_cons_True by exact Hx. rewrite IH. reflexivity.
Qed.

Lemma filter_none {A} (P : A -> Prop) `{forall x, Decision (P x)}
    (l : list A) :
  Forall (fun x => ~ P x) l -> filter P l = [].
Proof.
  induction 1 as [| x l Hx _ IH]; [reflexivity |].
  rewrite filter_cons_False by exact Hx. exact IH.
Qed.

(** The pages that a run of free_page over the addresses [addrs] leaves
    allocated. *)
Lemma free_pages_filter addrs : forall allocated,
  foldl (fun allocated addr => free_page addr allocated) allocated addrs
  = filter (fun a => Forall (fun addr => addr = 0 \/ a <> addr) addrs)
           allocated.
Proof.
  induction addrs as [| addr addrs IH]; intros allocated; cbn [foldl].
  - symmetry. apply filter_all. apply Forall_forall. intros a _. constructor.
  - rewrite IH. unfold free_page.
    destruct (Z.eqb_spec addr 0) as [-> | Hnz].
    + apply list_filter_iff. intros a. rewrite Forall_cons. tauto.
    + rewrite list_filter_filter. apply list_filter_iff. intros a.
      rewrite Forall_cons. tauto.
Qed.

Lemma revert_allocationPage_foldl i : forall stream allocated,
  revert_allocationPage i stream allocated
  = foldl (fun allocated addr => free_page addr allocated) allocated
          (map (fun j => stream !!! j) (rev (seq 0 (S i)))).
Proof.
  induction i as [| i IH]; intros stream allocated; [reflexivity |].
  cbn [revert_allocationPage]. rewrite IH.
  rewrite (seq_S (S i) 0), rev_unit. reflexivity.
Qed.

Lemma cleanup_module_foldl stream allocated :
  cleanup_module stream allocated
  = foldl (fun allocated addr => free_page addr allocated) allocated
          (map (fun j => stream !!! j) (seq 0 MINORS)).
Proof.
  unfold cleanup_module. generalize (seq 0 MINORS). intros l.
  revert allocated. induction l as [| j l IH]; intros allocated;
    [reflexivity |].
  cbn [foldl map]. apply IH.
Qed.

(** The first loop of init_module: where it stops, the pages it has
    obtained and what it leaves in stream_content. *)
Lemma allocate_pages_spec get_free_page n : forall i stream allocated,
  (i + n <= length stream)%nat ->
  match allocate_pages n i get_free_page stream allocated with
  | (Some k, stream', allocated') =>
      (i <= k < i + n)%nat /\ get_free_page k = 0 /\
      (forall j, (i <= j < k)%nat -> get_free_page j <> 0) /\
      allocated' = rev (map get_free_page (seq i (k - i))) ++ allocated /\
      (forall j, (i <= j <= k)%nat -> stream' !!! j = get_free_page j) /\
      (forall j, (j < i)%nat -> stream' !!! j = stream !!! j) /\
      length stream' = length stream
  | (None, stream', allocated') =>
      (forall j, (i <= j < i + n)%nat -> get_free_page j <> 0) /\
      allocated' = rev (map get_free_page (seq i n)) ++ allocated /\
      (forall j, (i <= j < i + n)%nat -> stream' !!! j = get_free_page j) /\
      (forall j, (j < i)%nat -> stream' !!! j = stream !!! j) /\
      length stream' = length stream
  end.
Proof.
  induction n as [| n IH]; intros i stream allocated Hlen.
  - cbn [allocate_pages seq map rev app].
    repeat split; intros; lia || reflexivity.
  - cbn [allocate_pages].
    destruct (Z.eqb_spec (get_free_page i) 0) as [Hnull | Hpage].
    + replace (i - i)%nat with O by lia. cbn [seq map rev app].
      split; [lia |]. split; [exact Hnull |]. split; [intros; lia |].
      split; [reflexivity |]. split; [| split].
      * intros j Hj. replace j with i by lia.
        apply list_lookup_total_insert_eq. lia.
      * intros j Hj. apply list_lookup_total_insert_ne. lia.
      * apply length_insert.
    + specialize (IH (S i) (<[i := get_free_page i]> stream)
                    (get_free_page i :: allocated)).
      rewrite length_insert in IH. specialize (IH ltac:(lia)).
      destruct (allocate_pages n (S i) get_free_page _ _)
        as [[[k |] stream'] allocated'].
      * destruct IH as (Hk & Hfail & Hbefore & Hall & Hs & Hold & Hl).
        split; [lia |]. split; [exact Hfail |]. split; [| split; [| split; [| split]]].
        -- intros j Hj. destruct (decide (j = i)) as [-> | Hne];
             [exact Hpage | apply Hbefore; lia].
        -- rewrite Hall. replace (k - i)%nat with (S (k - S i)) by lia.
           cbn [seq map rev]. rewrite <- app_assoc. reflexivity.
        -- intros j Hj. destruct (decide (j = i)) as [-> | Hne].
           ++ rewrite Hold by lia. apply list_lookup_total_insert_eq. lia.
           ++ apply Hs. lia.
        -- intros j Hj. rewrite Hold by lia.
           apply list_lookup_total_insert_ne. lia.
        -- exact Hl.
      * destruct IH as (Hbefore & Hall & Hs & Hold & Hl).
        split; [| split; [| split; [| split]]].
        -- intros j Hj. destruct (decide (j = i)) as [-> | Hne];
             [exact Hpage | apply Hbefore; lia].
        -- rewrite Hall. cbn [seq map rev]. rewrite <- app_assoc. reflexivity.
        -- intros j Hj. destruct (decide (j = i)) as [-> | Hne].
           ++ rewrite Hold by lia. apply list_lookup_total_insert_eq. lia.
           ++ apply Hs. lia.
        -- intros j Hj. rewrite Hold by lia.
           apply list_lookup_total_insert_ne. lia.
        -- exact Hl.
Qed.

(** X19.  init_module without memory.  When __get_free_page answers NULL for
    minor [k], after a page for each minor before it, init_module returns
    -ENOMEM, and the loop at revert_allocationPage has given back every
    page that the call had obtained: the pages allocated are those of
    before the call. *)
Theorem init_module_out_of_memory (get_free_page : nat -> Z)
    (register_chrdev : Z) (allocated : list Z) (k : nat) :
  (k < MINORS)%nat -> get_free_page k = 0 ->
  (forall j, (j < k)%nat -> get_free_page j <> 0) ->
  (forall j, (j < k)%nat -> get_free_page j ∉ allocated) ->
  exists stream,
    init_module_pages get_free_page register_chrdev allocated
    = (- ENOMEM, stream, allocated).
Proof.
  intros Hk Hnull Hpages Hfresh. unfold init_module_pages.
  pose proof (allocate_pages_spec get_free_page MINORS 0
                (replicate MINORS 0) allocated) as Hspec.
  rewrite length_replicate in Hspec. specialize (Hspec ltac:(lia)).
  destruct (allocate_pages MINORS 0 get_free_page _ _)
    as [[[k' |] stream] allocated'].
  2:{ destruct Hspec as (Hall & _). exfalso. apply (Hall k); [lia | exact Hnull]. }
  destruct Hspec as (Hk' & Hfail & Hbefore & Hall & Hs & _ & _).
  assert (k' = k).
  { destruct (Nat.lt_trichotomy k' k) as [Hlt | [Heq | Hgt]]; [| exact Heq |].
    - exfalso. apply (Hpages k' Hlt). exact Hfail.
    - exfalso. apply (Hbefore k); [lia | exact Hnull]. }
  subst k'. exists stream. f_equal.
  rewrite revert_allocationPage_foldl, free_pages_filter, Hall.
  rewrite Nat.sub_0_r, filter_app.
  rewrite filter_none; [rewrite filter_all; [reflexivity |] |].
  - apply Forall_forall. intros a Ha. apply Forall_forall. intros addr Haddr.
    apply list_elem_of_In, in_map_iff in Haddr as (j & <- & Hj).
    apply in_rev, in_seq in Hj.
    rewrite Hs by lia.
    destruct (decide (j = k)) as [-> | Hne]; [left; exact Hnull |].
    right. intros ->. apply (Hfresh j); [lia | exact Ha].
  - apply Forall_forall. intros a Ha Hkeep.
    apply list_elem_of_In in Ha. apply in_rev in Ha.
    apply in_map_iff in Ha as (j & <- & Hj). apply in_seq in Hj.
    rewrite Forall_forall in Hkeep.
    destruct (Hkeep (get_free_page j)) as [Hz | Hne].
    + apply list_elem_of_In, in_map_iff. exists j.
      split; [apply Hs; lia |]. apply -> in_rev. apply in_seq. lia.
    + apply (Hpages j); [lia | exact Hz].
    + apply Hne. reflexivity.
Qed.

Lemma init_module_out_of_memory_witness :
  (3 < MINORS)%nat /\ three_pages 3 = 0 /\
  exists stream, init_module_pages three_pages 0 [] = (- ENOMEM, stream, []).
Proof.
  assert (H1 : (3 < MINORS)%nat) by (vm_compute; lia).
  split; [exact H1 |]. split; [reflexivity |].
  apply (init_module_out_of_memory three_pages 0 [] 3).
  - exact H1.
  - reflexivity.
  - intros j Hj. unfold three_pages, page_at.
    destruct (Nat.ltb_spec j 3); lia.
  - intros j Hj. apply not_elem_of_nil.
Defined.

Lemma allocate_pages_all get_free_page allocated :
  (forall j, (j < MINORS)%nat -> get_free_page j <> 0) ->
  exists stream,
    allocate_pages MINORS 0 get_free_page (replicate MINORS 0) allocated
    = (None, stream,
       rev (map get_free_page (seq 0 MINORS)) ++ allocated) /\
    forall j, (j < MINORS)%nat -> stream !!! j = get_free_page j.
Proof.
  intros Hpages.
  pose proof (allocate_pages_spec get_free_page MINORS 0
                (replicate MINORS 0) allocated) as Hspec.
  rewrite length_replicate in Hspec. specialize (Hspec ltac:(lia)).
  destruct (allocate_pages MINORS 0 get_free_page _ _)
    as [[[k |] stream] allocated'].
  - destruct Hspec as (Hk & Hfail & _). exfalso.
    apply (Hpages k); [lia | exact Hfail].
  - destruct Hspec as (_ & -> & Hs & _). exists stream.
    split; [reflexivity |]. intros j Hj. apply Hs. lia.
Qed.

(** X20.  init_module without a major number.  When every page could be had
    and __register_chrdev fails, init_module returns the negative answer
    of __register_chrdev at once: the 128 pages are not given back, they
    stay allocated though the module is not loaded. *)
Theorem init_module_registration_failure (get_free_page : nat -> Z)
    (register_chrdev : Z) (allocated : list Z) :
  (forall j, (j < MINORS)%nat -> get_free_page j <> 0) ->
  register_chrdev < 0 ->
  exists stream,
    init_module_pages get_free_page register_chrdev allocated
    = (register_chrdev, stream,
       rev (map get_free_page (seq 0 MINORS)) ++ allocated) /\
    forall j, (j < MINORS)%nat ->
      stream !!! j = get_free_page j /\
      get_free_page j ∈ rev (map get_free_page (seq 0 MINORS)) ++ allocated.
Proof.
  intros Hpages Hfail.
  destruct (allocate_pages_all get_free_page allocated Hpages)
    as (stream & Halloc & Hs).
  exists stream. unfold init_module_pages. rewrite Halloc.
  destruct (Z.ltb_spec register_chrdev 0) as [_ | Hc]; [| lia].
  split; [reflexivity |]. intros j Hj. split; [apply Hs; exact Hj |].
  apply elem_of_app. left. apply list_elem_of_In. apply -> in_rev.
  apply in_map, in_seq. lia.
Qed.

Lemma init_module_registration_failure_witness :
  exists stream,
    init_module_pages page_at (-16) []
    = (-16, stream, rev (map page_at (seq 0 MINORS)) ++ []) /\
    forall j, (j < MINORS)%nat ->
      stream !!! j = page_at j /\
      page_at j ∈ rev (map page_at (seq 0 MINORS)) ++ [].
Proof.
  apply (init_module_registration_failure page_at (-16) []).
  - intros j Hj. unfold page_at. lia.
  - lia.
Defined.

(** X21.  Loading and unloading.  When every page could be had, none of them
    allocated before, and __register_chrdev succeeds, init_module returns
    0 with one page for each of the 128 minors, and cleanup_module then
    gives all of them back: the pages allocated are again those of
    before init_module. *)
Theorem init_module_then_cleanup_module (get_free_page : nat -> Z)
    (register_chrdev : Z) (allocated : list Z) :
  (forall j, (j < MINORS)%nat -> get_free_page j <> 0) ->
  (forall j, (j < MINORS)%nat -> get_free_page j ∉ allocated) ->
  0 <= register_chrdev ->
  exists stream allocated',
    init_module_pages get_free_page register_chrdev allocated
    = (0, stream, allocated') /\
    (forall j, (j < MINORS)%nat ->
       stream !!! j = get_free_page j /\ get_free_page j ∈ allocated') /\
    cleanup_module stream allocated' = allocated.
Proof.
  intros Hpages Hfresh Hok.
  destruct (allocate_pages_all get_free_page allocated Hpages)
    as (stream & Halloc & Hs).
  exists stream, (rev (map get_free_page (seq 0 MINORS)) ++ allocated).
  unfold init_module_pages. rewrite Halloc.
  destruct (Z.ltb_spec register_chrdev 0) as [Hc | _]; [lia |].
  split; [reflexivity |]. split.
  - intros j Hj. split; [apply Hs; exact Hj |].
    apply elem_of_app. left. apply list_elem_of_In. apply -> in_rev.
    apply in_map, in_seq. lia.
  - rewrite cleanup_module_foldl, free_pages_filter, filter_app.
    rewrite filter_none; [rewrite filter_all; [reflexivity |] |].
    + apply Forall_forall. intros a Ha. apply Forall_forall.
      intros addr Haddr.
      apply list_elem_of_In, in_map_iff in Haddr as (j & <- & Hj).
      apply in_seq in Hj. rewrite Hs by lia.
      right. intros ->. apply (Hfresh j); [lia | exact Ha].
    + apply Forall_forall. intros a Ha Hkeep.
      apply list_elem_of_In in Ha. apply in_rev in Ha.
      apply in_map_iff in Ha as (j & <- & Hj). apply in_seq in Hj.
      rewrite Forall_forall in Hkeep.
      destruct (Hkeep (get_free_page j)) as [Hz | Hne].
      * apply list_elem_of_In, in_map_iff. exists j.
        split; [apply Hs; lia |]. apply in_seq. lia.
      * apply (Hpages j); [lia | exact Hz].
      * apply Hne. reflexivity.
Qed.

Lemma init_module_then_cleanup_module_witness :
  exists stream allocated',
    init_module_pages page_at 240 [] = (0, stream, allocated') /\
    (forall j, (j < MINORS)%nat ->
       stream !!! j = page_at j /\ page_at j ∈ allocated') /\
    cleanup_module stream allocated' = [].
Proof.
  apply (init_module_then_cleanup_module page_at 240 []).
  - intros j Hj. unfold page_at. lia.
  - intros j Hj. apply not_elem_of_nil.
  - lia.
Defined.
